(** * quantum-id-system: identity records anchored in a hash-linked ledger

    A shallow embedding of [blockchain.py] and [id_system.py].

    Python objects are a tree of values ([pyval]); [str] and [bytes] are
    both carried as [string] (a sequence of 8-bit characters, so a [str]
    of the model holds code points below 256); [int] is [Z]; a [float] is
    carried as the text [float.__repr__] gives for it, the one observation
    the program makes of a float ([time()] produces it, [json.dumps]
    prints it).  Exceptions are the [Raise] results of an error monad,
    [print] appends a line to the output a function returns, and the one
    unbounded loop, the proof-of-work search, runs on fuel.

    The libraries the program calls are embedded as far as the program
    observes them: [hashlib.sha256] in full (module [Sha256]),
    [json.dumps (_, sort_keys=True)] with its default separators and
    ASCII escaping (module [Json]), [bytes.hex] and [bytes.fromhex]
    (module [Hex]).  The signature scheme of [pqcrypto] is a capability
    (class [SignatureProvider]).  Cyclic objects and the interpreter's
    resource limits are outside the model. *)

From Stdlib Require Import ZArith List String Ascii Bool Lia Arith.
From Stdlib Require Import DecimalString DecimalZ Permutation.
Import ListNotations.

Local Open Scope string_scope.
Local Open Scope Z_scope.

(** ** Exceptions and output *)

(** The exception classes the modelled code can raise. *)
Inductive exn : Type :=
| TypeError
| ValueError
| KeyError
| IndexError.

(** The result of an expression that may raise. *)
Inductive res (A : Type) : Type :=
| Ok (a : A)
| Raise (e : exn).
Arguments Ok {A} a.
Arguments Raise {A} e.

Definition bind {A B : Type} (m : res A) (f : A -> res B) : res B :=
  match m with
  | Ok a => f a
  | Raise e => Raise e
  end.

Notation "x <- m ;; k" := (bind m (fun x => k))
  (at level 61, m at next level, right associativity).

(** The result of a statement that may raise or, run on fuel, not have
    finished. *)
Inductive outcome (A : Type) : Type :=
| Done (a : A)
| Raised (e : exn)
| OutOfFuel.
Arguments Done {A} a.
Arguments Raised {A} e.
Arguments OutOfFuel {A}.

Definition outcome_of_res {A : Type} (r : res A) : outcome A :=
  match r with
  | Ok a => Done a
  | Raise e => Raised e
  end.

(** ** Text *)

Definition dquote : ascii := "034"%char.
Definition backslash : ascii := "092"%char.

Definition str1 (c : ascii) : string := String c EmptyString.

(** ['0' * n]: a negative count gives the empty string. *)
Fixpoint repeat_char (c : ascii) (n : nat) : string :=
  match n with
  | O => EmptyString
  | S n' => String c (repeat_char c n')
  end.

Definition str_mul (c : ascii) (n : Z) : string := repeat_char c (Z.to_nat n).

(** [s.startswith(p)] *)
Definition startswith (s p : string) : bool := String.prefix p s.

(** [str(n)] of an int. *)
Definition str_of_Z (n : Z) : string := NilZero.string_of_int (Z.to_int n).

(** ** hashlib.sha256 *)

Module Sha256.

Definition byte_of_ascii (c : ascii) : Z := Z.of_N (N_of_ascii c).
Definition ascii_of_byte (b : Z) : ascii := ascii_of_N (Z.to_N (Z.land b 255)).

Fixpoint bytes_of_string (s : string) : list Z :=
  match s with
  | EmptyString => []
  | String c s' => byte_of_ascii c :: bytes_of_string s'
  end.

Fixpoint string_of_bytes (l : list Z) : string :=
  match l with
  | [] => EmptyString
  | b :: l' => String (ascii_of_byte b) (string_of_bytes l')
  end.

Definition w32 (x : Z) : Z := Z.land x 4294967295.
Definition add32 (x y : Z) : Z := w32 (x + y).
Definition rotr (n x : Z) : Z := Z.lor (Z.shiftr x n) (w32 (Z.shiftl x (32 - n))).
Definition not32 (x : Z) : Z := Z.lxor x 4294967295.

Definition Ch (x y z : Z) : Z := Z.lxor (Z.land x y) (Z.land (not32 x) z).
Definition Maj (x y z : Z) : Z :=
  Z.lxor (Z.lxor (Z.land x y) (Z.land x z)) (Z.land y z).
Definition Sigma0 (x : Z) : Z := Z.lxor (Z.lxor (rotr 2 x) (rotr 13 x)) (rotr 22 x).
Definition Sigma1 (x : Z) : Z := Z.lxor (Z.lxor (rotr 6 x) (rotr 11 x)) (rotr 25 x).
Definition sigma0 (x : Z) : Z := Z.lxor (Z.lxor (rotr 7 x) (rotr 18 x)) (Z.shiftr x 3).
Definition sigma1 (x : Z) : Z := Z.lxor (Z.lxor (rotr 17 x) (rotr 19 x)) (Z.shiftr x 10).

(** The primes up to 311, the first sixty-four. *)
Definition is_prime (n : Z) : bool :=
  forallb (fun d => negb (n mod Z.of_nat d =? 0)) (seq 2 (Z.to_nat n - 2)).

Definition primes : list Z :=
  Eval vm_compute in filter is_prime (map Z.of_nat (seq 2 310)).

(** The integer cube root of a number below [2 ^ 108], bit by bit. *)
Definition cube_root (n : Z) : Z :=
  fold_left (fun x i => let y := x + Z.shiftl 1 (Z.of_nat i) in
                        if y * y * y <=? n then y else x)
            (List.rev (seq 0 36)) 0.

(** The round constants: the first thirty-two bits of the fractional
    parts of the cube roots of the primes. *)
Definition K : list Z :=
  Eval vm_compute in map (fun p => w32 (cube_root (Z.shiftl p 96))) primes.

(** The eight working variables a .. h, also the chaining value. *)
Record state : Type := mkState {
  va : Z; vb : Z; vc : Z; vd : Z; ve : Z; vf : Z; vg : Z; vh : Z
}.

(** The initial value: the first thirty-two bits of the fractional parts
    of the square roots of the first eight primes. *)
Definition frac_sqrt (p : Z) : Z := w32 (Z.sqrt (Z.shiftl p 64)).

Definition H0 : state :=
  Eval vm_compute in
    mkState (frac_sqrt 2) (frac_sqrt 3) (frac_sqrt 5) (frac_sqrt 7)
            (frac_sqrt 11) (frac_sqrt 13) (frac_sqrt 17) (frac_sqrt 19).

Definition round (k w : Z) (s : state) : state :=
  let t1 := add32 (add32 (add32 (add32 (vh s) (Sigma1 (ve s))) (Ch (ve s) (vf s) (vg s))) k) w in
  let t2 := add32 (Sigma0 (va s)) (Maj (va s) (vb s) (vc s)) in
  mkState (add32 t1 t2) (va s) (vb s) (vc s) (add32 (vd s) t1) (ve s) (vf s) (vg s).

(** The 64 rounds over a sliding window [ws] of the last sixteen words of
    the message schedule, oldest first. *)
Fixpoint rounds (ks ws : list Z) (s : state) : state :=
  match ks with
  | [] => s
  | k :: ks' =>
      let w := nth 0 ws 0 in
      let nw := add32 (add32 (sigma1 (nth 14 ws 0)) (nth 9 ws 0))
                      (add32 (sigma0 (nth 1 ws 0)) w) in
      rounds ks' (tl ws ++ [nw])%list (round k w s)
  end.

Definition compress (h : state) (ws : list Z) : state :=
  let s := rounds K ws h in
  mkState (add32 (va h) (va s)) (add32 (vb h) (vb s)) (add32 (vc h) (vc s))
          (add32 (vd h) (vd s)) (add32 (ve h) (ve s)) (add32 (vf h) (vf s))
          (add32 (vg h) (vg s)) (add32 (vh h) (vh s)).

(** Big-endian words of a byte list (a short last group is filled with
    zero bytes; the padded message has none). *)
Fixpoint words (fuel : nat) (l : list Z) : list Z :=
  match fuel, l with
  | S f, b0 :: b1 :: b2 :: b3 :: l' =>
      (((b0 * 256 + b1) * 256 + b2) * 256 + b3) :: words f l'
  | _, _ => []
  end.

Definition be_bytes (n : nat) (x : Z) : list Z :=
  map (fun i => Z.land (Z.shiftr x (8 * Z.of_nat i)) 255) (List.rev (seq 0 n)).

Definition pad (msg : list Z) : list Z :=
  let len := Z.of_nat (List.length msg) in
  (msg ++ [128] ++ repeat 0 (Z.to_nat ((55 - len) mod 64)) ++ be_bytes 8 (8 * len))%list.

Fixpoint chunks (fuel : nat) (ws : list Z) (h : state) : state :=
  match fuel, ws with
  | S f, _ :: _ => chunks f (skipn 16 ws) (compress h (firstn 16 ws))
  | _, _ => h
  end.

Definition digest_bytes (msg : list Z) : list Z :=
  let p := pad msg in
  let ws := words (List.length p) p in
  let h := chunks (List.length ws) ws H0 in
  flat_map (be_bytes 4)
    [va h; vb h; vc h; vd h; ve h; vf h; vg h; vh h].

(** [hashlib.sha256(data).digest()] *)
Definition digest (data : string) : string :=
  string_of_bytes (digest_bytes (bytes_of_string data)).

End Sha256.

(** ** bytes.hex and bytes.fromhex *)

Module Hex.

Definition digit (n : N) : ascii :=
  match n with
  | 0 => "0" | 1 => "1" | 2 => "2" | 3 => "3" | 4 => "4" | 5 => "5"
  | 6 => "6" | 7 => "7" | 8 => "8" | 9 => "9" | 10 => "a" | 11 => "b"
  | 12 => "c" | 13 => "d" | 14 => "e" | _ => "f"
  end%N%char.

(** The value of a hexadecimal digit, either case. *)
Definition value (c : ascii) : option N :=
  let n := N_of_ascii c in
  if ((48 <=? n) && (n <=? 57))%N then Some (n - 48)%N
  else if ((97 <=? n) && (n <=? 102))%N then Some (n - 87)%N
  else if ((65 <=? n) && (n <=? 70))%N then Some (n - 55)%N
  else None.

Definition hex_byte (c : ascii) (rest : string) : string :=
  let n := N_of_ascii c in
  String (digit (n / 16)) (String (digit (n mod 16)) rest).

(** [b.hex()] *)
Fixpoint hex (b : string) : string :=
  match b with
  | EmptyString => EmptyString
  | String c b' => hex_byte c (hex b')
  end.

(** ASCII whitespace, which [fromhex] skips between bytes. *)
Definition is_space (c : ascii) : bool :=
  let n := N_of_ascii c in
  ((n =? 32) || ((9 <=? n) && (n <=? 13)))%N.

(** [bytes.fromhex(s)]: two digits per byte, whitespace skipped before a
    byte and at the end; anything else is a [ValueError]. *)
Fixpoint fromhex (s : string) : res string :=
  match s with
  | EmptyString => Ok EmptyString
  | String c s' =>
      if is_space c then fromhex s'
      else
        match value c, s' with
        | Some hi, String d s'' =>
            match value d with
            | Some lo =>
                rest <- fromhex s'' ;;
                Ok (String (ascii_of_N (hi * 16 + lo)) rest)
            | None => Raise ValueError
            end
        | _, _ => Raise ValueError
        end
  end.

End Hex.

(** [hashlib.sha256(data).hexdigest()] *)
Definition sha256_hexdigest (data : string) : string :=
  Hex.hex (Sha256.digest data).

(** ** Python values *)

Set Warnings "-register-all".

(** A float, carried as the text of [float.__repr__]: ["1700000000.25"],
    ["1e+16"], ["nan"], ["inf"], ["-inf"]. *)
Record pyfloat : Type := mkFloat { float_repr : string }.

(** The keys a dict of the model may have. *)
Inductive pykey : Type :=
| KStr (s : string)
| KInt (n : Z)
| KBool (b : bool)
| KNone.

(** Python objects.  A dict lists its items in insertion order. *)
Inductive pyval : Type :=
| PyNone
| PyBool (b : bool)
| PyInt (n : Z)
| PyFloat (f : pyfloat)
| PyStr (s : string)
| PyBytes (b : string)
| PyList (l : list pyval)
| PyTuple (l : list pyval)
| PyDict (items : list (pykey * pyval)).

Definition pykey_eqb (a b : pykey) : bool :=
  match a, b with
  | KStr s, KStr t => String.eqb s t
  | KInt n, KInt m => Z.eqb n m
  | KBool x, KBool y => Bool.eqb x y
  | KInt n, KBool y => Z.eqb n (if y then 1 else 0)
  | KBool x, KInt m => Z.eqb (if x then 1 else 0) m
  | KNone, KNone => true
  | _, _ => false
  end.

Fixpoint dict_get (items : list (pykey * pyval)) (k : pykey) : option pyval :=
  match items with
  | [] => None
  | (k', v) :: rest => if pykey_eqb k' k then Some v else dict_get rest k
  end.

(** [d[k] = v] on a dict: the value of an existing key is replaced where
    it stands, a new key goes last. *)
Fixpoint dict_set (items : list (pykey * pyval)) (k : pykey) (v : pyval)
  : list (pykey * pyval) :=
  match items with
  | [] => [(k, v)]
  | (k', v') :: rest =>
      if pykey_eqb k' k then (k', v) :: rest else (k', v') :: dict_set rest k v
  end.

(** [obj[key]] for a string key: only a dict can be subscripted by a
    string. *)
Definition getitem (obj : pyval) (key : string) : res pyval :=
  match obj with
  | PyDict items =>
      match dict_get items (KStr key) with
      | Some v => Ok v
      | None => Raise KeyError
      end
  | _ => Raise TypeError
  end.

(** [obj[key] = v] for a string key. *)
Definition setitem (obj : pyval) (key : string) (v : pyval) : res pyval :=
  match obj with
  | PyDict items => Ok (PyDict (dict_set items (KStr key) v))
  | _ => Raise TypeError
  end.

(** ** json.dumps(obj, sort_keys=True) *)

Module Json.

(** One character of a string, escaped as [ensure_ascii] does: the
    printable ASCII characters stand for themselves, apart from the quote
    and the backslash. *)
Definition escape_char (c : ascii) (rest : string) : string :=
  let n := N_of_ascii c in
  if (n =? 34)%N then String backslash (String dquote rest)
  else if (n =? 92)%N then String backslash (String backslash rest)
  else if (n =? 10)%N then String backslash (String "n" rest)
  else if (n =? 13)%N then String backslash (String "r" rest)
  else if (n =? 9)%N then String backslash (String "t" rest)
  else if (n =? 8)%N then String backslash (String "b" rest)
  else if (n =? 12)%N then String backslash (String "f" rest)
  else if ((32 <=? n) && (n <=? 126))%N then String c rest
  else String backslash (String "u" (String "0" (String "0" (Hex.hex_byte c rest)))).

Fixpoint escape (s : string) (rest : string) : string :=
  match s with
  | EmptyString => rest
  | String c s' => escape_char c (escape s' rest)
  end.

Definition encode_str (s : string) : string :=
  String dquote (escape s (str1 dquote)).

Definition floatstr (f : pyfloat) : string :=
  let r := float_repr f in
  if String.eqb r "nan" then "NaN"
  else if String.eqb r "inf" then "Infinity"
  else if String.eqb r "-inf" then "-Infinity"
  else r.

(** The text of a key before it is quoted. *)
Definition key_text (k : pykey) : string :=
  match k with
  | KStr s => s
  | KInt n => str_of_Z n
  | KBool true => "true"
  | KBool false => "false"
  | KNone => "null"
  end.

Definition key_num (k : pykey) : option Z :=
  match k with
  | KInt n => Some n
  | KBool b => Some (if b then 1 else 0)
  | _ => None
  end.

(** [a < b] on keys: strings by code points, numbers by value, anything
    else is unorderable. *)
Definition key_lt (a b : pykey) : res bool :=
  match a, b with
  | KStr s, KStr t => Ok (String.ltb s t)
  | _, _ =>
      match key_num a, key_num b with
      | Some n, Some m => Ok (n <? m)
      | _, _ => Raise TypeError
      end
  end.

(** [sorted(items)], by insertion. *)
Fixpoint insert_item {A : Type} (x : pykey * A) (l : list (pykey * A))
  : res (list (pykey * A)) :=
  match l with
  | [] => Ok [x]
  | y :: l' =>
      lt <- key_lt (fst x) (fst y) ;;
      if lt then Ok (x :: y :: l')
      else (r <- insert_item x l' ;; Ok (y :: r))
  end.

Fixpoint sort_items {A : Type} (l : list (pykey * A)) : res (list (pykey * A)) :=
  match l with
  | [] => Ok []
  | x :: l' => s <- sort_items l' ;; insert_item x s
  end.

(** [", ".join(parts)] *)
Fixpoint join (parts : list string) : string :=
  match parts with
  | [] => ""
  | [p] => p
  | p :: rest => p ++ ", " ++ join rest
  end.

Definition member (kv : pykey * string) : string :=
  encode_str (key_text (fst kv)) ++ ": " ++ snd kv.

(** The encoder.  Every failure of the encoder on a value of the model is
    a [TypeError] (an object that is not serializable, keys that cannot
    be ordered), so the values of a dict are encoded before its items are
    sorted. *)
Fixpoint dumps (v : pyval) : res string :=
  match v with
  | PyNone => Ok "null"
  | PyBool true => Ok "true"
  | PyBool false => Ok "false"
  | PyInt n => Ok (str_of_Z n)
  | PyFloat f => Ok (floatstr f)
  | PyStr s => Ok (encode_str s)
  | PyBytes _ => Raise TypeError
  | PyList l | PyTuple l =>
      parts <- (fix each (l : list pyval) : res (list string) :=
                  match l with
                  | [] => Ok []
                  | x :: l' => s <- dumps x ;; r <- each l' ;; Ok (s :: r)
                  end) l ;;
      Ok ("[" ++ join parts ++ "]")
  | PyDict items =>
      parts <- (fix each (l : list (pykey * pyval)) : res (list (pykey * string)) :=
                  match l with
                  | [] => Ok []
                  | (k, x) :: l' => s <- dumps x ;; r <- each l' ;; Ok ((k, s) :: r)
                  end) items ;;
      sorted <- sort_items parts ;;
      Ok ("{" ++ join (map member sorted) ++ "}")
  end.

(** The elements of a list, encoded in order. *)
Fixpoint dumps_list (l : list pyval) : res (list string) :=
  match l with
  | [] => Ok []
  | x :: l' => s <- dumps x ;; r <- dumps_list l' ;; Ok (s :: r)
  end.

(** The values of the items of a dict, encoded in order. *)
Fixpoint dumps_items (l : list (pykey * pyval)) : res (list (pykey * string)) :=
  match l with
  | [] => Ok []
  | (k, x) :: l' => s <- dumps x ;; r <- dumps_items l' ;; Ok ((k, s) :: r)
  end.

End Json.

(** ** Output and statements *)

(** The lines the program prints, one constructor per [print] call, with
    the values its f-string interpolates. *)
Inductive line : Type :=
| BlockMined (h : string)
| NoNewIds
| MiningBlock (i : Z) (count : nat)
| HashCorrupted (i : nat)
| NotLinked (i : nat)
| VerificationError (e : exn).

(** A statement: what it printed and how it ended. *)
Definition io (A : Type) : Type := (list line * outcome A)%type.

Definition io_ret {A : Type} (a : A) : io A := ([], Done a).

Definition io_bind {A B : Type} (m : io A) (f : A -> io B) : io B :=
  match m with
  | (out, Done a) => let (out', r) := f a in ((out ++ out')%list, r)
  | (out, Raised e) => (out, Raised e)
  | (out, OutOfFuel) => (out, OutOfFuel)
  end.

Definition print (l : line) : io unit := ([l], Done tt).

Definition lift {A : Type} (r : res A) : io A := ([], outcome_of_res r).

Notation "x <~ m ;; k" := (io_bind m (fun x => k))
  (at level 61, m at next level, right associativity).

(** [l[i]] for an index that is not negative. *)
Definition list_get {A : Type} (l : list A) (i : nat) : res A :=
  match nth_error l i with
  | Some a => Ok a
  | None => Raise IndexError
  end.

(** [l[i] = a] in place. *)
Fixpoint list_set {A : Type} (l : list A) (i : nat) (a : A) : res (list A) :=
  match l, i with
  | [], _ => Raise IndexError
  | _ :: l', O => Ok (a :: l')
  | x :: l', S i' => r <- list_set l' i' a ;; Ok (x :: r)
  end.

(** ** blockchain.py *)

(** *** class Block *)

Record Block : Type := mkBlock {
  index : Z;
  timestamp : pyfloat;
  digital_ids : list pyval;
  previous_hash : string;
  nonce : Z;
  hash : string
}.

Definition set_nonce (b : Block) (n : Z) : Block :=
  mkBlock (index b) (timestamp b) (digital_ids b) (previous_hash b) n (hash b).

Definition set_hash (b : Block) (h : string) : Block :=
  mkBlock (index b) (timestamp b) (digital_ids b) (previous_hash b) (nonce b) h.

Definition set_digital_ids (b : Block) (ids : list pyval) : Block :=
  mkBlock (index b) (timestamp b) ids (previous_hash b) (nonce b) (hash b).

(** The dict [calculate_hash] serializes. *)
Definition block_dict (b : Block) : pyval :=
  PyDict [ (KStr "index", PyInt (index b));
           (KStr "timestamp", PyFloat (timestamp b));
           (KStr "data", PyList (digital_ids b));
           (KStr "previous_hash", PyStr (previous_hash b));
           (KStr "nonce", PyInt (nonce b)) ].

(** [json.dumps({...}, sort_keys=True).encode()]: the text is ASCII, so
    its UTF-8 encoding has the same characters. *)
Definition block_string (b : Block) : res string := Json.dumps (block_dict b).

Definition calculate_hash (b : Block) : res string :=
  s <- block_string b ;;
  Ok (sha256_hexdigest s).

(** [Block(index, digital_ids, previous_hash)], with the clock reading
    [now] that [time()] returns. *)
Definition Block_init (now : pyfloat) (index : Z) (digital_ids : list pyval)
    (previous_hash : string) : res Block :=
  let self := mkBlock index now digital_ids previous_hash 0 "" in
  h <- calculate_hash self ;;
  Ok (set_hash self h).

(** The body of the loop of [mine_block]. *)
Definition mine_step (b : Block) : res Block :=
  let b1 := set_nonce b (nonce b + 1) in
  h <- calculate_hash b1 ;;
  Ok (set_hash b1 h).

(** [while not self.hash.startswith(target_prefix): ...] *)
Fixpoint mine_loop (fuel : nat) (target_prefix : string) (b : Block)
  : outcome Block :=
  if startswith (hash b) target_prefix then Done b
  else
    match fuel with
    | O => OutOfFuel
    | S fuel' =>
        match mine_step b with
        | Ok b' => mine_loop fuel' target_prefix b'
        | Raise e => Raised e
        end
    end.

Definition mine_block (fuel : nat) (difficulty : Z) (b : Block) : io Block :=
  let target_prefix := str_mul "0" difficulty in
  b' <~ ([], mine_loop fuel target_prefix b) ;;
  _ <~ print (BlockMined (hash b')) ;;
  io_ret b'.

(** *** class Blockchain *)

Record Blockchain : Type := mkBlockchain {
  chain : list Block;
  pending_ids : list pyval
}.

Definition genesis_ids : list pyval := [PyStr "Genesis Block: System Initialized"].

Definition create_genesis_block (now : pyfloat) (self : Blockchain) : res Blockchain :=
  genesis_block <- Block_init now 0 genesis_ids "0" ;;
  Ok (mkBlockchain (chain self ++ [genesis_block])%list (pending_ids self)).

(** [Blockchain()] *)
Definition Blockchain_init (now : pyfloat) : res Blockchain :=
  create_genesis_block now (mkBlockchain [] []).

(** [self.chain[-1]] *)
Definition last_block (self : Blockchain) : res Block :=
  match List.length (chain self) with
  | O => Raise IndexError
  | S n => list_get (chain self) n
  end.

Definition register_id (digital_id : pyval) (self : Blockchain) : Blockchain :=
  mkBlockchain (chain self) (pending_ids self ++ [digital_id])%list.

Definition default_difficulty : Z := 3.

(** [mine_pending_ids(difficulty)]; [self] is returned as the call
    leaves it, and a call that raises leaves it as it was. *)
Definition mine_pending_ids (fuel : nat) (now : pyfloat) (difficulty : Z)
    (self : Blockchain) : io Blockchain :=
  match pending_ids self with
  | [] =>
      _ <~ print NoNewIds ;;
      io_ret self
  | _ :: _ =>
      last <~ lift (last_block self) ;;
      _ <~ print (MiningBlock (index last + 1) (List.length (pending_ids self))) ;;
      new_block <~ lift (Block_init now (index last + 1) (pending_ids self) (hash last)) ;;
      mined <~ mine_block fuel difficulty new_block ;;
      io_ret (mkBlockchain (chain self ++ [mined])%list [])
  end.

(** The body of the loop of [is_chain_valid], over the indices that
    [range(1, len(self.chain))] yields. *)
Fixpoint check_blocks (chain : list Block) (indices : list nat) : io bool :=
  match indices with
  | [] => io_ret true
  | i :: rest =>
      current_block <~ lift (list_get chain i) ;;
      previous_block <~ lift (list_get chain (i - 1)) ;;
      recomputed <~ lift (calculate_hash current_block) ;;
      if negb (String.eqb (hash current_block) recomputed) then
        _ <~ print (HashCorrupted i) ;;
        io_ret false
      else if negb (String.eqb (previous_hash current_block) (hash previous_block)) then
        _ <~ print (NotLinked i) ;;
        io_ret false
      else check_blocks chain rest
  end.

Definition is_chain_valid (self : Blockchain) : io bool :=
  check_blocks (chain self) (seq 1 (List.length (chain self) - 1)).

(** The tampering of the integration test and of the demonstration route:
    [chain[1].digital_ids[0]['user_data'][key] = value], on the objects
    the chain holds. *)
Definition tamper_user_data (key : string) (value : pyval) (self : Blockchain)
  : res Blockchain :=
  tampering_block <- list_get (chain self) 1 ;;
  record <- list_get (digital_ids tampering_block) 0 ;;
  user_data <- getitem record "user_data" ;;
  user_data' <- setitem user_data key value ;;
  record' <- setitem record "user_data" user_data' ;;
  ids' <- list_set (digital_ids tampering_block) 0 record' ;;
  chain' <- list_set (chain self) 1 (set_digital_ids tampering_block ids') ;;
  Ok (mkBlockchain chain' (pending_ids self)).

(** ** id_system.py *)

Definition ML_DSA : string := "ML-DSA-44".

(** The three functions of [pqcrypto.sign.ml_dsa_44].  Key generation and
    signing draw randomness, which the caller passes as [entropy]. *)
Class SignatureProvider : Type := {
  entropy : Type;
  generate_keypair : entropy -> string * string;
  sign : entropy -> string -> string -> res string;
  verify : string -> string -> string -> res bool
}.

(** What the program relies on: a signature made with the secret key of a
    generated pair verifies under its public key. *)
Definition provider_correct (P : SignatureProvider) : Prop :=
  forall (e e' : entropy) (message : string),
    let (public_key, secret_key) := generate_keypair e in
    exists signature,
      sign e' secret_key message = Ok signature /\
      verify public_key message signature = Ok true.

Section IdSystem.

Context {P : SignatureProvider}.

(** [hashlib.sha256(json.dumps(d, sort_keys=True).encode('utf-8')).digest()] *)
Definition data_digest (user_data : pyval) : res string :=
  user_data_str <- Json.dumps user_data ;;
  Ok (Sha256.digest user_data_str).

(** [generate_pqc_id(user_info)]: the record and the secret key in hex. *)
Definition generate_pqc_id (e_key e_sign : entropy) (now : pyfloat)
    (user_info : pyval) : res (pyval * string) :=
  let (public_key, secret_key) := generate_keypair e_key in
  data_hash <- data_digest user_info ;;
  signature <- sign e_sign secret_key data_hash ;;
  let digital_id :=
    PyDict [ (KStr "id_type", PyStr "E-GOV_PQC_ID");
             (KStr "pqc_scheme", PyStr ML_DSA);
             (KStr "user_data", user_info);
             (KStr "public_key", PyStr (Hex.hex public_key));
             (KStr "signature", PyStr (Hex.hex signature));
             (KStr "timestamp", PyFloat now) ] in
  Ok (digital_id, Hex.hex secret_key).

(** [bytes.fromhex(x)]: of a [str] only. *)
Definition bytes_fromhex (x : pyval) : res string :=
  match x with
  | PyStr s => Hex.fromhex s
  | _ => Raise TypeError
  end.

(** The [try] block of [verify_pqc_id]. *)
Definition verify_body (digital_id : pyval) : res bool :=
  pk_hex <- getitem digital_id "public_key" ;;
  public_key <- bytes_fromhex pk_hex ;;
  sig_hex <- getitem digital_id "signature" ;;
  signature <- bytes_fromhex sig_hex ;;
  user_data <- getitem digital_id "user_data" ;;
  data_hash <- data_digest user_data ;;
  verify public_key data_hash signature.

(** [verify_pqc_id(digital_id)]: every exception of the [try] block is
    caught, reported and answered with [False]. *)
Definition verify_pqc_id (digital_id : pyval) : list line * bool :=
  match verify_body digital_id with
  | Ok b => ([], b)
  | Raise e => ([VerificationError e], false)
  end.

End IdSystem.

(** ** app.py *)

(** The handlers of the three routes, as functions of the module-level
    [blockchain]: what the call printed, how it ended, and the ledger it
    left.  The form fields, the clock readings and the randomness of a
    request are arguments. *)
Module App.

(** What a handler prints: the lines of blockchain.py, and the two
    lines of app.py. *)
Inductive log : Type :=
| Ledger (l : line)
| RegisteredNew (user_id : string)
| TamperedForDemo.

(** What a handler returns: the arguments of [render_template], or the
    target of [redirect]. *)
Inductive response : Type :=
| render_template (template_name : string) (chain : list Block)
    (chain_length : nat) (is_valid : string)
| redirect (location : string).

Record handled : Type := mkHandled {
  printed : list log;
  returned : outcome response;
  ledger : Blockchain
}.

(** [url_for('index')]: the rule of the route of [index]. *)
Definition url_for_index : string := "/".

(** A statement of the ledger run inside a handler, after the handler
    printed [before]: on an exception the ledger is as [otherwise] says. *)
Definition run {A : Type} (before : list log) (m : io A) (otherwise : Blockchain)
    (k : list log -> A -> handled) : handled :=
  match m with
  | (out, Done a) => k (before ++ map Ledger out)%list a
  | (out, Raised e) => mkHandled (before ++ map Ledger out)%list (Raised e) otherwise
  | (out, OutOfFuel) => mkHandled (before ++ map Ledger out)%list OutOfFuel otherwise
  end.

Section Handlers.

Context {P : SignatureProvider}.

(** [create_and_mine()]: [user_id] and [purpose] are what
    [request.form.get] returned, [None] for a missing field; the test
    [if user_id and purpose] passes when both are strings that are not
    empty.  The three clock readings are those of the handler, of
    [generate_pqc_id] and of [Block()], in this order. *)
Definition create_and_mine (fuel : nat) (e_key e_sign : entropy)
    (t_data t_id t_block : pyfloat) (user_id purpose : option string)
    (blockchain : Blockchain) : handled :=
  match user_id, purpose with
  | Some (String _ _ as user_id), Some (String _ _ as purpose) =>
      let user_data :=
        PyDict [ (KStr "id", PyStr user_id);
                 (KStr "purpose", PyStr purpose);
                 (KStr "timestamp", PyFloat t_data) ] in
      match generate_pqc_id e_key e_sign t_id user_data with
      | Raise e => mkHandled [] (Raised e) blockchain
      | Ok (pqc_id, _) =>
          let registered := register_id pqc_id blockchain in
          run [RegisteredNew user_id]
            (mine_pending_ids fuel t_block 3 registered) registered
            (fun out mined => mkHandled out (Done (redirect url_for_index)) mined)
      end
  | _, _ => mkHandled [] (Done (redirect url_for_index)) blockchain
  end.

End Handlers.

(** [tamper_chain()]: the assignment raises before it changes anything,
    or not at all. *)
Definition tamper_chain (blockchain : Blockchain) : handled :=
  if (1 <? List.length (chain blockchain))%nat then
    match tamper_user_data "purpose" (PyStr "HACKED_BY_ATTACKER!") blockchain with
    | Ok tampered =>
        mkHandled [TamperedForDemo] (Done (redirect url_for_index)) tampered
    | Raise e => mkHandled [] (Raised e) blockchain
    end
  else mkHandled [] (Done (redirect url_for_index)) blockchain.

(** [index()]: the chain is handed to the template newest block first. *)
Definition index (blockchain : Blockchain) : handled :=
  run [] (is_chain_valid blockchain) blockchain
    (fun out valid =>
       let is_valid :=
         if valid then "CHAIN VALID"
         else "CHAIN INVALID - TAMPERING DETECTED!" in
       mkHandled out
         (Done (render_template "index.html" (List.rev (chain blockchain))
                  (List.length (chain blockchain)) is_valid))
         blockchain).

End App.

(** * Definitions for the properties *)

(** ** Chains and ledgers *)

(** The text [calculate_hash] hashes, given the encoded records: the keys
    in sorted order are data, index, nonce, previous_hash, timestamp. *)
Definition block_text (b : Block) (records : list string) : string :=
  "{" ++ Json.encode_str "data" ++ ": [" ++ Json.join records ++ "], "
      ++ Json.encode_str "index" ++ ": " ++ str_of_Z (index b) ++ ", "
      ++ Json.encode_str "nonce" ++ ": " ++ str_of_Z (nonce b) ++ ", "
      ++ Json.encode_str "previous_hash" ++ ": " ++ Json.encode_str (previous_hash b) ++ ", "
      ++ Json.encode_str "timestamp" ++ ": " ++ Json.floatstr (timestamp b) ++ "}".

(** What [is_chain_valid] checks of a chain: every block after the first
    stores its recomputed hash and the stored hash of the block before. *)
Definition well_linked (chain : list Block) : Prop :=
  forall i current previous,
    (1 <= i)%nat ->
    nth_error chain i = Some current ->
    nth_error chain (i - 1) = Some previous ->
    calculate_hash current = Ok (hash current) /\
    previous_hash current = hash previous.

(** The states of a ledger that [Blockchain()], [register_id] and
    [mine_pending_ids] produce. *)
Inductive reachable : Blockchain -> Prop :=
| reach_new (now : pyfloat) (self : Blockchain) :
    Blockchain_init now = Ok self -> reachable self
| reach_register (self : Blockchain) (digital_id : pyval) :
    reachable self -> reachable (register_id digital_id self)
| reach_mine (self self' : Blockchain) (fuel : nat) (now : pyfloat)
    (difficulty : Z) (out : list line) :
    reachable self ->
    mine_pending_ids fuel now difficulty self = (out, Done self') ->
    reachable self'.

(** The encoded form of [chain[1].digital_ids[0]]. *)
Definition record_text (self : Blockchain) : res string :=
  b <- list_get (chain self) 1 ;;
  r <- list_get (digital_ids b) 0 ;;
  Json.dumps r.

(** The text [chain[1].calculate_hash()] hashes. *)
Definition block1_string (self : Blockchain) : res string :=
  b <- list_get (chain self) 1 ;;
  block_string b.

(** SHA-256 does not collide on two given texts. *)
Definition sha256_distinguishes (t t' : string) : Prop :=
  t <> t' -> sha256_hexdigest t <> sha256_hexdigest t'.

(** [chain[1].previous_hash = value], for a value that is a string. *)
Definition tamper_previous_hash (value : string) (self : Blockchain)
  : res Blockchain :=
  b <- list_get (chain self) 1 ;;
  chain' <- list_set (chain self) 1
              (mkBlock (index b) (timestamp b) (digital_ids b) value (nonce b) (hash b)) ;;
  Ok (mkBlockchain chain' (pending_ids self)).

(** ** Texts and values of the encoder *)

(** The characters of the texts written without quotes: numbers, [true],
    [false], [null], [NaN], [Infinity]. *)
Definition token_char (c : ascii) : bool :=
  let n := N_of_ascii c in
  (((48 <=? n) && (n <=? 57)) || ((65 <=? n) && (n <=? 90))
   || ((97 <=? n) && (n <=? 122)) || (n =? 43) || (n =? 45) || (n =? 46))%N.

Fixpoint all_chars (p : ascii -> bool) (s : string) : bool :=
  match s with
  | EmptyString => true
  | String c s' => p c && all_chars p s'
  end.

Fixpoint has_char (p : ascii -> bool) (s : string) : bool :=
  match s with
  | EmptyString => false
  | String c s' => p c || has_char p s'
  end.

(** What may follow a value in a text: nothing, or a character that no
    unquoted text holds. *)
Definition delimited (rest : string) : Prop :=
  match rest with
  | EmptyString => True
  | String c _ => token_char c = false
  end.

Definition digit_or_minus (c : ascii) : bool :=
  let n := N_of_ascii c in (((48 <=? n) && (n <=? 57)) || (n =? 45))%N.

Definition float_char (c : ascii) : bool :=
  let n := N_of_ascii c in
  (((48 <=? n) && (n <=? 57)) || (n =? 43) || (n =? 45) || (n =? 46) || (n =? 101))%N.

Definition point_or_e (c : ascii) : bool :=
  let n := N_of_ascii c in ((n =? 46) || (n =? 101))%N.

(** The texts [float.__repr__] gives: [nan], [inf], [-inf], or digits
    with a point or an exponent, which no [int] has. *)
Definition float_ok (f : pyfloat) : bool :=
  let r := float_repr f in
  String.eqb r "nan" || String.eqb r "inf" || String.eqb r "-inf"
  || (all_chars float_char r && has_char point_or_e r).

Definition is_KStr (k : pykey) : bool :=
  match k with
  | KStr _ => true
  | _ => false
  end.

Fixpoint distinct_keys (ks : list pykey) : bool :=
  match ks with
  | [] => true
  | k :: ks' => negb (existsb (pykey_eqb k) ks') && distinct_keys ks'
  end.

(** The values the encoder writes without loss: no [bytes], no tuple
    (written as a list), and dicts keyed by strings. *)
Fixpoint plain (v : pyval) : bool :=
  match v with
  | PyNone | PyBool _ | PyInt _ | PyStr _ => true
  | PyFloat f => float_ok f
  | PyBytes _ | PyTuple _ => false
  | PyList l => forallb plain l
  | PyDict items =>
      forallb is_KStr (map fst items) && distinct_keys (map fst items)
      && forallb (fun kv => plain (snd kv)) items
  end.

(** Equality of two values of the same types, the items of a dict in any
    order. *)
Fixpoint same_value (v w : pyval) : bool :=
  match v, w with
  | PyNone, PyNone => true
  | PyBool a, PyBool b => Bool.eqb a b
  | PyInt n, PyInt m => Z.eqb n m
  | PyFloat f, PyFloat g => String.eqb (float_repr f) (float_repr g)
  | PyStr s, PyStr t => String.eqb s t
  | PyBytes s, PyBytes t => String.eqb s t
  | PyList l, PyList l' | PyTuple l, PyTuple l' =>
      (fix each (l l' : list pyval) : bool :=
         match l, l' with
         | [], [] => true
         | x :: r, y :: r' => same_value x y && each r r'
         | _, _ => false
         end) l l'
  | PyDict items, PyDict items' =>
      Nat.eqb (List.length items) (List.length items')
      && (fix each (l : list (pykey * pyval)) : bool :=
            match l with
            | [] => true
            | (k, x) :: r =>
                match dict_get items' k with
                | Some y => same_value x y
                | None => false
                end && each r
            end) items
  | _, _ => false
  end.

Definition not_int_char (c : ascii) : bool := negb (digit_or_minus c).

(** One escaped character read back from the front of a text. *)
Definition unescape_char (s : string) : option (ascii * string) :=
  match s with
  | EmptyString => None
  | String c r =>
      if (N_of_ascii c =? 34)%N then None
      else if (N_of_ascii c =? 92)%N then
        match r with
        | String e r' =>
            if (N_of_ascii e =? 34)%N then Some (dquote, r')
            else if (N_of_ascii e =? 92)%N then Some (backslash, r')
            else if (N_of_ascii e =? 110)%N then Some ("010"%char, r')
            else if (N_of_ascii e =? 114)%N then Some ("013"%char, r')
            else if (N_of_ascii e =? 116)%N then Some ("009"%char, r')
            else if (N_of_ascii e =? 98)%N then Some ("008"%char, r')
            else if (N_of_ascii e =? 102)%N then Some ("012"%char, r')
            else
              match r' with
              | String _ (String _ (String h (String l r''))) =>
                  match Hex.value h, Hex.value l with
                  | Some x, Some y => Some (ascii_of_N (x * 16 + y), r'')
                  | _, _ => None
                  end
              | _ => None
              end
        | EmptyString => None
        end
      else Some (c, r)
  end.

(** Induction on a value, with the hypothesis for every element of a list
    and every value of a dict. *)
Section PyvalInduction.

Variable Q : pyval -> Prop.
Hypothesis HNone : Q PyNone.
Hypothesis HBool : forall b, Q (PyBool b).
Hypothesis HInt : forall n, Q (PyInt n).
Hypothesis HFloat : forall f, Q (PyFloat f).
Hypothesis HStr : forall s, Q (PyStr s).
Hypothesis HBytes : forall b, Q (PyBytes b).
Hypothesis HList : forall l, Forall Q l -> Q (PyList l).
Hypothesis HTuple : forall l, Forall Q l -> Q (PyTuple l).
Hypothesis HDict : forall items, Forall (fun kv => Q (snd kv)) items -> Q (PyDict items).

Fixpoint pyval_nested_ind (v : pyval) : Q v :=
  match v with
  | PyNone => HNone
  | PyBool b => HBool b
  | PyInt n => HInt n
  | PyFloat f => HFloat f
  | PyStr s => HStr s
  | PyBytes b => HBytes b
  | PyList l =>
      HList l ((fix each (l : list pyval) : Forall Q l :=
                  match l with
                  | [] => Forall_nil Q
                  | x :: r => Forall_cons x (pyval_nested_ind x) (each r)
                  end) l)
  | PyTuple l =>
      HTuple l ((fix each (l : list pyval) : Forall Q l :=
                   match l with
                   | [] => Forall_nil Q
                   | x :: r => Forall_cons x (pyval_nested_ind x) (each r)
                   end) l)
  | PyDict items =>
      HDict items
        ((fix each (l : list (pykey * pyval)) : Forall (fun kv => Q (snd kv)) l :=
            match l with
            | [] => Forall_nil _
            | kv :: r =>
                Forall_cons (P := fun kv => Q (snd kv)) kv
                  (pyval_nested_ind (snd kv)) (each r)
            end) items)
  end.

End PyvalInduction.

(** How the text of a value starts. *)
Inductive kind : Type :=
| KindNull | KindTrue | KindFalse | KindNumber | KindString | KindList
| KindDict | KindOther.

Definition kind_of_char (c : ascii) : kind :=
  let n := N_of_ascii c in
  if (n =? 110)%N then KindNull
  else if (n =? 116)%N then KindTrue
  else if (n =? 102)%N then KindFalse
  else if (n =? 34)%N then KindString
  else if (n =? 91)%N then KindList
  else if (n =? 123)%N then KindDict
  else if float_char c || (n =? 78)%N || (n =? 73)%N then KindNumber
  else KindOther.

Definition kind_of (v : pyval) : kind :=
  match v with
  | PyNone => KindNull
  | PyBool true => KindTrue
  | PyBool false => KindFalse
  | PyInt _ | PyFloat _ => KindNumber
  | PyStr _ => KindString
  | PyList _ | PyTuple _ => KindList
  | PyDict _ => KindDict
  | PyBytes _ => KindOther
  end.

Definition head_kind (s : string) : kind :=
  match s with
  | EmptyString => KindOther
  | String c _ => kind_of_char c
  end.

(** A value whose text, followed by a delimiter, determines it. *)
Definition injective_at (x : pyval) : Prop :=
  forall w s t r r',
    plain x = true -> plain w = true ->
    Json.dumps x = Ok s -> Json.dumps w = Ok t ->
    delimited r -> delimited r' ->
    s ++ r = t ++ r' ->
    same_value x w = true /\ r = r'.

Fixpoint same_list (l l' : list pyval) : bool :=
  match l, l' with
  | [], [] => true
  | x :: r, y :: r' => same_value x y && same_list r r'
  | _, _ => false
  end.

(** What follows the first of the texts that [join] separates. *)
Definition after (parts : list string) (rest : string) : string :=
  match parts with
  | [] => rest
  | _ :: _ => ", " ++ Json.join parts ++ rest
  end.

(** An item of a dict with the text of its value. *)
Definition entry : Type := (pykey * (pyval * string))%type.

Definition entry_item (e : entry) : pykey * pyval := (fst e, fst (snd e)).
Definition entry_part (e : entry) : pykey * string := (fst e, snd (snd e)).

Fixpoint dumps_entries (l : list (pykey * pyval)) : res (list entry) :=
  match l with
  | [] => Ok []
  | (k, x) :: l' =>
      s <- Json.dumps x ;; r <- dumps_entries l' ;; Ok ((k, (x, s)) :: r)
  end.

Fixpoint same_items (items' : list (pykey * pyval)) (l : list (pykey * pyval))
  : bool :=
  match l with
  | [] => true
  | (k, x) :: r =>
      match dict_get items' k with
      | Some y => same_value x y
      | None => false
      end && same_items items' r
  end.

Definition entry_ok (e : entry) : Prop :=
  is_KStr (fst e) = true /\ plain (fst (snd e)) = true /\
  Json.dumps (fst (snd e)) = Ok (snd (snd e)).

(** A block whose hashed fields the encoder writes without loss. *)
Definition plain_block (b : Block) : bool :=
  float_ok (timestamp b) && forallb plain (digital_ids b).

(** ** A run of the program

    The scenario of the integration test with one identity: a ledger is
    created, a record for [{"id": "A", "purpose": "test"}] is generated,
    registered and mined at the default difficulty.  The signature scheme
    of the run is a stand-in with the interface of the real one. *)

Module Demo.

(** A stand-in signature scheme: the two keys of a pair are the same
    string, and a signature is the key followed by the message. *)
#[global] Instance provider : SignatureProvider := {|
  entropy := string;
  generate_keypair := fun e => (e, e);
  sign := fun _ secret_key message => Ok (secret_key ++ message);
  verify := fun public_key message signature =>
              Ok (String.eqb signature (public_key ++ message))
|}.

Definition user_data : pyval :=
  PyDict [ (KStr "id", PyStr "A"); (KStr "purpose", PyStr "test") ].

Definition created : res (pyval * string) :=
  Eval vm_compute in generate_pqc_id "k1" "" (mkFloat "1700000001.0") user_data.

Definition record : pyval :=
  Eval vm_compute in
    match created with
    | Ok (digital_id, _) => digital_id
    | Raise _ => PyNone
    end.

Definition t0 : pyfloat := mkFloat "1700000000.5".
Definition t1 : pyfloat := mkFloat "1700000152.0".

Definition ledger0 : Blockchain :=
  Eval vm_compute in
    match Blockchain_init t0 with
    | Ok self => self
    | Raise _ => mkBlockchain [] []
    end.

Definition ledger1 : Blockchain := Eval vm_compute in register_id record ledger0.

Definition block1 : Block :=
  Eval vm_compute in
    match Block_init t1 1 [record]
            "6a0826aeec70c9daa5310d724365ee96c0087e94ccee40281792d091723b92e6" with
    | Ok b => b
    | Raise _ => mkBlock 0 t1 [] "" 0 ""
    end.

Definition mined1 : Block :=
  Eval vm_compute in
    match mine_loop 4 "000" block1 with
    | Done b => b
    | _ => block1
    end.

Definition ledger2 : Blockchain :=
  mkBlockchain (chain ledger0 ++ [mined1])%list [].

End Demo.

(** The record of the run under another scheme name, and a record that
    shares only its key, signature and user data. *)
Definition demo_relabelled : pyval :=
  Eval vm_compute in
    match setitem Demo.record "pqc_scheme" (PyStr "RSA-2048") with
    | Ok r => r
    | Raise _ => PyNone
    end.

Definition demo_stripped : pyval :=
  PyDict [ (KStr "note", PyInt 7);
           (KStr "signature",
            PyStr "6b3163f93c8088f0b9df648d2342d77318eaea0d5b5b31268c1d48223e4788a48b0b");
           (KStr "user_data", Demo.user_data);
           (KStr "public_key", PyStr "6b31");
           (KStr "timestamp", PyFloat (mkFloat "3.5")) ].

(** The mined ledger after [chain[1].digital_ids[0]['user_data']
    ['purpose'] = 'X'], and after the same assignment of [b'X']. *)
Definition demo_tampered : Blockchain :=
  Eval vm_compute in
    match tamper_user_data "purpose" (PyStr "X") Demo.ledger2 with
    | Ok self => self
    | Raise _ => Demo.ledger2
    end.

Definition demo_bytes : Blockchain :=
  Eval vm_compute in
    match tamper_user_data "purpose" (PyBytes "X") Demo.ledger2 with
    | Ok self => self
    | Raise _ => Demo.ledger2
    end.



(** The mined block with the items of its record in reverse order. *)
Definition demo_reordered : Block :=
  Eval vm_compute in
    set_digital_ids Demo.mined1
      (map (fun r => match r with
                     | PyDict items => PyDict (List.rev items)
                     | _ => r
                     end) (digital_ids Demo.mined1)).

(** The record of the run registered twice, mined at difficulty 1, and
    the ledger after [chain[1].digital_ids[0]['user_data']['purpose'] =
    'X']: both entries of the block are the one mutated object. *)
Definition demo_shared : Blockchain :=
  Eval vm_compute in
    match mine_pending_ids 64 Demo.t1 1
            (register_id Demo.record (register_id Demo.record Demo.ledger0)) with
    | (_, Done self) => self
    | _ => Demo.ledger0
    end.

Definition demo_shared_tampered : Blockchain :=
  Eval vm_compute in
    match chain demo_shared, chain demo_tampered with
    | [g; b], [_; b'] =>
        mkBlockchain [g; set_digital_ids b (digital_ids b' ++ digital_ids b')%list] []
    | _, _ => demo_shared
    end.

(** The mined ledger after [chain[1].previous_hash = "0"]. *)
Definition demo_relinked : Blockchain :=
  Eval vm_compute in
    match tamper_previous_hash "0" Demo.ledger2 with
    | Ok self => self
    | Raise _ => Demo.ledger2
    end.

(** ** Further definitions for the properties *)

(** The limit of CPython (3.11 and later, as shipped) on the decimal
    digits of an int that is turned into text, which the encoder of
    this development does not have: [json.dumps] raises [ValueError]
    beyond it. *)
Definition int_max_str_digits : Z := 4300.

Definition within_int_limit (n : Z) : bool :=
  Z.abs n <? 10 ^ int_max_str_digits.

(** A value none of whose ints, keys included, is beyond the limit. *)
Fixpoint ints_within_limit (v : pyval) : bool :=
  match v with
  | PyInt n => within_int_limit n
  | PyList l | PyTuple l => forallb ints_within_limit l
  | PyDict items =>
      forallb (fun kv =>
                 match fst kv with
                 | KInt n => within_int_limit n
                 | _ => true
                 end && ints_within_limit (snd kv)) items
  | _ => true
  end.
(** The digits [bytes.hex] writes. *)
Definition hex_lower (c : ascii) : bool :=
  let n := N_of_ascii c in
  (((48 <=? n) && (n <=? 57)) || ((97 <=? n) && (n <=? 102)))%N.

(** [for r in rs: self.register_id(r)] *)
Definition register_all (rs : list pyval) (self : Blockchain) : Blockchain :=
  fold_left (fun s r => register_id r s) rs self.

(** The genesis block of the run, and a block with other contents
    under its stored hash. *)
Definition demo_genesis : Block :=
  Eval vm_compute in
    match chain Demo.ledger0 with
    | g :: _ => g
    | [] => Demo.block1
    end.

Definition demo_genesis_rewritten : Block :=
  mkBlock 7 Demo.t1 [PyStr "rewritten"] "1" 9 (hash demo_genesis).

(** The mined block after the tampering, and its hash then. *)
Definition demo_block1_tampered : Block :=
  Eval vm_compute in
    match chain demo_tampered with
    | [_; b] => b
    | _ => Demo.mined1
    end.

Definition demo_block1_rehash : string :=
  Eval vm_compute in
    match calculate_hash demo_block1_tampered with
    | Ok h => h
    | Raise _ => ""
    end.

(** The record of the run after [record['user_data'] = {...}] with
    another purpose. *)
Definition demo_new_data : pyval :=
  PyDict [ (KStr "id", PyStr "A"); (KStr "purpose", PyStr "ADMIN_OVERRIDE") ].

Definition demo_tampered_id : pyval :=
  Eval vm_compute in
    match setitem Demo.record "user_data" demo_new_data with
    | Ok r => r
    | Raise _ => PyNone
    end.

(** The new ledger with a [bytes] object registered. *)
Definition demo_poisoned : Blockchain :=
  Eval vm_compute in register_id (PyBytes "X") Demo.ledger0.

(** The record of the run with its items in reverse order. *)
Definition demo_record_reordered : pyval :=
  Eval vm_compute in
    match digital_ids demo_reordered with
    | r :: _ => r
    | [] => PyNone
    end.

(** The items of a dict in the order [sorted] leaves them in: every key
    is below the keys after it. *)
Definition key_before {A : Type} (x y : pykey * A) : Prop :=
  Json.key_lt (fst x) (fst y) = Ok true.

Fixpoint ascending {A : Type} (l : list (pykey * A)) : Prop :=
  match l with
  | [] => True
  | x :: r => Forall (key_before x) r /\ ascending r
  end.

(** A request to the application. *)
Inductive request {P : SignatureProvider} : Type :=
| GetIndex
| PostCreateAndMine (fuel : nat) (e_key e_sign : entropy)
    (t_data t_id t_block : pyfloat) (user_id purpose : option string)
| GetTamperChain.

(** The routes of app.py. *)
Definition handle {P : SignatureProvider} (r : request) (blockchain : Blockchain)
  : App.handled :=
  match r with
  | GetIndex => App.index blockchain
  | PostCreateAndMine fuel e_key e_sign t_data t_id t_block user_id purpose =>
      App.create_and_mine fuel e_key e_sign t_data t_id t_block user_id purpose
        blockchain
  | GetTamperChain => App.tamper_chain blockchain
  end.

(** The ledgers the application can hold: the one made when the module
    is loaded, and those that requests handled one after the other leave,
    whether the handler returned or raised. *)
Inductive app_reachable {P : SignatureProvider} : Blockchain -> Prop :=
| app_start (now : pyfloat) (self : Blockchain) :
    Blockchain_init now = Ok self -> app_reachable self
| app_request (r : request) (self : Blockchain) :
    app_reachable self ->
    App.returned (handle r self) <> OutOfFuel ->
    app_reachable (App.ledger (handle r self)).

(** The record [create_and_mine] registers. *)
Definition app_record (user_id purpose : string) (t_data : pyfloat)
    (public_key_hex signature_hex : string) (t_id : pyfloat) : pyval :=
  PyDict [ (KStr "id_type", PyStr "E-GOV_PQC_ID");
           (KStr "pqc_scheme", PyStr ML_DSA);
           (KStr "user_data",
            PyDict [ (KStr "id", PyStr user_id);
                     (KStr "purpose", PyStr purpose);
                     (KStr "timestamp", PyFloat t_data) ]);
           (KStr "public_key", PyStr public_key_hex);
           (KStr "signature", PyStr signature_hex);
           (KStr "timestamp", PyFloat t_id) ].

(** A block that holds one such record. *)
Definition app_block (b : Block) : Prop :=
  exists user_id purpose t_data public_key_hex signature_hex t_id,
    digital_ids b =
    [app_record user_id purpose t_data public_key_hex signature_hex t_id].

(** The shape of the ledger of the application. *)
Definition app_ledger (self : Blockchain) : Prop :=
  pending_ids self = [] /\
  exists g rest, chain self = g :: rest /\
    digital_ids g = genesis_ids /\ Forall app_block rest.

(** The text of such a record, before and after the text of its
    purpose. *)
Definition app_text_before (user_id public_key_hex signature_hex : string)
    (t_id : pyfloat) : string :=
  "{" ++ Json.encode_str "id_type" ++ ": " ++ Json.encode_str "E-GOV_PQC_ID" ++ ", "
      ++ Json.encode_str "pqc_scheme" ++ ": " ++ Json.encode_str ML_DSA ++ ", "
      ++ Json.encode_str "public_key" ++ ": " ++ Json.encode_str public_key_hex ++ ", "
      ++ Json.encode_str "signature" ++ ": " ++ Json.encode_str signature_hex ++ ", "
      ++ Json.encode_str "timestamp" ++ ": " ++ Json.floatstr t_id ++ ", "
      ++ Json.encode_str "user_data" ++ ": {"
      ++ Json.encode_str "id" ++ ": " ++ Json.encode_str user_id ++ ", "
      ++ Json.encode_str "purpose" ++ ": ".

Definition app_text_after (t_data : pyfloat) : string :=
  ", " ++ Json.encode_str "timestamp" ++ ": " ++ Json.floatstr t_data ++ "}}".

(** A run of the application under the stand-in scheme: one form sent,
    and the demonstration route taken afterwards. *)
Definition demo_form : request (P := Demo.provider) :=
  PostCreateAndMine 2 "k1" "" (mkFloat "1700000010.25") (mkFloat "1700000010.5")
    (mkFloat "1700000732.0") (Some "A") (Some "test").

Definition demo_app_created : App.handled :=
  Eval vm_compute in handle demo_form Demo.ledger0.

Definition demo_app_ledger : Blockchain :=
  Eval vm_compute in App.ledger demo_app_created.

Definition demo_app_block : Block :=
  Eval vm_compute in
    match chain demo_app_ledger with
    | [_; b] => b
    | _ => Demo.block1
    end.

Definition demo_app_tampered : Blockchain :=
  Eval vm_compute in App.ledger (App.tamper_chain demo_app_ledger).

(** * Properties *)

(** ** Test vectors of SHA-256 *)

Example sha256_empty :
  sha256_hexdigest "" =
  "e3b0c44298fc1c149afbf4c8996fb92427ae41e4649b934ca495991b7852b855".
Proof. vm_compute. reflexivity. Qed.

Example sha256_abc :
  sha256_hexdigest "abc" =
  "ba7816bf8f01cfea414140de5dae2223b00361a396177a9cb410ff61f20015ad".
Proof. vm_compute. reflexivity. Qed.

Example sha256_two_blocks :
  sha256_hexdigest (repeat_char "a" 100) =
  "2816597888e4a0d3a36b82b83316ab32680eb8f00f8cd3b904d681246d285a0e".
Proof. vm_compute. reflexivity. Qed.

(** ** The two monads *)

Lemma bind_Ok {A B : Type} (m : res A) (f : A -> res B) (b : B) :
  bind m f = Ok b -> exists a, m = Ok a /\ f a = Ok b.
Proof.
  destruct m as [a | e]; simpl; intros H; [ exists a; auto | discriminate ].
Qed.

Lemma io_bind_Done {A B : Type} (m : io A) (f : A -> io B) out (b : B) :
  io_bind m f = (out, Done b) ->
  exists out1 a out2,
    m = (out1, Done a) /\ f a = (out2, Done b) /\ out = (out1 ++ out2)%list.
Proof.
  destruct m as [out1 [a | e | ]]; simpl; try discriminate.
  destruct (f a) as [out2 r] eqn:E. intros H. inversion H; subst.
  exists out1, a, out2. auto.
Qed.

Lemma lift_Done {A : Type} (r : res A) out (a : A) :
  lift r = (out, Done a) -> r = Ok a /\ out = [].
Proof.
  unfold lift. destruct r; simpl; intros H; inversion H; auto.
Qed.

Ltac inv_bind H :=
  let a := fresh "x" in
  let H1 := fresh "E" in
  apply bind_Ok in H; destruct H as (a & H1 & H).

(** ** Proof of work *)

Lemma mine_step_frame (b b' : Block) :
  mine_step b = Ok b' ->
  index b' = index b /\ timestamp b' = timestamp b /\
  digital_ids b' = digital_ids b /\ previous_hash b' = previous_hash b /\
  nonce b' = nonce b + 1.
Proof.
  unfold mine_step. intros H. inv_bind H. inversion H; subst. simpl. auto.
Qed.

(** The loop body leaves the stored hash equal to the recomputed one. *)
Lemma mine_step_hash (b b' : Block) :
  mine_step b = Ok b' -> calculate_hash b' = Ok (hash b').
Proof.
  unfold mine_step. intros H. inv_bind H. inversion H; subst.
  simpl. exact E.
Qed.

Lemma mine_loop_frame (fuel : nat) (p : string) :
  forall b b', mine_loop fuel p b = Done b' ->
  index b' = index b /\ timestamp b' = timestamp b /\
  digital_ids b' = digital_ids b /\ previous_hash b' = previous_hash b.
Proof.
  induction fuel as [| fuel IH]; intros b b'; simpl.
  - destruct (startswith (hash b) p); intros H; inversion H; auto.
  - destruct (startswith (hash b) p).
    + intros H; inversion H; auto.
    + destruct (mine_step b) as [b1 | e] eqn:E; [ | discriminate ].
      intros H. apply IH in H. apply mine_step_frame in E.
      destruct H as (H1 & H2 & H3 & H4), E as (E1 & E2 & E3 & E4 & _).
      repeat split; congruence.
Qed.

Lemma mine_loop_prefix (fuel : nat) (p : string) :
  forall b b', mine_loop fuel p b = Done b' -> startswith (hash b') p = true.
Proof.
  induction fuel as [| fuel IH]; intros b b'; simpl.
  - destruct (startswith (hash b) p) eqn:E; intros H; inversion H; subst; auto.
  - destruct (startswith (hash b) p) eqn:E.
    + intros H; inversion H; subst; auto.
    + destruct (mine_step b) as [b1 | e]; [ apply IH | discriminate ].
Qed.

(** The loop returns the block untouched, or a block whose stored hash is
    the recomputed one. *)
Lemma mine_loop_hash (fuel : nat) (p : string) :
  forall b b', mine_loop fuel p b = Done b' ->
  b' = b \/ calculate_hash b' = Ok (hash b').
Proof.
  induction fuel as [| fuel IH]; intros b b'; simpl.
  - destruct (startswith (hash b) p); intros H; inversion H; auto.
  - destruct (startswith (hash b) p).
    + intros H; inversion H; auto.
    + destruct (mine_step b) as [b1 | e] eqn:E; [ | discriminate ].
      intros H. right. destruct (IH _ _ H) as [-> | H']; auto.
      eapply mine_step_hash; eauto.
Qed.

Lemma mine_loop_nonce (fuel : nat) (p : string) :
  forall b b', mine_loop fuel p b = Done b' -> nonce b <= nonce b'.
Proof.
  induction fuel as [| fuel IH]; intros b b'; simpl.
  - destruct (startswith (hash b) p); intros H; inversion H; lia.
  - destruct (startswith (hash b) p).
    + intros H; inversion H; lia.
    + destruct (mine_step b) as [b1 | e] eqn:E; [ | discriminate ].
      intros H. apply IH in H. apply mine_step_frame in E. lia.
Qed.

Lemma mine_block_Done (fuel : nat) (difficulty : Z) (b b' : Block) out :
  mine_block fuel difficulty b = (out, Done b') ->
  mine_loop fuel (str_mul "0" difficulty) b = Done b' /\
  out = [BlockMined (hash b')].
Proof.
  unfold mine_block. intros H.
  destruct (mine_loop fuel (str_mul "0" difficulty) b) as [b1 | e | ];
    simpl in H; inversion H; subst; auto.
Qed.

(** More fuel does not change a finished search. *)
Lemma mine_loop_more_fuel (fuel : nat) (p : string) :
  forall b b' extra, mine_loop fuel p b = Done b' ->
  mine_loop (fuel + extra) p b = Done b'.
Proof.
  induction fuel as [| fuel IH]; intros b b' extra; simpl.
  - destruct (startswith (hash b) p) eqn:E; [ | discriminate ].
    intros H. destruct extra; simpl; rewrite E; exact H.
  - destruct (startswith (hash b) p); auto.
    destruct (mine_step b) as [b1 | e]; [ apply IH | discriminate ].
Qed.

Lemma prefix_split (p s : string) :
  String.prefix p s = true -> exists rest, s = p ++ rest.
Proof.
  revert s. induction p as [| c p IH]; intros s H.
  - exists s. reflexivity.
  - destruct s as [| d s]; simpl in H; [ discriminate | ].
    destruct (ascii_dec c d) as [-> | ]; [ | discriminate ].
    destruct (IH _ H) as [rest ->]. exists rest. reflexivity.
Qed.

(** ** The encoder on lists and on a block *)

Module JsonFacts.
Import Json.

Lemma dumps_PyList (l : list pyval) :
  dumps (PyList l) = (parts <- dumps_list l ;; Ok ("[" ++ join parts ++ "]")).
Proof.
  assert (E : forall l, (fix each (l : list pyval) : res (list string) :=
                    match l with
                    | [] => Ok []
                    | x :: l' => s <- dumps x ;; r <- each l' ;; Ok (s :: r)
                    end) l = dumps_list l).
  { intros l0. induction l0 as [| x l0 IH]; simpl; [ reflexivity | ].
    rewrite IH. reflexivity. }
  simpl. rewrite E. reflexivity.
Qed.

Lemma dumps_PyTuple (l : list pyval) :
  dumps (PyTuple l) = (parts <- dumps_list l ;; Ok ("[" ++ join parts ++ "]")).
Proof.
  rewrite <- dumps_PyList. reflexivity.
Qed.

Lemma dumps_PyDict (items : list (pykey * pyval)) :
  dumps (PyDict items) =
  (parts <- dumps_items items ;;
   sorted <- sort_items parts ;;
   Ok ("{" ++ join (map member sorted) ++ "}")).
Proof.
  assert (E : forall l, (fix each (l : list (pykey * pyval)) : res (list (pykey * string)) :=
                    match l with
                    | [] => Ok []
                    | (k, x) :: l' => s <- dumps x ;; r <- each l' ;; Ok ((k, s) :: r)
                    end) l = dumps_items l).
  { intros l0. induction l0 as [| [k x] l0 IH]; simpl; [ reflexivity | ].
    rewrite IH. reflexivity. }
  simpl. rewrite E. reflexivity.
Qed.

End JsonFacts.

Lemma append_assoc (a b c : string) : (a ++ b) ++ c = a ++ (b ++ c).
Proof.
  induction a as [| x a IH]; simpl; [ reflexivity | rewrite IH; reflexivity ].
Qed.

Lemma append_nil_r (a : string) : a ++ "" = a.
Proof.
  induction a as [| x a IH]; simpl; [ reflexivity | rewrite IH; reflexivity ].
Qed.

Lemma append_length (a b : string) :
  String.length (a ++ b) = (String.length a + String.length b)%nat.
Proof.
  induction a as [| x a IH]; simpl; [ reflexivity | rewrite IH; reflexivity ].
Qed.

Lemma append_inv_head (a b c : string) : a ++ b = a ++ c -> b = c.
Proof.
  induction a as [| x a IH]; simpl; intros H; [ exact H | ].
  inversion H. auto.
Qed.

Lemma append_inv_tail (a b c : string) : a ++ c = b ++ c -> a = b.
Proof.
  revert b. induction a as [| x a IH]; intros [| y b] H; simpl in H.
  - reflexivity.
  - exfalso. apply (f_equal String.length) in H. simpl in H.
    rewrite append_length in H. lia.
  - exfalso. apply (f_equal String.length) in H. simpl in H.
    rewrite append_length in H. lia.
  - inversion H; subst. f_equal. auto.
Qed.

Lemma block_string_text (b : Block) :
  block_string b =
  (records <- Json.dumps_list (digital_ids b) ;; Ok (block_text b records)).
Proof.
  unfold block_string, block_dict.
  rewrite JsonFacts.dumps_PyDict.
  cbn [Json.dumps_items bind]. rewrite JsonFacts.dumps_PyList.
  destruct (Json.dumps_list (digital_ids b)) as [records | e]; simpl;
    [ | reflexivity ].
  unfold block_text, Json.member.
  repeat (progress (simpl; rewrite ?append_assoc)). reflexivity.
Qed.

Lemma calculate_hash_set_hash (b : Block) (h : string) :
  calculate_hash (set_hash b h) = calculate_hash b.
Proof. reflexivity. Qed.

(** Whether a block can be hashed depends on its records alone. *)
Lemma calculate_hash_defined (b : Block) :
  (exists h, calculate_hash b = Ok h) <->
  (exists records, Json.dumps_list (digital_ids b) = Ok records).
Proof.
  unfold calculate_hash. rewrite block_string_text.
  destruct (Json.dumps_list (digital_ids b)) as [records | e]; simpl.
  - split; eauto.
  - split; intros [x H]; discriminate.
Qed.

Lemma calculate_hash_set_nonce (b : Block) (n : Z) :
  (exists h, calculate_hash b = Ok h) ->
  exists h, calculate_hash (set_nonce b n) = Ok h.
Proof.
  intros H. apply calculate_hash_defined. apply calculate_hash_defined in H.
  exact H.
Qed.

(** ** The ledger *)

Lemma list_get_Ok {A : Type} (l : list A) (i : nat) (a : A) :
  list_get l i = Ok a <-> nth_error l i = Some a.
Proof.
  unfold list_get. destruct (nth_error l i); split; intros H;
    inversion H; reflexivity.
Qed.

Lemma check_blocks_complete (chain : list Block) (indices : list nat) :
  well_linked chain ->
  (forall i, In i indices -> (1 <= i < List.length chain)%nat) ->
  check_blocks chain indices = ([], Done true).
Proof.
  intros WL. induction indices as [| i rest IH]; intros Hin; [ reflexivity | ].
  assert (Hi : (1 <= i < List.length chain)%nat) by (apply Hin; left; auto).
  destruct (nth_error chain i) as [cur |] eqn:Ec;
    [ | apply nth_error_None in Ec; lia ].
  destruct (nth_error chain (i - 1)) as [prev |] eqn:Ep;
    [ | apply nth_error_None in Ep; lia ].
  destruct (WL i cur prev) as [Hh Hl]; try tauto; try lia.
  simpl. unfold list_get. rewrite Ec, Ep. simpl. rewrite Hh. simpl.
  rewrite String.eqb_refl. simpl. rewrite Hl, String.eqb_refl. simpl.
  rewrite IH; [ reflexivity | ]. intros j Hj. apply Hin. right. exact Hj.
Qed.

Lemma check_blocks_sound (chain : list Block) (indices : list nat) out :
  check_blocks chain indices = (out, Done true) ->
  out = [] /\
  forall i current previous,
    In i indices ->
    nth_error chain i = Some current ->
    nth_error chain (i - 1) = Some previous ->
    calculate_hash current = Ok (hash current) /\
    previous_hash current = hash previous.
Proof.
  revert out. induction indices as [| i rest IH]; intros out H.
  - inversion H. split; [ reflexivity | intros ? ? ? [] ].
  - simpl in H. unfold list_get in H.
    destruct (nth_error chain i) as [cur |] eqn:Ec; simpl in H; [ | discriminate ].
    destruct (nth_error chain (i - 1)) as [prev |] eqn:Ep; simpl in H; [ | discriminate ].
    destruct (calculate_hash cur) as [h | e] eqn:Eh; simpl in H; [ | discriminate ].
    destruct (String.eqb (hash cur) h) eqn:E1; simpl in H; [ | discriminate ].
    destruct (String.eqb (previous_hash cur) (hash prev)) eqn:E2; simpl in H;
      [ | discriminate ].
    destruct (check_blocks chain rest) as [out' r] eqn:Er.
    inversion H; subst. destruct (IH _ eq_refl) as [-> IH'].
    split; [ reflexivity | ].
    intros j c p [<- | Hj] Hc Hp.
    + rewrite Ec in Hc. rewrite Ep in Hp. inversion Hc; inversion Hp; subst.
      apply String.eqb_eq in E1, E2. split; congruence.
    + eapply IH'; eauto.
Qed.

(** [is_chain_valid] answers [True] exactly on the well-linked chains. *)
Lemma is_chain_valid_true (self : Blockchain) :
  (exists out, is_chain_valid self = (out, Done true)) <->
  well_linked (chain self).
Proof.
  unfold is_chain_valid. split.
  - intros [out H]. apply check_blocks_sound in H. destruct H as [_ H].
    intros i cur prev Hi Hc Hp. apply (H i cur prev); auto.
    apply in_seq. assert (i < List.length (chain self))%nat.
    { apply nth_error_Some. congruence. }
    lia.
  - intros WL. exists []. apply check_blocks_complete; auto.
    intros i Hi. apply in_seq in Hi. lia.
Qed.

Lemma Block_init_Ok (now : pyfloat) (i : Z) (ids : list pyval) (prev : string)
    (b : Block) :
  Block_init now i ids prev = Ok b ->
  index b = i /\ timestamp b = now /\ digital_ids b = ids /\
  previous_hash b = prev /\ nonce b = 0 /\ calculate_hash b = Ok (hash b).
Proof.
  unfold Block_init. intros H. inv_bind H. inversion H; subst.
  simpl. repeat split; auto.
Qed.

(** The genesis block can always be built. *)
Lemma Blockchain_init_total (now : pyfloat) :
  exists genesis, Blockchain_init now = Ok (mkBlockchain [genesis] []) /\
    index genesis = 0 /\ digital_ids genesis = genesis_ids /\
    previous_hash genesis = "0" /\ nonce genesis = 0.
Proof.
  unfold Blockchain_init, create_genesis_block, Block_init.
  unfold calculate_hash. rewrite block_string_text. simpl.
  eexists. split; [ reflexivity | simpl; auto ].
Qed.

Lemma mine_pending_ids_Done (fuel : nat) (now : pyfloat) (difficulty : Z)
    (self self' : Blockchain) out :
  mine_pending_ids fuel now difficulty self = (out, Done self') ->
  (pending_ids self = [] /\ self' = self /\ out = [NoNewIds]) \/
  (pending_ids self <> [] /\
   exists last b,
     last_block self = Ok last /\
     self' = mkBlockchain (chain self ++ [b])%list [] /\
     index b = index last + 1 /\
     timestamp b = now /\
     digital_ids b = pending_ids self /\
     previous_hash b = hash last /\
     startswith (hash b) (str_mul "0" difficulty) = true /\
     calculate_hash b = Ok (hash b) /\
     out = [MiningBlock (index last + 1) (List.length (pending_ids self));
            BlockMined (hash b)]).
Proof.
  unfold mine_pending_ids. destruct (pending_ids self) as [| r rest] eqn:Ep.
  - simpl. intros H. inversion H. left. auto.
  - intros H. right. split; [ discriminate | ].
    apply io_bind_Done in H. destruct H as (o1 & last & o2 & H1 & H & ->).
    apply lift_Done in H1. destruct H1 as [Hlast ->].
    simpl in H.
    destruct (Block_init now (index last + 1) (r :: rest) (hash last))
      as [nb | e] eqn:Enb; simpl in H; [ | discriminate ].
    destruct (mine_block fuel difficulty nb) as [o3 [mined | e | ]] eqn:Em;
      simpl in H; try discriminate.
    inversion H; subst. clear H.
    apply mine_block_Done in Em. destruct Em as [Em ->].
    apply Block_init_Ok in Enb.
    destruct Enb as (B1 & B2 & B3 & B4 & B5 & B6).
    pose proof (mine_loop_frame _ _ _ _ Em) as (F1 & F2 & F3 & F4).
    pose proof (mine_loop_prefix _ _ _ _ Em) as Hp.
    exists last, mined. repeat split; try congruence.
    destruct (mine_loop_hash _ _ _ _ Em) as [-> | Hh]; assumption.
Qed.

Lemma last_block_nth (self : Blockchain) (last : Block) :
  last_block self = Ok last ->
  nth_error (chain self) (List.length (chain self) - 1) = Some last /\
  (1 <= List.length (chain self))%nat.
Proof.
  unfold last_block. destruct (List.length (chain self)) as [| n] eqn:E;
    [ discriminate | ].
  intros H. apply list_get_Ok in H. split; [ | lia ].
  replace (S n - 1)%nat with n by lia. exact H.
Qed.

Lemma well_linked_app (chain : list Block) (last b : Block) :
  well_linked chain ->
  nth_error chain (List.length chain - 1) = Some last ->
  (1 <= List.length chain)%nat ->
  calculate_hash b = Ok (hash b) ->
  previous_hash b = hash last ->
  well_linked (chain ++ [b]).
Proof.
  intros WL Hlast Hlen Hh Hl i cur prev Hi Hc Hp.
  destruct (Nat.lt_ge_cases i (List.length chain)) as [Hlt | Hge].
  - rewrite nth_error_app1 in Hc, Hp by lia. eapply WL; eauto.
  - assert (i = List.length chain).
    { assert (i < List.length (chain ++ [b]))%nat
        by (apply nth_error_Some; congruence).
      rewrite length_app in H. simpl in H. lia. }
    subst i. rewrite nth_error_app2 in Hc by lia.
    rewrite Nat.sub_diag in Hc. simpl in Hc. inversion Hc; subst cur.
    rewrite nth_error_app1 in Hp by lia. rewrite Hlast in Hp.
    inversion Hp; subst. auto.
Qed.

Lemma reachable_well_linked (self : Blockchain) :
  reachable self -> well_linked (chain self).
Proof.
  induction 1 as [now self Hnew | self r Hr IH | self self' fuel now d out Hr IH Hm].
  - destruct (Blockchain_init_total now) as (g & Hg & _).
    rewrite Hg in Hnew. inversion Hnew; subst. simpl.
    intros i cur prev Hi Hc. destruct i as [| [| i]]; simpl in Hc;
      [ lia | discriminate | discriminate ].
  - exact IH.
  - apply mine_pending_ids_Done in Hm.
    destruct Hm as [(_ & -> & _) | (_ & last & b & Hl & -> & _ & _ & _ & Hp & _ & Hh & _)];
      [ exact IH | ].
    simpl. apply last_block_nth in Hl. destruct Hl as [Hl Hlen].
    eapply well_linked_app; eauto.
Qed.

(** ** The run of the program *)

Example demo_record_text :
  Json.dumps Demo.record =
  Ok (Json.escape "{" "" ++ str1 dquote ++ "id_type" ++ str1 dquote ++ ": "
      ++ str1 dquote ++ "E-GOV_PQC_ID" ++ str1 dquote ++ ", "
      ++ str1 dquote ++ "pqc_scheme" ++ str1 dquote ++ ": "
      ++ str1 dquote ++ "ML-DSA-44" ++ str1 dquote ++ ", "
      ++ str1 dquote ++ "public_key" ++ str1 dquote ++ ": "
      ++ str1 dquote ++ "6b31" ++ str1 dquote ++ ", "
      ++ str1 dquote ++ "signature" ++ str1 dquote ++ ": "
      ++ str1 dquote
      ++ "6b3163f93c8088f0b9df648d2342d77318eaea0d5b5b31268c1d48223e4788a48b0b"
      ++ str1 dquote ++ ", "
      ++ str1 dquote ++ "timestamp" ++ str1 dquote ++ ": 1700000001.0, "
      ++ str1 dquote ++ "user_data" ++ str1 dquote ++ ": {"
      ++ str1 dquote ++ "id" ++ str1 dquote ++ ": "
      ++ str1 dquote ++ "A" ++ str1 dquote ++ ", "
      ++ str1 dquote ++ "purpose" ++ str1 dquote ++ ": "
      ++ str1 dquote ++ "test" ++ str1 dquote ++ "}}").
Proof. vm_compute. reflexivity. Qed.

Example demo_new : Blockchain_init Demo.t0 = Ok Demo.ledger0.
Proof. vm_compute. reflexivity. Qed.

Example demo_genesis_hash :
  map hash (chain Demo.ledger0) =
  ["6a0826aeec70c9daa5310d724365ee96c0087e94ccee40281792d091723b92e6"].
Proof. reflexivity. Qed.

Example demo_block1 :
  Block_init Demo.t1 1 [Demo.record]
    "6a0826aeec70c9daa5310d724365ee96c0087e94ccee40281792d091723b92e6"
  = Ok Demo.block1.
Proof. vm_compute. reflexivity. Qed.

Example demo_mine_loop : mine_loop 4 "000" Demo.block1 = Done Demo.mined1.
Proof. vm_compute. reflexivity. Qed.

Example demo_mined1 :
  nonce Demo.mined1 = 4 /\
  hash Demo.mined1 =
  "000f011edea4e12d1b580c6f2cd93b5cc7ad2aeabbbecead80daac8f43a8db4c".
Proof. split; reflexivity. Qed.

Example demo_mine_pending :
  mine_pending_ids 4 Demo.t1 default_difficulty Demo.ledger1 =
  ([MiningBlock 1 1; BlockMined (hash Demo.mined1)], Done Demo.ledger2).
Proof. vm_compute. reflexivity. Qed.

Example demo_out_of_fuel :
  mine_pending_ids 3 Demo.t1 default_difficulty Demo.ledger1 =
  ([MiningBlock 1 1], OutOfFuel).
Proof. vm_compute. reflexivity. Qed.

(** ** Mining *)

Lemma set_nonce_same (b : Block) : set_nonce b (nonce b) = b.
Proof. destruct b. reflexivity. Qed.


(** C9. Mining a block changes its nonce and its hash only: a call of
    [mine_block] that returns leaves [index], [timestamp], [digital_ids]
    and [previous_hash] as they were. *)
Theorem mine_block_frame (fuel : nat) (difficulty : Z) (b b' : Block)
    (out : list line) :
  mine_block fuel difficulty b = (out, Done b') ->
  index b' = index b /\ timestamp b' = timestamp b /\
  digital_ids b' = digital_ids b /\ previous_hash b' = previous_hash b.
Proof.
  intros H. apply mine_block_Done in H. destruct H as [H _].
  eapply mine_loop_frame. exact H.
Qed.

Lemma mine_block_frame_witness :
  mine_block 4 3 Demo.block1 = ([BlockMined (hash Demo.mined1)], Done Demo.mined1) /\
  nonce Demo.block1 <> nonce Demo.mined1 /\
  hash Demo.block1 <> hash Demo.mined1 /\
  index Demo.mined1 = index Demo.block1 /\
  timestamp Demo.mined1 = timestamp Demo.block1 /\
  digital_ids Demo.mined1 = digital_ids Demo.block1 /\
  previous_hash Demo.mined1 = previous_hash Demo.block1.
Proof.
  assert (H : mine_block 4 3 Demo.block1 =
              ([BlockMined (hash Demo.mined1)], Done Demo.mined1))
    by (vm_compute; reflexivity).
  split; [ exact H | ].
  split; [ vm_compute; discriminate | ].
  split; [ vm_compute; discriminate | ].
  exact (mine_block_frame 4 3 Demo.block1 Demo.mined1 _ H).
Defined.

(** C4, as stated, fails: a block whose stored hash is stale and starts
    with the zeros asked for is returned as it is.  The mined block of
    the run after its first record was changed still stores the hash it
    was mined with, and [mine_block] at the same difficulty leaves it
    so. *)
Lemma mine_block_stale_hash :
  mine_block 5 3 demo_block1_tampered
  = ([BlockMined (hash demo_block1_tampered)], Done demo_block1_tampered) /\
  calculate_hash demo_block1_tampered <> Ok (hash demo_block1_tampered) /\
  ~ (forall (fuel : nat) (difficulty : Z) (b b' : Block) (out : list line),
       mine_block fuel difficulty b = (out, Done b') ->
       (exists rest, hash b' = repeat_char "0" (Z.to_nat difficulty) ++ rest) /\
       calculate_hash b' = Ok (hash b')).
Proof.
  assert (Hm : mine_block 5 3 demo_block1_tampered
               = ([BlockMined (hash demo_block1_tampered)], Done demo_block1_tampered))
    by (vm_compute; reflexivity).
  assert (Hh : calculate_hash demo_block1_tampered <> Ok (hash demo_block1_tampered))
    by (vm_compute; discriminate).
  split; [ exact Hm | ]. split; [ exact Hh | ].
  intros H. apply Hh. exact (proj2 (H _ _ _ _ _ Hm)).
Qed.

(** C4, amended. When [mine_block] returns, the stored hash of the block
    starts with [difficulty] zeros, for every block.  The block is the
    one handed in, untouched, or it stores the hash recomputed from the
    fields it now has; so the stored hash is the recomputed one for
    every block that stored its recomputed hash on entry, as the
    constructor leaves it. *)
Theorem mine_block_postcondition (fuel : nat) (difficulty : Z) (b b' : Block)
    (out : list line) :
  mine_block fuel difficulty b = (out, Done b') ->
  (exists rest, hash b' = repeat_char "0" (Z.to_nat difficulty) ++ rest) /\
  (b' = b \/ calculate_hash b' = Ok (hash b')) /\
  (calculate_hash b = Ok (hash b) -> calculate_hash b' = Ok (hash b')).
Proof.
  intros H. apply mine_block_Done in H. destruct H as [H _].
  pose proof (mine_loop_hash _ _ _ _ H) as Hh.
  split; [ apply prefix_split; apply (mine_loop_prefix _ _ _ _ H) | ].
  split; [ exact Hh | ].
  intros Hb. destruct Hh as [-> | Hh]; assumption.
Qed.

Lemma mine_block_postcondition_witness :
  (exists rest, hash Demo.mined1 = "000" ++ rest) /\
  (Demo.mined1 = Demo.block1 \/ calculate_hash Demo.mined1 = Ok (hash Demo.mined1)) /\
  (calculate_hash Demo.block1 = Ok (hash Demo.block1) ->
   calculate_hash Demo.mined1 = Ok (hash Demo.mined1)).
Proof.
  apply (mine_block_postcondition 4 3 Demo.block1 Demo.mined1
           [BlockMined (hash Demo.mined1)]).
  vm_compute. reflexivity.
Defined.

(** ** mine_pending_ids *)



(** ** Validity of the reachable states *)

(** C5. [is_chain_valid] returns [True], and prints nothing, on the new
    ledger and on every state that calls of [register_id] and
    [mine_pending_ids] lead to from it. *)
Theorem reachable_is_chain_valid (self : Blockchain) :
  reachable self -> is_chain_valid self = ([], Done true).
Proof.
  intros H. apply reachable_well_linked in H.
  apply check_blocks_complete; [ exact H | ].
  intros i Hi. apply in_seq in Hi. lia.
Qed.

Lemma demo_reachable : reachable Demo.ledger0 /\ reachable Demo.ledger2.
Proof.
  assert (R0 : reachable Demo.ledger0).
  { apply (reach_new Demo.t0). vm_compute. reflexivity. }
  split; [ exact R0 | ].
  apply (reach_mine Demo.ledger1 Demo.ledger2 4 Demo.t1 3
           [MiningBlock 1 1; BlockMined (hash Demo.mined1)]).
  - apply (reach_register Demo.ledger0 Demo.record). exact R0.
  - vm_compute. reflexivity.
Qed.

Lemma reachable_is_chain_valid_witness :
  is_chain_valid Demo.ledger0 = ([], Done true) /\
  is_chain_valid Demo.ledger2 = ([], Done true) /\
  List.length (chain Demo.ledger2) = 2%nat.
Proof.
  split; [ | split ].
  - apply reachable_is_chain_valid. apply demo_reachable.
  - apply reachable_is_chain_valid. apply demo_reachable.
  - reflexivity.
Defined.

(** ** Hexadecimal text *)

Lemma fromhex_hex_byte (c : ascii) (rest : string) :
  Hex.fromhex (Hex.hex_byte c rest) =
  (r <- Hex.fromhex rest ;; Ok (String c r)).
Proof.
  destruct c as [[] [] [] [] [] [] [] []]; reflexivity.
Qed.

(** [bytes.fromhex(b.hex()) == b] *)
Lemma fromhex_hex (b : string) : Hex.fromhex (Hex.hex b) = Ok b.
Proof.
  induction b as [| c b IH]; [ reflexivity | ].
  simpl Hex.hex. rewrite fromhex_hex_byte, IH. reflexivity.
Qed.

(** ** Identity records *)

Lemma demo_provider_correct : provider_correct Demo.provider.
Proof.
  intros e e' message. simpl. exists (e ++ message). split; [ reflexivity | ].
  rewrite String.eqb_refl. reflexivity.
Qed.

Section IdSystemFacts.

Context {P : SignatureProvider}.

(** [verify_pqc_id] returns [True] exactly when every step of its [try]
    block succeeds and the scheme accepts the signature. *)
Lemma verify_body_true (digital_id : pyval) :
  verify_body digital_id = Ok true <->
  exists pk_hex sig_hex user_data public_key signature data_hash,
    getitem digital_id "public_key" = Ok pk_hex /\
    bytes_fromhex pk_hex = Ok public_key /\
    getitem digital_id "signature" = Ok sig_hex /\
    bytes_fromhex sig_hex = Ok signature /\
    getitem digital_id "user_data" = Ok user_data /\
    data_digest user_data = Ok data_hash /\
    verify public_key data_hash signature = Ok true.
Proof.
  unfold verify_body. split.
  - intros H. do 6 inv_bind H.
    exists x, x1, x3, x0, x2, x4. repeat split; assumption.
  - intros (pk_hex & sig_hex & ud & pk & sg & dh & H1 & H2 & H3 & H4 & H5 & H6 & H7).
    rewrite H1. simpl. rewrite H2. simpl. rewrite H3. simpl. rewrite H4. simpl.
    rewrite H5. simpl. rewrite H6. simpl. exact H7.
Qed.

Lemma verify_pqc_id_true (digital_id : pyval) :
  snd (verify_pqc_id digital_id) = true <-> verify_body digital_id = Ok true.
Proof.
  unfold verify_pqc_id. destruct (verify_body digital_id) as [[] | e]; simpl;
    split; intros H; congruence.
Qed.

End IdSystemFacts.

(** C2. With a signature scheme whose signatures on generated keys
    verify, [generate_pqc_id] on user data that [json.dumps] can encode
    returns a record, and [verify_pqc_id] answers [True] on it. *)
Theorem generate_then_verify (P : SignatureProvider) (e_key e_sign : entropy)
    (now : pyfloat) (user_info : pyval) (text : string) :
  provider_correct P ->
  Json.dumps user_info = Ok text ->
  exists digital_id secret_key_hex,
    generate_pqc_id e_key e_sign now user_info = Ok (digital_id, secret_key_hex) /\
    verify_pqc_id digital_id = ([], true).
Proof.
  intros HP Hd. unfold generate_pqc_id.
  specialize (HP e_key e_sign (Sha256.digest text)).
  destruct (generate_keypair e_key) as [pk sk].
  destruct HP as (sg & Hs & Hv).
  unfold data_digest. rewrite Hd. simpl. rewrite Hs. simpl.
  eexists. eexists. split; [ reflexivity | ].
  unfold verify_pqc_id, verify_body. simpl.
  rewrite !fromhex_hex. simpl.
  unfold data_digest. rewrite Hd. simpl. rewrite Hv. reflexivity.
Qed.

Lemma generate_then_verify_witness :
  Demo.created = Ok (Demo.record, "6b31") /\
  verify_pqc_id Demo.record = ([], true).
Proof.
  destruct (generate_then_verify Demo.provider "k1" "" (mkFloat "1700000001.0")
              Demo.user_data _ demo_provider_correct eq_refl)
    as (digital_id & sk & Hg & Hv).
  assert (E : @generate_pqc_id Demo.provider "k1" "" (mkFloat "1700000001.0")
                Demo.user_data = Ok (Demo.record, "6b31"))
    by (vm_compute; reflexivity).
  rewrite E in Hg. inversion Hg; subst. split; [ reflexivity | exact Hv ].
Defined.

(** C6, as stated, fails: a record whose scheme identifier is not the
    supported one is accepted, since [verify_pqc_id] does not read the
    identifier. *)
Lemma verify_scheme_mismatch_accepted :
  getitem demo_relabelled "pqc_scheme" = Ok (PyStr "RSA-2048") /\
  "RSA-2048" <> ML_DSA /\
  @verify_pqc_id Demo.provider demo_relabelled = ([], true) /\
  ~ (forall (P : SignatureProvider) (digital_id : pyval) (scheme : string),
       getitem digital_id "pqc_scheme" = Ok (PyStr scheme) ->
       scheme <> ML_DSA ->
       snd (verify_pqc_id digital_id) = false).
Proof.
  assert (H1 : getitem demo_relabelled "pqc_scheme" = Ok (PyStr "RSA-2048"))
    by reflexivity.
  assert (H2 : "RSA-2048" <> ML_DSA) by discriminate.
  assert (H3 : @verify_pqc_id Demo.provider demo_relabelled = ([], true))
    by (vm_compute; reflexivity).
  repeat split; try assumption.
  intros H. specialize (H Demo.provider demo_relabelled "RSA-2048" H1 H2).
  rewrite H3 in H. discriminate.
Qed.

(** C6, amended. [verify_pqc_id] is total: it returns a verdict on every
    record.  The verdict is [True] exactly when the key and the signature
    parse as hexadecimal text, the user data can be encoded and the
    scheme accepts the signature over its digest; so it is [False] on a
    key or signature that does not parse and whenever the scheme raises
    or rejects. *)
Theorem verify_pqc_id_fail_closed (P : SignatureProvider) (digital_id : pyval) :
  (exists out verdict, verify_pqc_id digital_id = (out, verdict)) /\
  (snd (verify_pqc_id digital_id) = true <->
   exists pk_hex sig_hex user_data public_key signature data_hash,
     getitem digital_id "public_key" = Ok pk_hex /\
     bytes_fromhex pk_hex = Ok public_key /\
     getitem digital_id "signature" = Ok sig_hex /\
     bytes_fromhex sig_hex = Ok signature /\
     getitem digital_id "user_data" = Ok user_data /\
     data_digest user_data = Ok data_hash /\
     verify public_key data_hash signature = Ok true) /\
  (forall pk_hex e,
     getitem digital_id "public_key" = Ok pk_hex ->
     bytes_fromhex pk_hex = Raise e ->
     verify_pqc_id digital_id = ([VerificationError e], false)) /\
  (forall sig_hex e,
     getitem digital_id "signature" = Ok sig_hex ->
     bytes_fromhex sig_hex = Raise e ->
     snd (verify_pqc_id digital_id) = false) /\
  (forall pk_hex sig_hex user_data public_key signature data_hash,
     getitem digital_id "public_key" = Ok pk_hex ->
     bytes_fromhex pk_hex = Ok public_key ->
     getitem digital_id "signature" = Ok sig_hex ->
     bytes_fromhex sig_hex = Ok signature ->
     getitem digital_id "user_data" = Ok user_data ->
     data_digest user_data = Ok data_hash ->
     verify public_key data_hash signature <> Ok true ->
     snd (verify_pqc_id digital_id) = false).
Proof.
  assert (Hiff := verify_body_true digital_id).
  assert (Hsnd := verify_pqc_id_true digital_id).
  split; [ | split; [ | split; [ | split ] ] ].
  - destruct (verify_pqc_id digital_id) as [out b]. eauto.
  - rewrite Hsnd. exact Hiff.
  - intros pk_hex e H1 H2. unfold verify_pqc_id, verify_body.
    rewrite H1. simpl. rewrite H2. reflexivity.
  - intros sig_hex e H1 H2.
    apply Bool.not_true_is_false. intros E. apply Hsnd, Hiff in E.
    destruct E as (? & ? & ? & ? & ? & ? & _ & _ & E3 & E4 & _). congruence.
  - intros pk_hex sig_hex ud pk sg dh H1 H2 H3 H4 H5 H6 H7.
    apply Bool.not_true_is_false. intros E. apply Hsnd, Hiff in E.
    destruct E as (? & ? & ? & ? & ? & ? & E1 & E2 & E3 & E4 & E5 & E6 & E7).
    apply H7. congruence.
Qed.

(** C10. The answer of [verify_pqc_id], and what it prints, are the same
    on two records that agree on their [public_key], [signature] and
    [user_data] entries. *)
Theorem verify_pqc_id_reads_three_fields (P : SignatureProvider)
    (r1 r2 : pyval) :
  getitem r1 "public_key" = getitem r2 "public_key" ->
  getitem r1 "signature" = getitem r2 "signature" ->
  getitem r1 "user_data" = getitem r2 "user_data" ->
  verify_pqc_id r1 = verify_pqc_id r2.
Proof.
  intros H1 H2 H3. unfold verify_pqc_id, verify_body.
  rewrite H1, H2, H3. reflexivity.
Qed.

Lemma verify_pqc_id_reads_three_fields_witness :
  getitem Demo.record "pqc_scheme" <> getitem demo_stripped "pqc_scheme" /\
  getitem Demo.record "timestamp" <> getitem demo_stripped "timestamp" /\
  getitem Demo.record "note" <> getitem demo_stripped "note" /\
  @verify_pqc_id Demo.provider Demo.record = verify_pqc_id demo_stripped.
Proof.
  split; [ vm_compute; discriminate | ].
  split; [ vm_compute; discriminate | ].
  split; [ vm_compute; discriminate | ].
  apply (verify_pqc_id_reads_three_fields Demo.provider Demo.record demo_stripped);
    reflexivity.
Defined.

(** ** Tampering *)

Lemma list_set_Ok {A : Type} (l : list A) (i : nat) (a : A) (l' : list A) :
  list_set l i a = Ok l' ->
  List.length l' = List.length l /\
  nth_error l' i = Some a /\
  forall j, j <> i -> nth_error l' j = nth_error l j.
Proof.
  revert i l'. induction l as [| x l IH]; intros i l' H; simpl in H;
    [ discriminate | ].
  destruct i as [| i].
  - inversion H; subst. simpl. repeat split; auto.
    intros [| j] Hj; [ contradiction | reflexivity ].
  - inv_bind H. inversion H; subst. destruct (IH _ _ E) as (H1 & H2 & H3).
    simpl. repeat split; auto.
    intros [| j] Hj; [ reflexivity | ]. simpl. apply H3. congruence.
Qed.

Lemma list_set_head {A : Type} (l : list A) (a : A) (l' : list A) :
  list_set l 0 a = Ok l' -> exists x rest, l = x :: rest /\ l' = a :: rest.
Proof.
  destruct l as [| x rest]; simpl; intros H; inversion H; eauto.
Qed.

(** The first check of [is_chain_valid] that fails is reported with its
    index. *)
Lemma check_blocks_hash_mismatch (chain : list Block) (i : nat)
    (rest : list nat) (current previous : Block) (recomputed : string) :
  nth_error chain i = Some current ->
  nth_error chain (i - 1) = Some previous ->
  calculate_hash current = Ok recomputed ->
  hash current <> recomputed ->
  check_blocks chain (i :: rest) = ([HashCorrupted i], Done false).
Proof.
  intros Hc Hp Hh Hne. simpl. unfold list_get. rewrite Hc, Hp. simpl.
  rewrite Hh. simpl. apply String.eqb_neq in Hne. rewrite Hne. reflexivity.
Qed.

(** A block whose first record is encoded differently is hashed from a
    different text. *)
Lemma block_text_first_record (b b' : Block) (s s' : string) (records : list string) :
  index b' = index b -> nonce b' = nonce b ->
  previous_hash b' = previous_hash b -> timestamp b' = timestamp b ->
  s <> s' ->
  block_text b (s :: records) <> block_text b' (s' :: records).
Proof.
  intros E1 E2 E3 E4 Hne H. unfold block_text in H.
  rewrite E1, E2, E3, E4 in H.
  repeat (apply append_inv_head in H || (simpl in H; injection H as H)).
  destruct records as [| p records]; simpl in H.
  - apply append_inv_tail in H. contradiction.
  - rewrite !append_assoc in H. apply append_inv_tail in H. contradiction.
Qed.

(** C1. On a ledger with at least two blocks that [is_chain_valid]
    accepts, after [chain[1].digital_ids[0]['user_data'][key] = value]
    has changed the encoded form of that record, [is_chain_valid] returns
    [False] and reports the hash of block 1, provided SHA-256 does not
    collide on the two texts block 1 is hashed from. *)
Theorem tamper_detected (self self' : Blockchain) (key : string)
    (value : pyval) (text text' : string) :
  (2 <= List.length (chain self))%nat ->
  is_chain_valid self = ([], Done true) ->
  tamper_user_data key value self = Ok self' ->
  record_text self = Ok text ->
  record_text self' = Ok text' ->
  text <> text' ->
  (forall t t', block1_string self = Ok t -> block1_string self' = Ok t' ->
                sha256_distinguishes t t') ->
  is_chain_valid self' = ([HashCorrupted 1], Done false).
Proof.
  intros Hlen Hvalid Htamper Hrt Hrt' Hne Hsha.
  unfold tamper_user_data in Htamper.
  apply bind_Ok in Htamper. destruct Htamper as (b1 & Hb1 & Htamper).
  apply bind_Ok in Htamper. destruct Htamper as (r & Hr & Htamper).
  apply bind_Ok in Htamper. destruct Htamper as (ud & _ & Htamper).
  apply bind_Ok in Htamper. destruct Htamper as (ud' & _ & Htamper).
  apply bind_Ok in Htamper. destruct Htamper as (r' & _ & Htamper).
  apply bind_Ok in Htamper. destruct Htamper as (ids' & Hids & Htamper).
  apply bind_Ok in Htamper. destruct Htamper as (chain' & Hchain & Htamper).
  inversion Htamper; subst self'; clear Htamper.
  apply list_set_head in Hids. destruct Hids as (x & rest & Hx & ->).
  apply list_set_Ok in Hchain. destruct Hchain as (Hlen' & Hnew & Hother).
  set (b1' := set_digital_ids b1 (r' :: rest)) in *.
  (* the record before and after *)
  unfold list_get in Hr. rewrite Hx in Hr. simpl in Hr. inversion Hr; subst x.
  unfold record_text in Hrt, Hrt'. simpl chain in Hrt'.
  rewrite Hb1 in Hrt. simpl in Hrt. rewrite Hx in Hrt. simpl in Hrt.
  assert (Hb1' : list_get chain' 1 = Ok b1') by (apply list_get_Ok; exact Hnew).
  rewrite Hb1' in Hrt'. simpl in Hrt'.
  (* block 1 stored its recomputed hash *)
  assert (WL : well_linked (chain self)).
  { apply is_chain_valid_true. eauto. }
  apply list_get_Ok in Hb1.
  destruct (nth_error (chain self) 0) as [p0 |] eqn:Hp0;
    [ | apply nth_error_None in Hp0; lia ].
  destruct (WL 1%nat b1 p0) as [Hh _]; auto.
  unfold calculate_hash in Hh. rewrite block_string_text, Hx in Hh.
  simpl in Hh. rewrite Hrt in Hh. simpl in Hh.
  destruct (Json.dumps_list rest) as [parts | e] eqn:Hrest; simpl in Hh;
    [ | discriminate ].
  inversion Hh as [Hstored]. clear Hh.
  (* the two texts *)
  assert (Ht : block1_string self = Ok (block_text b1 (text :: parts))).
  { unfold block1_string, list_get. rewrite Hb1. simpl.
    rewrite block_string_text, Hx. simpl. rewrite Hrt. simpl.
    rewrite Hrest. reflexivity. }
  assert (Hs' : block_string b1' = Ok (block_text b1' (text' :: parts))).
  { rewrite block_string_text. simpl. rewrite Hrt'. simpl.
    rewrite Hrest. reflexivity. }
  assert (Ht' : block1_string (mkBlockchain chain' (pending_ids self))
                = Ok (block_text b1' (text' :: parts))).
  { unfold block1_string. simpl chain. rewrite Hb1'. exact Hs'. }
  specialize (Hsha _ _ Ht Ht').
  assert (Hdiff : block_text b1 (text :: parts) <> block_text b1' (text' :: parts))
    by (apply block_text_first_record; auto).
  apply Hsha in Hdiff.
  (* the check of block 1 *)
  unfold is_chain_valid. simpl chain. rewrite Hlen'.
  destruct (List.length (chain self)) as [| [| n]] eqn:El; try lia.
  simpl seq.
  apply (check_blocks_hash_mismatch chain' 1 _ b1' p0
           (sha256_hexdigest (block_text b1' (text' :: parts)))).
  - exact Hnew.
  - change (1 - 1)%nat with 0%nat. rewrite Hother by lia. exact Hp0.
  - unfold calculate_hash. rewrite Hs'. reflexivity.
  - simpl hash. rewrite <- Hstored. exact Hdiff.
Qed.

Lemma tamper_detected_witness :
  is_chain_valid Demo.ledger2 = ([], Done true) /\
  tamper_user_data "purpose" (PyStr "X") Demo.ledger2 = Ok demo_tampered /\
  is_chain_valid demo_tampered = ([HashCorrupted 1], Done false).
Proof.
  assert (Hv : is_chain_valid Demo.ledger2 = ([], Done true))
    by (vm_compute; reflexivity).
  assert (Ht : tamper_user_data "purpose" (PyStr "X") Demo.ledger2 = Ok demo_tampered)
    by (vm_compute; reflexivity).
  split; [ exact Hv | split; [ exact Ht | ] ].
  destruct (record_text Demo.ledger2) as [text | e] eqn:E1;
    [ | vm_compute in E1; discriminate ].
  destruct (record_text demo_tampered) as [text' | e] eqn:E2;
    [ | vm_compute in E2; discriminate ].
  apply (tamper_detected Demo.ledger2 demo_tampered "purpose" (PyStr "X") text text').
  - simpl. lia.
  - exact Hv.
  - exact Ht.
  - exact E1.
  - exact E2.
  - vm_compute in E1, E2. inversion E1; inversion E2; subst. discriminate.
  - intros t t' H1 H2 _. vm_compute in H1, H2.
    inversion H1; inversion H2; subst. vm_compute. discriminate.
Defined.

(** ** Validation of a chain that cannot be encoded *)

(** C7 fails on the code: after [chain[1].digital_ids[0]['user_data']
    ['purpose'] = b'X'] on the ledger of the run, [is_chain_valid] raises
    the [TypeError] of [json.dumps] instead of returning a boolean. *)
Lemma is_chain_valid_raises :
  tamper_user_data "purpose" (PyBytes "X") Demo.ledger2 = Ok demo_bytes /\
  is_chain_valid demo_bytes = ([], Raised TypeError).
Proof. split; vm_compute; reflexivity. Qed.

Lemma check_blocks_total (chain : list Block) (indices : list nat) :
  (forall b, In b chain -> exists h, calculate_hash b = Ok h) ->
  (forall i, In i indices -> (1 <= i < List.length chain)%nat) ->
  exists out verdict, check_blocks chain indices = (out, Done verdict).
Proof.
  intros Hs. induction indices as [| i rest IH]; intros Hin.
  - exists [], true. reflexivity.
  - assert (Hi : (1 <= i < List.length chain)%nat) by (apply Hin; left; auto).
    destruct (nth_error chain i) as [cur |] eqn:Ec;
      [ | apply nth_error_None in Ec; lia ].
    destruct (nth_error chain (i - 1)) as [prev |] eqn:Ep;
      [ | apply nth_error_None in Ep; lia ].
    destruct (Hs cur (nth_error_In _ _ Ec)) as [h Hh].
    simpl. unfold list_get. rewrite Ec, Ep. simpl. rewrite Hh. simpl.
    destruct (String.eqb (hash cur) h); simpl; [ | eauto ].
    destruct (String.eqb (previous_hash cur) (hash prev)); simpl; [ | eauto ].
    destruct IH as (out & v & ->); [ | eauto ].
    intros j Hj. apply Hin. right. exact Hj.
Qed.

(** [is_chain_valid] returns a boolean, whatever strings the stored
    hashes and links are, on every chain of blocks with the types of
    this development (an int index and nonce, a float timestamp, a
    string hash and link) whose index and nonce stay within the limit of
    the interpreter on the digits of an int turned into text, and whose
    records the encoder accepts and hold no int beyond that limit. *)
Lemma is_chain_valid_total (self : Blockchain) :
  (forall b, In b (chain self) ->
     within_int_limit (index b) = true /\
     within_int_limit (nonce b) = true /\
     forallb ints_within_limit (digital_ids b) = true /\
     exists records, Json.dumps_list (digital_ids b) = Ok records) ->
  exists out verdict, is_chain_valid self = (out, Done verdict).
Proof.
  intros H. apply check_blocks_total.
  - intros b Hb. apply calculate_hash_defined.
    destruct (H b Hb) as (_ & _ & _ & Hr). exact Hr.
  - intros i Hi. apply in_seq in Hi. lia.
Qed.

Lemma is_chain_valid_total_witness :
  exists out verdict, is_chain_valid demo_tampered = (out, Done verdict).
Proof.
  apply is_chain_valid_total. intros b Hb.
  destruct Hb as [<- | [<- | []]];
    (split; [ vm_compute; reflexivity | ]);
    (split; [ vm_compute; reflexivity | ]);
    (split; [ vm_compute; reflexivity | ]);
    eexists; vm_compute; reflexivity.
Defined.
(** ** The encoder is injective on plain values *)

(** *** Unquoted texts *)

Lemma all_chars_weaken (p q : ascii -> bool) (s : string) :
  (forall c, p c = true -> q c = true) ->
  all_chars p s = true -> all_chars q s = true.
Proof.
  intros Hpq. induction s as [| c s IH]; simpl; [ auto | ].
  intros H. apply andb_prop in H. destruct H as [H1 H2].
  rewrite (Hpq _ H1), (IH H2). reflexivity.
Qed.

Lemma all_chars_app (p : ascii -> bool) (s t : string) :
  all_chars p (s ++ t) = all_chars p s && all_chars p t.
Proof.
  induction s as [| c s IH]; simpl; [ reflexivity | ].
  rewrite IH. apply andb_assoc.
Qed.

(** Two unquoted texts that are followed by delimiters and read the same
    are the same text. *)
Lemma token_split (t1 t2 r1 r2 : string) :
  all_chars token_char t1 = true -> all_chars token_char t2 = true ->
  delimited r1 -> delimited r2 ->
  t1 ++ r1 = t2 ++ r2 -> t1 = t2 /\ r1 = r2.
Proof.
  revert t2. induction t1 as [| c t1 IH]; intros [| d t2] H1 H2 D1 D2 E;
    simpl in *.
  - auto.
  - subst r1. simpl in D1. apply andb_prop in H2. destruct H2 as [H2 _].
    congruence.
  - subst r2. simpl in D2. apply andb_prop in H1. destruct H1 as [H1 _].
    congruence.
  - apply andb_prop in H1, H2. destruct H1 as [_ H1], H2 as [_ H2].
    injection E as -> E. destruct (IH _ H1 H2 D1 D2 E) as [-> ->]. auto.
Qed.

Lemma digit_or_minus_token (c : ascii) :
  digit_or_minus c = true -> token_char c = true.
Proof.
  unfold digit_or_minus, token_char.
  destruct ((48 <=? N_of_ascii c)%N && (N_of_ascii c <=? 57)%N); simpl; [ auto | ].
  intros ->. rewrite !orb_true_r. reflexivity.
Qed.

Lemma float_char_token (c : ascii) :
  float_char c = true -> token_char c = true.
Proof.
  destruct c as [[] [] [] [] [] [] [] []]; vm_compute; congruence.
Qed.

Lemma digit_or_minus_float (c : ascii) :
  digit_or_minus c = true -> float_char c = true /\ point_or_e c = false.
Proof.
  destruct c as [[] [] [] [] [] [] [] []]; vm_compute; intuition congruence.
Qed.

Lemma string_of_uint_digits (d : Decimal.uint) :
  all_chars digit_or_minus (NilEmpty.string_of_uint d) = true.
Proof.
  induction d; simpl; auto.
Qed.

Lemma str_of_Z_chars (n : Z) : all_chars digit_or_minus (str_of_Z n) = true.
Proof.
  unfold str_of_Z, NilZero.string_of_int, NilZero.string_of_uint.
  destruct (Z.to_int n) as [d | d]; destruct d; simpl;
    try reflexivity; apply string_of_uint_digits.
Qed.

Lemma str_of_Z_nonempty (n : Z) : str_of_Z n <> "".
Proof.
  unfold str_of_Z, NilZero.string_of_int, NilZero.string_of_uint.
  destruct (Z.to_int n) as [d | d]; destruct d; simpl; discriminate.
Qed.

Lemma to_int_not_nil (n : Z) :
  Z.to_int n <> Decimal.Pos Decimal.Nil /\ Z.to_int n <> Decimal.Neg Decimal.Nil.
Proof.
  destruct n as [| p | p]; simpl; split; try discriminate;
    intros H; injection H as H; exact (DecimalPos.Unsigned.to_uint_nonnil p H).
Qed.

(** [str] is injective on the ints. *)
Lemma str_of_Z_inj (n m : Z) : str_of_Z n = str_of_Z m -> n = m.
Proof.
  unfold str_of_Z. intros H.
  apply (f_equal NilZero.int_of_string) in H.
  destruct (to_int_not_nil n) as [N1 N2], (to_int_not_nil m) as [M1 M2].
  rewrite !NilZero.isi in H by assumption.
  injection H as H. apply DecimalZ.to_int_inj. exact H.
Qed.

Lemma has_not_int_char (s : string) :
  all_chars digit_or_minus s = true -> has_char not_int_char s = false.
Proof.
  induction s as [| c s IH]; simpl; [ auto | ].
  intros H. apply andb_prop in H. destruct H as [H1 H2].
  unfold not_int_char at 1. rewrite H1, (IH H2). reflexivity.
Qed.

Lemma has_char_weaken (p q : ascii -> bool) (s : string) :
  (forall c, p c = true -> q c = true) ->
  has_char p s = true -> has_char q s = true.
Proof.
  intros Hpq. induction s as [| c s IH]; simpl; [ auto | ].
  intros H. apply orb_prop in H. destruct H as [H | H].
  - rewrite (Hpq _ H). reflexivity.
  - rewrite (IH H). apply orb_true_r.
Qed.

Lemma point_or_e_not_int (c : ascii) :
  point_or_e c = true -> not_int_char c = true.
Proof.
  destruct c as [[] [] [] [] [] [] [] []]; vm_compute; congruence.
Qed.

(** The four shapes of the text of a float. *)
Lemma floatstr_cases (f : pyfloat) :
  float_ok f = true ->
  (float_repr f = "nan" /\ Json.floatstr f = "NaN") \/
  (float_repr f = "inf" /\ Json.floatstr f = "Infinity") \/
  (float_repr f = "-inf" /\ Json.floatstr f = "-Infinity") \/
  (Json.floatstr f = float_repr f /\
   all_chars float_char (float_repr f) = true /\
   has_char point_or_e (float_repr f) = true).
Proof.
  unfold float_ok, Json.floatstr.
  destruct (String.eqb_spec (float_repr f) "nan") as [E1 | N1];
    [ rewrite E1; auto | ].
  destruct (String.eqb_spec (float_repr f) "inf") as [E2 | N2];
    [ rewrite E2; auto | ].
  destruct (String.eqb_spec (float_repr f) "-inf") as [E3 | N3];
    [ rewrite E3; auto | ].
  simpl. intros H. apply andb_prop in H. destruct H as [H1 H2].
  right. right. right. auto.
Qed.

Lemma floatstr_chars (f : pyfloat) :
  float_ok f = true -> all_chars token_char (Json.floatstr f) = true.
Proof.
  intros H. destruct (floatstr_cases f H)
    as [[_ ->] | [[_ ->] | [[_ ->] | (-> & H1 & _)]]]; try reflexivity.
  eapply all_chars_weaken; [ apply float_char_token | exact H1 ].
Qed.

Lemma floatstr_not_int_char (f : pyfloat) :
  float_ok f = true -> has_char not_int_char (Json.floatstr f) = true.
Proof.
  intros H. destruct (floatstr_cases f H)
    as [[_ ->] | [[_ ->] | [[_ ->] | (-> & _ & H2)]]]; try reflexivity.
  eapply has_char_weaken; [ apply point_or_e_not_int | exact H2 ].
Qed.

Lemma floatstr_not_int (f : pyfloat) (n : Z) :
  float_ok f = true -> Json.floatstr f <> str_of_Z n.
Proof.
  intros H E. apply floatstr_not_int_char in H. rewrite E in H.
  rewrite has_not_int_char in H by apply str_of_Z_chars. discriminate.
Qed.

Lemma floatstr_inj (f g : pyfloat) :
  float_ok f = true -> float_ok g = true ->
  Json.floatstr f = Json.floatstr g -> f = g.
Proof.
  intros Hf Hg E.
  destruct (floatstr_cases _ Hf) as [[F F'] | [[F F'] | [[F F'] | (F' & F & _)]]];
    destruct (floatstr_cases _ Hg) as [[G G'] | [[G G'] | [[G G'] | (G' & G & _)]]];
    rewrite F', G' in E; destruct f as [r], g as [r']; simpl in *;
    try discriminate; try (f_equal; congruence);
    try (rewrite <- E in G; discriminate); try (rewrite E in F; discriminate).
Qed.

(** *** Quoted texts *)

Lemma unescape_escape_char (c : ascii) (rest : string) :
  unescape_char (Json.escape_char c rest) = Some (c, rest).
Proof.
  destruct c as [[] [] [] [] [] [] [] []]; reflexivity.
Qed.

Lemma unescape_quote (rest : string) : unescape_char (String dquote rest) = None.
Proof. reflexivity. Qed.

(** A string can be read back from its escaped form up to the closing
    quote. *)
Lemma escape_inj (s s' rest rest' : string) :
  Json.escape s (String dquote rest) = Json.escape s' (String dquote rest') ->
  s = s' /\ rest = rest'.
Proof.
  revert s'. induction s as [| c s IH]; intros [| c' s'] H; simpl in H.
  - injection H as ->. auto.
  - apply (f_equal unescape_char) in H.
    rewrite unescape_escape_char, unescape_quote in H. discriminate.
  - apply (f_equal unescape_char) in H.
    rewrite unescape_escape_char, unescape_quote in H. discriminate.
  - apply (f_equal unescape_char) in H.
    rewrite !unescape_escape_char in H. injection H as -> H.
    destruct (IH _ H) as [-> ->]. auto.
Qed.

Lemma encode_str_inj (s s' rest rest' : string) :
  Json.encode_str s ++ rest = Json.encode_str s' ++ rest' ->
  s = s' /\ rest = rest'.
Proof.
  unfold Json.encode_str. simpl. intros H. injection H as H.
  apply escape_inj.
  assert (E : forall a r, Json.escape a (str1 dquote) ++ r = Json.escape a (String dquote r)).
  { intros a r. induction a as [| x a IHa]; simpl; [ reflexivity | ].
    rewrite <- IHa. unfold Json.escape_char.
    repeat match goal with |- context [if ?b then _ else _] => destruct b end;
      reflexivity. }
  rewrite !E in H. exact H.
Qed.

(** *** Values *)

Lemma head_kind_app (s r : string) :
  s <> "" -> head_kind (s ++ r) = head_kind s.
Proof. destruct s; [ congruence | reflexivity ]. Qed.

Lemma float_char_kind (c : ascii) :
  float_char c = true -> kind_of_char c = KindNumber.
Proof.
  destruct c as [[] [] [] [] [] [] [] []]; vm_compute; congruence.
Qed.

Lemma str_of_Z_kind (n : Z) : head_kind (str_of_Z n) = KindNumber.
Proof.
  pose proof (str_of_Z_chars n) as H. pose proof (str_of_Z_nonempty n) as N.
  destruct (str_of_Z n) as [| c s]; [ congruence | ].
  simpl in *. apply andb_prop in H. destruct H as [H _].
  apply float_char_kind. apply digit_or_minus_float. exact H.
Qed.

Lemma floatstr_kind (f : pyfloat) :
  float_ok f = true -> head_kind (Json.floatstr f) = KindNumber.
Proof.
  intros H. destruct (floatstr_cases f H)
    as [[_ ->] | [[_ ->] | [[_ ->] | (-> & H1 & H2)]]]; try reflexivity.
  destruct (float_repr f) as [| c s]; [ discriminate | ].
  simpl in *. apply andb_prop in H1. destruct H1 as [H1 _].
  apply float_char_kind. exact H1.
Qed.

(** The text of a plain value is not empty and starts as its kind
    does. *)
Lemma dumps_head (v : pyval) (s : string) :
  plain v = true -> Json.dumps v = Ok s ->
  s <> "" /\ head_kind s = kind_of v.
Proof.
  destruct v as [| [] | n | f | t | b | l | l | items]; intros Hp Hd;
    try discriminate Hp.
  - inversion Hd. split; [ discriminate | reflexivity ].
  - inversion Hd. split; [ discriminate | reflexivity ].
  - inversion Hd. split; [ discriminate | reflexivity ].
  - inversion Hd. split; [ apply str_of_Z_nonempty | apply str_of_Z_kind ].
  - inversion Hd. simpl in Hp. split; [ | apply floatstr_kind; exact Hp ].
    intros E. apply floatstr_kind in Hp. rewrite E in Hp. discriminate.
  - inversion Hd. split; [ discriminate | reflexivity ].
  - rewrite JsonFacts.dumps_PyList in Hd. inv_bind Hd. inversion Hd.
    split; [ discriminate | reflexivity ].
  - rewrite JsonFacts.dumps_PyDict in Hd. do 2 inv_bind Hd. inversion Hd.
    split; [ discriminate | reflexivity ].
Qed.

Lemma same_value_PyList (l l' : list pyval) :
  same_value (PyList l) (PyList l') = same_list l l'.
Proof.
  simpl. revert l'.
  induction l as [| x l IH]; intros [| y l']; simpl; try rewrite IH; reflexivity.
Qed.

Lemma plain_kind (v : pyval) : plain v = true -> kind_of v <> KindOther.
Proof.
  destruct v as [| [] | | | | | | | ]; simpl; congruence.
Qed.

Lemma join_cons (p : string) (parts : list string) (rest : string) :
  Json.join (p :: parts) ++ rest = p ++ after parts rest.
Proof.
  destruct parts as [| q parts]; [ reflexivity | ].
  change (Json.join (p :: q :: parts)) with (p ++ ", " ++ Json.join (q :: parts)).
  rewrite append_assoc. reflexivity.
Qed.

Lemma delimited_after (parts : list string) (c : ascii) (rest : string) :
  token_char c = false -> delimited (after parts (String c rest)).
Proof.
  intros H. destruct parts; simpl; [ exact H | reflexivity ].
Qed.

Lemma dumps_list_nil (l : list pyval) :
  Json.dumps_list l = Ok [] -> l = [].
Proof.
  destruct l as [| x l]; [ reflexivity | ]. simpl. intros H.
  do 2 inv_bind H. discriminate.
Qed.

Lemma dumps_list_cons (x : pyval) (l : list pyval) (parts : list string) :
  Json.dumps_list (x :: l) = Ok parts ->
  exists p ps, parts = p :: ps /\ Json.dumps x = Ok p /\
               Json.dumps_list l = Ok ps.
Proof.
  simpl. intros H. do 2 inv_bind H. inversion H. eauto.
Qed.

(** The elements of a list can be read back from its text. *)
Lemma dumps_list_inj (l : list pyval) :
  Forall injective_at l ->
  forall l' ps ps' c r r',
    forallb plain l = true -> forallb plain l' = true ->
    Json.dumps_list l = Ok ps -> Json.dumps_list l' = Ok ps' ->
    token_char c = false -> kind_of_char c = KindOther -> c <> ","%char ->
    Json.join ps ++ String c r = Json.join ps' ++ String c r' ->
    same_list l l' = true /\ r = r'.
Proof.
  induction 1 as [| x l Hx Hl IH]; intros [| y l'] ps ps' c r r' P P' D D' Tc Kc Cc E.
  - inversion D; inversion D'; subst. simpl in E.
    assert (r = r') by congruence. auto.
  - exfalso. inversion D; subst. apply dumps_list_cons in D'.
    destruct D' as (q & qs & -> & Dy & _). simpl in P'.
    apply andb_prop in P'. destruct P' as [Py _].
    rewrite join_cons in E. apply (f_equal head_kind) in E.
    destruct (dumps_head _ _ Py Dy) as [Nq Kq].
    rewrite (head_kind_app q) in E by assumption. simpl in E.
    apply (plain_kind _ Py). congruence.
  - exfalso. inversion D'; subst. apply dumps_list_cons in D.
    destruct D as (p & qs & -> & Dx & _). simpl in P.
    apply andb_prop in P. destruct P as [Px _].
    rewrite join_cons in E. apply (f_equal head_kind) in E.
    destruct (dumps_head _ _ Px Dx) as [Np Kp].
    rewrite (head_kind_app p) in E by assumption. simpl in E.
    apply (plain_kind _ Px). congruence.
  - apply dumps_list_cons in D, D'.
    destruct D as (p & ps1 & -> & Dx & Dl), D' as (q & ps1' & -> & Dy & Dl').
    simpl in P, P'. apply andb_prop in P, P'.
    destruct P as [Px Pl], P' as [Py Pl'].
    rewrite !join_cons in E.
    destruct (Hx y p q _ _ Px Py Dx Dy
                (delimited_after ps1 c r Tc) (delimited_after ps1' c r' Tc) E)
      as [Sxy E'].
    simpl. rewrite Sxy. simpl.
    destruct ps1 as [| p2 ps2], ps1' as [| q2 qs2]; simpl in E'.
    + apply dumps_list_nil in Dl, Dl'. subst.
      assert (r = r') by congruence. auto.
    + exfalso. apply Cc. congruence.
    + exfalso. apply Cc. congruence.
    + apply (append_inv_head ", ") in E'. eapply IH; eauto.
Qed.

(** *** Dicts *)

Lemma same_value_PyDict (items items' : list (pykey * pyval)) :
  same_value (PyDict items) (PyDict items') =
  Nat.eqb (List.length items) (List.length items') && same_items items' items.
Proof.
  simpl. f_equal. induction items as [| [k x] l IH]; simpl; [ reflexivity | ].
  rewrite IH. reflexivity.
Qed.

Lemma dumps_items_entries (l : list (pykey * pyval)) :
  Json.dumps_items l = (es <- dumps_entries l ;; Ok (map entry_part es)).
Proof.
  induction l as [| [k x] l IH]; simpl; [ reflexivity | ].
  destruct (Json.dumps x) as [s | e]; simpl; [ | reflexivity ].
  rewrite IH. destruct (dumps_entries l); reflexivity.
Qed.

Lemma dumps_entries_spec (l : list (pykey * pyval)) (es : list entry) :
  dumps_entries l = Ok es ->
  map entry_item es = l /\
  Forall (fun e => Json.dumps (fst (snd e)) = Ok (snd (snd e))) es.
Proof.
  revert es. induction l as [| [k x] l IH]; intros es H; simpl in H.
  - inversion H. split; [ reflexivity | constructor ].
  - do 2 inv_bind H. inversion H; subst. destruct (IH _ E0) as [H1 H2].
    split; [ simpl; unfold entry_item at 1; simpl; congruence | ].
    constructor; [ exact E | exact H2 ].
Qed.

(** Sorting reads the keys only. *)
Lemma insert_item_map {A B : Type} (g : A -> B) (x : pykey * A)
    (l : list (pykey * A)) :
  Json.insert_item (fst x, g (snd x)) (map (fun e => (fst e, g (snd e))) l) =
  (r <- Json.insert_item x l ;; Ok (map (fun e => (fst e, g (snd e))) r)).
Proof.
  induction l as [| y l IH]; simpl; [ reflexivity | ].
  destruct (Json.key_lt (fst x) (fst y)) as [[] | e]; simpl; try reflexivity.
  rewrite IH. destruct (Json.insert_item x l); reflexivity.
Qed.

Lemma sort_items_map {A B : Type} (g : A -> B) (l : list (pykey * A)) :
  Json.sort_items (map (fun e => (fst e, g (snd e))) l) =
  (s <- Json.sort_items l ;; Ok (map (fun e => (fst e, g (snd e))) s)).
Proof.
  induction l as [| x l IH]; simpl; [ reflexivity | ].
  rewrite IH. destruct (Json.sort_items l) as [s | e]; simpl; [ | reflexivity ].
  apply insert_item_map.
Qed.

Lemma insert_item_perm {A : Type} (x : pykey * A) (l r : list (pykey * A)) :
  Json.insert_item x l = Ok r -> Permutation (x :: l) r.
Proof.
  revert r. induction l as [| y l IH]; intros r H; simpl in H.
  - inversion H. apply Permutation_refl.
  - inv_bind H. destruct x0.
    + inversion H. apply Permutation_refl.
    + inv_bind H. inversion H; subst.
      eapply Permutation_trans; [ apply perm_swap | ].
      apply perm_skip. apply IH. exact E0.
Qed.

Lemma sort_items_perm {A : Type} (l s : list (pykey * A)) :
  Json.sort_items l = Ok s -> Permutation l s.
Proof.
  revert s. induction l as [| x l IH]; intros s H; simpl in H.
  - inversion H. apply Permutation_refl.
  - inv_bind H. apply insert_item_perm in H.
    eapply Permutation_trans; [ apply perm_skip, IH, E | exact H ].
Qed.

(** The text of a dict, from its items with their texts. *)
Lemma dumps_PyDict_entries (items : list (pykey * pyval)) (s : string) :
  Json.dumps (PyDict items) = Ok s ->
  exists es sorted,
    dumps_entries items = Ok es /\
    Json.sort_items es = Ok sorted /\
    s = "{" ++ Json.join (map Json.member (map entry_part sorted)) ++ "}".
Proof.
  rewrite JsonFacts.dumps_PyDict, dumps_items_entries. intros H.
  destruct (dumps_entries items) as [es | e]; simpl in H; [ | discriminate ].
  unfold entry_part in H.
  rewrite (sort_items_map (fun p : pyval * string => snd p)) in H.
  destruct (Json.sort_items es) as [sorted | e] eqn:Es; simpl in H;
    [ | discriminate ].
  inversion H. exists es, sorted. repeat split; assumption.
Qed.

Lemma dict_get_In (items : list (pykey * pyval)) (k : pykey) (y : pyval) :
  forallb is_KStr (map fst items) = true ->
  distinct_keys (map fst items) = true ->
  In (k, y) items -> dict_get items k = Some y.
Proof.
  induction items as [| [k0 y0] l IH]; simpl; intros HK HD HI; [ contradiction | ].
  apply andb_prop in HK, HD. destruct HK as [K0 KL], HD as [D0 DL].
  destruct HI as [E | HI].
  - inversion E; subst. destruct k; try discriminate. simpl.
    rewrite String.eqb_refl. reflexivity.
  - destruct (pykey_eqb k0 k) eqn:Eq; [ | auto ].
    exfalso. apply negb_true_iff in D0.
    assert (X : existsb (pykey_eqb k0) (map fst l) = true).
    { apply existsb_exists. exists k. split; [ | exact Eq ].
      apply (in_map fst) in HI. exact HI. }
    congruence.
Qed.

Lemma Forall2_In_l {A B : Type} (R : A -> B -> Prop) (l : list A) (l' : list B)
    (a : A) :
  Forall2 R l l' -> In a l -> exists b, In b l' /\ R a b.
Proof.
  induction 1 as [| x y l l' Hxy Hl IH]; intros HI; [ contradiction | ].
  destruct HI as [-> | HI].
  - exists y. split; [ left; reflexivity | exact Hxy ].
  - destruct (IH HI) as (b & Hb & Hab). exists b. split; [ right | ]; assumption.
Qed.

Lemma member_head (p : pykey * string) (rest : string) :
  head_kind (Json.member p ++ rest) = KindString.
Proof. reflexivity. Qed.

Lemma member_entry (a : string) (x : pyval) (s rest : string) :
  Json.member (entry_part (KStr a, (x, s))) ++ rest =
  Json.encode_str a ++ ": " ++ s ++ rest.
Proof.
  unfold Json.member, entry_part. simpl. rewrite !append_assoc. reflexivity.
Qed.

(** The items of a dict, in sorted order, can be read back from its
    text. *)
Lemma members_inj (es : list entry) :
  Forall (fun e => entry_ok e /\ injective_at (fst (snd e))) es ->
  forall es' r r',
    Forall entry_ok es' ->
    Json.join (map Json.member (map entry_part es)) ++ String "}" r =
    Json.join (map Json.member (map entry_part es')) ++ String "}" r' ->
    Forall2 (fun e e' => fst e = fst e' /\
                         same_value (fst (snd e)) (fst (snd e')) = true) es es' /\
    r = r'.
Proof.
  induction 1 as [| e es [He Hinj] Hes IH]; intros [| e' es'] r r' Hes' E.
  - simpl in E. split; [ constructor | congruence ].
  - exfalso. simpl map in E. rewrite join_cons in E.
    apply (f_equal head_kind) in E. rewrite member_head in E. discriminate.
  - exfalso. simpl map in E. rewrite join_cons in E.
    apply (f_equal head_kind) in E. rewrite member_head in E. discriminate.
  - inversion Hes' as [| ? ? He' Hes'']; subst.
    destruct e as [k [x s]], e' as [k' [y t]].
    destruct He as (Kk & Px & Dx), He' as (Kk' & Py & Dy).
    simpl in Kk, Px, Dx, Kk', Py, Dy, Hinj.
    destruct k as [a | | | ]; try discriminate.
    destruct k' as [a' | | | ]; try discriminate.
    cbn [map] in E. rewrite !join_cons, !member_entry in E.
    apply encode_str_inj in E. destruct E as [-> E].
    apply (append_inv_head ": ") in E.
    destruct (Hinj y s t _ _ Px Py Dx Dy
                (delimited_after _ "}" r eq_refl) (delimited_after _ "}" r' eq_refl) E)
      as [Sxy E'].
    destruct es as [| e2 es2], es' as [| e2' es2']; simpl in E'.
    + split; [ | congruence ]. constructor; [ auto | constructor ].
    + discriminate E'.
    + discriminate E'.
    + apply (append_inv_head ", ") in E'.
      destruct (IH _ _ _ Hes'' E') as [F R]. split; [ | exact R ].
      constructor; [ auto | exact F ].
Qed.

Lemma kinds_agree (v w : pyval) (s t r r' : string) :
  plain v = true -> plain w = true ->
  Json.dumps v = Ok s -> Json.dumps w = Ok t ->
  s ++ r = t ++ r' -> kind_of v = kind_of w.
Proof.
  intros Pv Pw Dv Dw E.
  destruct (dumps_head _ _ Pv Dv) as [Ns Ks], (dumps_head _ _ Pw Dw) as [Nt Kt].
  apply (f_equal head_kind) in E.
  rewrite (head_kind_app s), (head_kind_app t) in E by assumption. congruence.
Qed.

Lemma str_of_Z_token (n : Z) : all_chars token_char (str_of_Z n) = true.
Proof.
  eapply all_chars_weaken; [ apply digit_or_minus_token | apply str_of_Z_chars ].
Qed.

Lemma same_items_forall (items' l : list (pykey * pyval)) :
  (forall k x, In (k, x) l ->
     exists y, dict_get items' k = Some y /\ same_value x y = true) ->
  same_items items' l = true.
Proof.
  induction l as [| [k x] l IH]; intros H; simpl; [ reflexivity | ].
  destruct (H k x) as (y & -> & ->); [ left; reflexivity | ].
  simpl. apply IH. intros k' x' HI. apply H. right. exact HI.
Qed.

(** The entries of a plain dict, once sorted. *)
Lemma sorted_entries_ok (items : list (pykey * pyval)) (es sorted : list entry) :
  plain (PyDict items) = true ->
  dumps_entries items = Ok es ->
  Json.sort_items es = Ok sorted ->
  Permutation es sorted /\ map entry_item es = items /\ Forall entry_ok sorted.
Proof.
  intros Pv De Ds. apply sort_items_perm in Ds.
  apply dumps_entries_spec in De. destruct De as [Hmap Hd].
  split; [ exact Ds | split; [ exact Hmap | ] ].
  eapply Permutation_Forall; [ exact Ds | ].
  simpl in Pv. apply andb_prop in Pv. destruct Pv as [Pv Pvals].
  apply andb_prop in Pv. destruct Pv as [Pkeys _].
  rewrite forallb_forall in Pkeys, Pvals. rewrite Forall_forall in Hd.
  apply Forall_forall. intros e He.
  assert (Hi : In (entry_item e) items)
    by (rewrite <- Hmap; apply in_map; exact He).
  repeat split.
  - apply Pkeys. apply (in_map fst) in Hi. exact Hi.
  - apply (Pvals _ Hi).
  - apply Hd. exact He.
Qed.

(** The encoder is injective on the plain values, up to the order of the
    items of dicts: a plain value can be read back from its text when a
    delimiter follows. *)
Lemma dumps_injective_at (v : pyval) : injective_at v.
Proof.
  induction v as [| b | n | f | a | b | l IH | l IH | items IH]
    using pyval_nested_ind;
    intros w s t r r' Pv Pw Dv Dw Dr Dr' E;
    pose proof (kinds_agree _ _ _ _ _ _ Pv Pw Dv Dw E) as K;
    try discriminate Pv.
  - destruct w as [| [] | | | | | | | ]; try discriminate K.
    inversion Dv; inversion Dw; subst.
    apply append_inv_head in E. auto.
  - destruct b; destruct w as [| [] | | | | | | | ]; try discriminate K;
      inversion Dv; inversion Dw; subst; apply append_inv_head in E; auto.
  - destruct w as [| [] | m | g | | | | | ]; try discriminate K;
      inversion Dv; inversion Dw; subst.
    + apply token_split in E; auto using str_of_Z_token.
      destruct E as [E ->]. apply str_of_Z_inj in E. subst.
      simpl. rewrite Z.eqb_refl. auto.
    + exfalso. simpl in Pw.
      apply token_split in E; auto using str_of_Z_token, floatstr_chars.
      destruct E as [E _]. symmetry in E. revert E. apply floatstr_not_int.
      exact Pw.
  - simpl in Pv.
    destruct w as [| [] | m | g | | | | | ]; try discriminate K;
      inversion Dv; inversion Dw; subst.
    + exfalso.
      apply token_split in E; auto using str_of_Z_token, floatstr_chars.
      destruct E as [E _]. revert E. apply floatstr_not_int. exact Pv.
    + simpl in Pw.
      apply token_split in E; auto using floatstr_chars.
      destruct E as [E ->]. apply floatstr_inj in E; auto. subst.
      simpl. rewrite String.eqb_refl. auto.
  - destruct w as [| [] | | | a' | | | | ]; try discriminate K.
    inversion Dv; inversion Dw; subst.
    apply encode_str_inj in E. destruct E as [-> ->].
    simpl. rewrite String.eqb_refl. auto.
  - destruct w as [| [] | | | | | l' | l' | ]; try discriminate K;
      try discriminate Pw.
    rewrite JsonFacts.dumps_PyList in Dv, Dw.
    apply bind_Ok in Dv, Dw.
    destruct Dv as (ps & Dl & Dv), Dw as (ps' & Dl' & Dw).
    inversion Dv; inversion Dw; subst. clear Dv Dw.
    simpl in Pv, Pw.
    change (String "[" ((Json.join ps ++ "]") ++ r) =
            String "[" ((Json.join ps' ++ "]") ++ r')) in E.
    rewrite !append_assoc in E. apply (append_inv_head "[") in E.
    rewrite same_value_PyList.
    apply (dumps_list_inj l IH l' ps ps' "]"); auto. discriminate.
  - destruct w as [| [] | | | | | | | items']; try discriminate K.
    apply dumps_PyDict_entries in Dv, Dw.
    destruct Dv as (es & sv & De & Ds & ->), Dw as (es' & sw & De' & Ds' & ->).
    destruct (sorted_entries_ok _ _ _ Pv De Ds) as (Perm & Hmap & Hok).
    destruct (sorted_entries_ok _ _ _ Pw De' Ds') as (Perm' & Hmap' & Hok').
    change (String "{" ((Json.join (map Json.member (map entry_part sv)) ++ "}") ++ r) =
            String "{" ((Json.join (map Json.member (map entry_part sw)) ++ "}") ++ r')) in E.
    rewrite !append_assoc in E. apply (append_inv_head "{") in E.
    assert (Hinj : Forall (fun e => entry_ok e /\ injective_at (fst (snd e))) sv).
    { apply Forall_forall. intros e He. split.
      - rewrite Forall_forall in Hok. apply Hok. exact He.
      - rewrite Forall_forall in IH.
        apply (IH (entry_item e)). rewrite <- Hmap. apply in_map.
        apply (Permutation_in e (Permutation_sym Perm)). exact He. }
    destruct (members_inj sv Hinj sw r r' Hok' E) as [F ->].
    split; [ | reflexivity ].
    rewrite same_value_PyDict. apply andb_true_intro. split.
    + apply Nat.eqb_eq.
      rewrite <- Hmap, <- Hmap', !length_map.
      rewrite (Permutation_length Perm), (Permutation_length Perm').
      apply (Forall2_length F).
    + apply same_items_forall. intros k x HI.
      rewrite <- Hmap in HI. apply in_map_iff in HI.
      destruct HI as (e & He & HI).
      apply (Permutation_in e Perm) in HI.
      destruct (Forall2_In_l _ _ _ _ F HI) as (e' & HI' & Hk & Hs).
      apply (Permutation_in e' (Permutation_sym Perm')) in HI'.
      exists (fst (snd e')). split.
      * simpl in Pw. apply andb_prop in Pw. destruct Pw as [Pw _].
        apply andb_prop in Pw. destruct Pw as [Pk Pd].
        apply dict_get_In; auto.
        rewrite <- Hmap'. apply in_map_iff. exists e'. split; [ | exact HI' ].
        unfold entry_item in *. inversion He; subst. f_equal. auto.
      * unfold entry_item in He. inversion He; subst. exact Hs.
Qed.


Lemma plain_block_dict (b : Block) : plain (block_dict b) = plain_block b.
Proof.
  unfold plain_block. simpl.
  destruct (float_ok (timestamp b)), (forallb plain (digital_ids b)); reflexivity.
Qed.




(** ** Tampering with a shared object *)

(** The text of a block changes with the text of its first record,
    whatever else changes with it. *)
Lemma block_text_first_record_shared (b b' : Block) (x x' : pyval)
    (s s' : string) (ps ps' : list string) :
  plain x = true -> plain x' = true ->
  Json.dumps x = Ok s -> Json.dumps x' = Ok s' ->
  s <> s' ->
  block_text b (s :: ps) <> block_text b' (s' :: ps').
Proof.
  intros Px Px' Dx Dx' Hne H. unfold block_text in H.
  apply (append_inv_head "{") in H. apply append_inv_head in H.
  apply (append_inv_head ": [") in H.
  rewrite !join_cons in H.
  pose proof H as H0.
  apply (dumps_injective_at x x' s s') in H0;
    auto; try (apply (delimited_after _ "]"); reflexivity).
  destruct H0 as [_ E].
  rewrite E in H. apply append_inv_tail in H. contradiction.
Qed.

(** Tampering is detected under sharing.  Let block 1 of a ledger that
    [is_chain_valid] accepts keep its stored hash while an in-place
    mutation changes the text of its first record, and with it any other
    part of the chain that holds the mutated object: [is_chain_valid]
    returns [False] and reports the hash of block 1, provided SHA-256
    does not collide on the two texts of block 1. *)
Lemma tamper_detected_shared (self self' : Blockchain) (b b' g : Block)
    (x x' : pyval) (text text' : string) :
  is_chain_valid self = ([], Done true) ->
  list_get (chain self) 1 = Ok b -> list_get (chain self') 1 = Ok b' ->
  list_get (chain self') 0 = Ok g ->
  hash b' = hash b ->
  list_get (digital_ids b) 0 = Ok x -> list_get (digital_ids b') 0 = Ok x' ->
  plain x = true -> plain x' = true ->
  Json.dumps x = Ok text -> Json.dumps x' = Ok text' -> text <> text' ->
  (exists t', block_string b' = Ok t') ->
  (forall t t', block_string b = Ok t -> block_string b' = Ok t' ->
                sha256_distinguishes t t') ->
  is_chain_valid self' = ([HashCorrupted 1], Done false).
Proof.
  intros Hvalid Hb Hb' Hg Hhash Hx Hx' Px Px' Dx Dx' Hne [t' Ht'] Hsha.
  apply list_get_Ok in Hb, Hb', Hg, Hx, Hx'.
  assert (WL : well_linked (chain self)) by (apply is_chain_valid_true; eauto).
  destruct (nth_error (chain self) 0) as [p0 |] eqn:Hp0.
  2:{ apply nth_error_None in Hp0.
      assert (1 < List.length (chain self))%nat
        by (apply nth_error_Some; congruence).
      lia. }
  destruct (WL 1%nat b p0) as [Hh _]; auto.
  unfold calculate_hash in Hh. apply bind_Ok in Hh.
  destruct Hh as (t & Ht & Hh). inversion Hh as [Hstored]. clear Hh.
  specialize (Hsha _ _ Ht Ht').
  assert (Hdiff : t <> t').
  { rewrite block_string_text in Ht, Ht'.
    apply bind_Ok in Ht, Ht'.
    destruct Ht as (ps & Dl & Ht), Ht' as (ps' & Dl' & Ht').
    inversion Ht; inversion Ht'; subst t t'.
    destruct (digital_ids b) as [| y l]; [ discriminate | ].
    destruct (digital_ids b') as [| y' l']; [ discriminate | ].
    simpl in Hx, Hx'. inversion Hx; inversion Hx'; subst y y'.
    apply dumps_list_cons in Dl, Dl'.
    destruct Dl as (p & ps1 & -> & Dp & _), Dl' as (p' & ps1' & -> & Dp' & _).
    assert (p = text) by congruence. assert (p' = text') by congruence. subst.
    apply (block_text_first_record_shared b b' x x' text text' ps1 ps1');
      assumption. }
  apply Hsha in Hdiff.
  unfold is_chain_valid.
  assert (Hlen : (1 < List.length (chain self'))%nat)
    by (apply nth_error_Some; congruence).
  destruct (List.length (chain self')) as [| [| n]] eqn:El; try lia.
  simpl seq.
  apply (check_blocks_hash_mismatch (chain self') 1 _ b' g (sha256_hexdigest t')).
  - exact Hb'.
  - exact Hg.
  - unfold calculate_hash. rewrite Ht'. reflexivity.
  - rewrite Hhash, <- Hstored. exact Hdiff.
Qed.

Lemma tamper_detected_shared_witness :
  is_chain_valid demo_shared = ([], Done true) /\
  is_chain_valid demo_shared_tampered = ([HashCorrupted 1], Done false).
Proof.
  assert (Hv : is_chain_valid demo_shared = ([], Done true))
    by (vm_compute; reflexivity).
  split; [ exact Hv | ].
  eapply (tamper_detected_shared demo_shared demo_shared_tampered
            (nth 1 (chain demo_shared) Demo.block1)
            (nth 1 (chain demo_shared_tampered) Demo.block1)
            (nth 0 (chain demo_shared_tampered) Demo.block1)
            Demo.record
            (nth 0 (digital_ids (nth 1 (chain demo_tampered) Demo.block1)) PyNone)).
  - exact Hv.
  - reflexivity.
  - reflexivity.
  - reflexivity.
  - reflexivity.
  - reflexivity.
  - reflexivity.
  - reflexivity.
  - reflexivity.
  - lazy. reflexivity.
  - lazy. reflexivity.
  - discriminate.
  - eexists. lazy. reflexivity.
  - intros t t' H1 H2 _. vm_compute in H1, H2.
    inversion H1; inversion H2; subst. vm_compute. discriminate.
Defined.

(** ** Tampering with a link *)

(** The linkage scenario.  On a ledger that [is_chain_valid] accepts,
    after [chain[1].previous_hash] is set to another string
    [is_chain_valid] returns [False]: block 1 is reported for its hash
    or, should the recomputed hash be the stored one, for its link. *)
Lemma relink_detected (self self' : Blockchain) (value : string) (b : Block) :
  is_chain_valid self = ([], Done true) ->
  list_get (chain self) 1 = Ok b ->
  value <> previous_hash b ->
  tamper_previous_hash value self = Ok self' ->
  is_chain_valid self' = ([HashCorrupted 1], Done false) \/
  is_chain_valid self' = ([NotLinked 1], Done false).
Proof.
  intros Hvalid Hb Hne Ht. unfold tamper_previous_hash in Ht.
  rewrite Hb in Ht. simpl in Ht. apply bind_Ok in Ht.
  destruct Ht as (chain' & Hset & Ht). inversion Ht; subst self'. clear Ht.
  apply list_set_Ok in Hset. destruct Hset as (Hlen & Hnew & Hother).
  apply list_get_Ok in Hb.
  assert (WL : well_linked (chain self)) by (apply is_chain_valid_true; eauto).
  assert (L : (1 < List.length (chain self))%nat)
    by (apply nth_error_Some; congruence).
  destruct (nth_error (chain self) 0) as [p0 |] eqn:Hp0;
    [ | apply nth_error_None in Hp0; lia ].
  destruct (WL 1%nat b p0) as [Hh Hl]; auto.
  set (b' := mkBlock (index b) (timestamp b) (digital_ids b) value (nonce b) (hash b)) in *.
  destruct (calculate_hash_defined b) as [Hd _].
  destruct (proj2 (calculate_hash_defined b') (Hd (ex_intro _ _ Hh))) as [h' Hh'].
  unfold is_chain_valid. simpl chain. rewrite Hlen.
  destruct (List.length (chain self)) as [| [| n]]; try lia.
  simpl seq. simpl check_blocks. unfold list_get.
  rewrite Hnew. change (1 - 1)%nat with 0%nat. rewrite Hother by lia.
  rewrite Hp0. simpl. rewrite Hh'. simpl.
  destruct (String.eqb (hash b) h'); simpl; [ | left; reflexivity ].
  assert (E : String.eqb value (hash p0) = false).
  { apply String.eqb_neq. congruence. }
  rewrite E. simpl. right. reflexivity.
Qed.

Lemma relink_detected_witness :
  tamper_previous_hash "0" Demo.ledger2 = Ok demo_relinked /\
  (is_chain_valid demo_relinked = ([HashCorrupted 1], Done false) \/
   is_chain_valid demo_relinked = ([NotLinked 1], Done false)).
Proof.
  split; [ reflexivity | ].
  apply (relink_detected Demo.ledger2 demo_relinked "0" Demo.mined1).
  - vm_compute. reflexivity.
  - reflexivity.
  - discriminate.
  - reflexivity.
Defined.
(** ** The shape of a hash *)

Lemma hex_length (b : string) :
  String.length (Hex.hex b) = (2 * String.length b)%nat.
Proof.
  induction b as [| c b IH]; [ reflexivity | ].
  simpl. rewrite IH. lia.
Qed.

Lemma hex_byte_lower (c : ascii) (rest : string) :
  all_chars hex_lower (Hex.hex_byte c rest) = all_chars hex_lower rest.
Proof.
  destruct c as [[] [] [] [] [] [] [] []]; reflexivity.
Qed.

Lemma hex_lower_chars (b : string) : all_chars hex_lower (Hex.hex b) = true.
Proof.
  induction b as [| c b IH]; [ reflexivity | ].
  simpl Hex.hex. rewrite hex_byte_lower. exact IH.
Qed.

Lemma string_of_bytes_length (l : list Z) :
  String.length (Sha256.string_of_bytes l) = List.length l.
Proof.
  induction l as [| b l IH]; simpl; [ reflexivity | rewrite IH; reflexivity ].
Qed.

Lemma be_bytes_length (n : nat) (x : Z) :
  List.length (Sha256.be_bytes n x) = n.
Proof.
  unfold Sha256.be_bytes. rewrite length_map, length_rev, length_seq.
  reflexivity.
Qed.

Lemma flat_map_be_bytes_length (l : list Z) :
  List.length (flat_map (Sha256.be_bytes 4) l) = (4 * List.length l)%nat.
Proof.
  induction l as [| x l IH]; [ reflexivity | ].
  cbn [flat_map]. rewrite length_app, be_bytes_length, IH. cbn [List.length]. lia.
Qed.

Lemma digest_length (data : string) : String.length (Sha256.digest data) = 32%nat.
Proof.
  unfold Sha256.digest, Sha256.digest_bytes. cbv zeta.
  rewrite string_of_bytes_length, flat_map_be_bytes_length. reflexivity.
Qed.

Lemma sha256_hexdigest_shape (data : string) :
  String.length (sha256_hexdigest data) = 64%nat /\
  all_chars hex_lower (sha256_hexdigest data) = true.
Proof.
  unfold sha256_hexdigest. rewrite hex_length, digest_length.
  split; [ reflexivity | apply hex_lower_chars ].
Qed.

Lemma calculate_hash_digits (b : Block) (h : string) :
  calculate_hash b = Ok h ->
  String.length h = 64%nat /\ all_chars hex_lower h = true.
Proof.
  unfold calculate_hash. intros H. inv_bind H. inversion H.
  apply sha256_hexdigest_shape.
Qed.


(** ** Mining at the ends of the range of difficulties *)

Lemma prefix_length (p s : string) :
  String.prefix p s = true -> (String.length p <= String.length s)%nat.
Proof.
  revert s. induction p as [| c p IH]; intros s H; simpl; [ lia | ].
  destruct s as [| d s]; simpl in H; [ discriminate | ].
  destruct (ascii_dec c d); [ | discriminate ].
  apply IH in H. simpl. lia.
Qed.

Lemma repeat_char_length (c : ascii) (n : nat) :
  String.length (repeat_char c n) = n.
Proof.
  induction n as [| n IH]; simpl; [ reflexivity | rewrite IH; reflexivity ].
Qed.






(** ** The nonce that mining finds *)

Lemma calculate_hash_fields (b c : Block) :
  index c = index b -> timestamp c = timestamp b ->
  digital_ids c = digital_ids b -> previous_hash c = previous_hash b ->
  nonce c = nonce b ->
  calculate_hash c = calculate_hash b.
Proof.
  destruct b, c; simpl; intros; subst. reflexivity.
Qed.

Lemma mine_loop_least (fuel : nat) (p : string) :
  forall b b', calculate_hash b = Ok (hash b) ->
  mine_loop fuel p b = Done b' ->
  exists k, (k <= fuel)%nat /\ nonce b' = nonce b + Z.of_nat k /\
    forall j h, (j < k)%nat ->
      calculate_hash (set_nonce b (nonce b + Z.of_nat j)) = Ok h ->
      startswith h p = false.
Proof.
  induction fuel as [| fuel IH]; intros b b' Hb; simpl.
  - destruct (startswith (hash b) p); intros H; inversion H; subst.
    exists 0%nat. repeat split; [ lia | lia | intros; lia ].
  - destruct (startswith (hash b) p) eqn:E.
    + intros H; inversion H; subst.
      exists 0%nat. repeat split; [ lia | lia | intros; lia ].
    + destruct (mine_step b) as [b1 | e] eqn:E1; [ | discriminate ].
      intros H. apply IH in H; [ | eapply mine_step_hash; eauto ].
      destruct H as (k & Hk & Hn & Hleast).
      pose proof (mine_step_frame _ _ E1) as (Hi & Ht & Hd & Hp & Hn1).
      exists (S k). repeat split; [ lia | lia | ].
      intros j h Hj Hh. destruct j as [| j].
      * replace (nonce b + Z.of_nat 0) with (nonce b) in Hh by lia.
        rewrite set_nonce_same, Hb in Hh. inversion Hh; subst. exact E.
      * apply (Hleast j h); [ lia | ].
        rewrite <- Hh. apply calculate_hash_fields; simpl; auto. lia.
Qed.

(** The nonce [mine_block] stops at is the least one, from the nonce of
    the block upwards, whose hash starts with the zeros asked for. *)
Lemma mine_block_least_nonce (fuel : nat) (difficulty : Z) (b b' : Block)
    (out : list line) :
  calculate_hash b = Ok (hash b) ->
  mine_block fuel difficulty b = (out, Done b') ->
  exists k, (k <= fuel)%nat /\ nonce b' = nonce b + Z.of_nat k /\
    forall j h, (j < k)%nat ->
      calculate_hash (set_nonce b (nonce b + Z.of_nat j)) = Ok h ->
      startswith h (str_mul "0" difficulty) = false.
Proof.
  intros Hb H. apply mine_block_Done in H. destruct H as [H _].
  eapply mine_loop_least; eauto.
Qed.

Lemma mine_block_least_nonce_witness :
  exists k, (k <= 4)%nat /\ nonce Demo.mined1 = nonce Demo.block1 + Z.of_nat k /\
    forall j h, (j < k)%nat ->
      calculate_hash (set_nonce Demo.block1 (nonce Demo.block1 + Z.of_nat j)) = Ok h ->
      startswith h (str_mul "0" 3) = false.
Proof.
  apply (mine_block_least_nonce 4 3 Demo.block1 Demo.mined1
           [BlockMined (hash Demo.mined1)]); vm_compute; reflexivity.
Defined.

(** A call of [mine_pending_ids] with records to mine and a difficulty
    above sixty-four does not return. *)
Lemma mine_pending_ids_too_hard (fuel : nat) (now : pyfloat) (difficulty : Z)
    (self self' : Blockchain) (out : list line) :
  64 < difficulty ->
  pending_ids self <> [] ->
  mine_pending_ids fuel now difficulty self <> (out, Done self').
Proof.
  intros Hd Hp H. apply mine_pending_ids_Done in H.
  destruct H as [(E & _) | (_ & last & b & _ & _ & _ & _ & _ & _ & Hs & Hh & _)];
    [ contradiction | ].
  apply prefix_length in Hs. apply calculate_hash_digits in Hh.
  unfold str_mul in Hs. rewrite repeat_char_length in Hs. lia.
Qed.

Lemma mine_pending_ids_too_hard_witness :
  mine_pending_ids 3 Demo.t1 65 Demo.ledger1 <> ([], Done Demo.ledger1).
Proof.
  apply mine_pending_ids_too_hard; [ lia | discriminate ].
Defined.

(** ** What validation reports, and what it does not look at *)

Lemma check_blocks_false (chain : list Block) (indices : list nat) out :
  check_blocks chain indices = (out, Done false) ->
  exists pre i post current previous recomputed,
    indices = (pre ++ i :: post)%list /\
    check_blocks chain pre = ([], Done true) /\
    nth_error chain i = Some current /\
    nth_error chain (i - 1) = Some previous /\
    calculate_hash current = Ok recomputed /\
    ((out = [HashCorrupted i] /\ hash current <> recomputed) \/
     (out = [NotLinked i] /\ hash current = recomputed /\
      previous_hash current <> hash previous)).
Proof.
  induction indices as [| i rest IH]; simpl; [ discriminate | ].
  unfold lift, list_get.
  destruct (nth_error chain i) as [c |] eqn:Ec; simpl; [ | discriminate ].
  destruct (nth_error chain (i - 1)) as [p |] eqn:Ep; simpl; [ | discriminate ].
  destruct (calculate_hash c) as [h |] eqn:Eh; simpl; [ | discriminate ].
  destruct (String.eqb (hash c) h) eqn:E1; simpl.
  - destruct (String.eqb (previous_hash c) (hash p)) eqn:E2; simpl.
    + destruct (check_blocks chain rest) as [o r] eqn:Er. intros H.
      assert (Hr : (o, r) = (out, Done false)).
      { destruct r; simpl in H; inversion H; subst;
          rewrite ?app_nil_r; reflexivity. }
      apply IH in Hr.
      destruct Hr as (pre & j & post & cur & prev & rec & -> & Hpre & Hrest).
      exists (i :: pre), j, post, cur, prev, rec. split; [ reflexivity | ].
      split; [ | exact Hrest ].
      simpl. unfold lift, list_get. rewrite Ec, Ep. simpl. rewrite Eh. simpl.
      rewrite E1, E2. simpl. rewrite Hpre. reflexivity.
    + intros H. inversion H; subst.
      exists [], i, rest, c, p, h. repeat split; auto.
      right. apply String.eqb_eq in E1. apply String.eqb_neq in E2. auto.
  - intros H. inversion H; subst.
    exists [], i, rest, c, p, h. repeat split; auto.
    left. apply String.eqb_neq in E1. auto.
Qed.

Lemma seq_split_at (start len : nat) (pre post : list nat) (i : nat) :
  seq start len = (pre ++ i :: post)%list ->
  pre = seq start (i - start) /\ (start <= i < start + len)%nat.
Proof.
  revert start pre. induction len as [| len IH]; intros start pre; simpl.
  - destruct pre; discriminate.
  - destruct pre as [| x pre]; simpl; intros H; injection H as Hx Hrest.
    + subst i. rewrite Nat.sub_diag. split; [ reflexivity | lia ].
    + apply IH in Hrest. destruct Hrest as [-> Hi]. subst x.
      split; [ | lia ].
      replace (i - start)%nat with (S (i - S start)) by lia. reflexivity.
Qed.

(** A verdict of [False] comes with exactly one line, which names the
    first block, in chain order, that fails a check; the check of the
    stored hash comes before the check of the link. *)
Lemma is_chain_valid_false (self : Blockchain) (out : list line) :
  is_chain_valid self = (out, Done false) ->
  exists i current previous recomputed,
    (1 <= i < List.length (chain self))%nat /\
    nth_error (chain self) i = Some current /\
    nth_error (chain self) (i - 1) = Some previous /\
    calculate_hash current = Ok recomputed /\
    (forall j c p, (1 <= j < i)%nat ->
       nth_error (chain self) j = Some c ->
       nth_error (chain self) (j - 1) = Some p ->
       calculate_hash c = Ok (hash c) /\ previous_hash c = hash p) /\
    ((out = [HashCorrupted i] /\ hash current <> recomputed) \/
     (out = [NotLinked i] /\ hash current = recomputed /\
      previous_hash current <> hash previous)).
Proof.
  unfold is_chain_valid. intros H. apply check_blocks_false in H.
  destruct H as (pre & i & post & cur & prev & rec & Hseq & Hpre & Hc & Hp & Hh & Hout).
  apply seq_split_at in Hseq. destruct Hseq as [-> Hi].
  apply check_blocks_sound in Hpre. destruct Hpre as [_ Hpre].
  exists i, cur, prev, rec.
  split; [ lia | ]. split; [ exact Hc | ]. split; [ exact Hp | ].
  split; [ exact Hh | ]. split; [ | exact Hout ].
  intros j c p Hj Hjc Hjp. apply (Hpre j c p); auto.
  apply in_seq. lia.
Qed.

Lemma is_chain_valid_false_witness :
  exists i current previous recomputed,
    (1 <= i < List.length (chain demo_tampered))%nat /\
    nth_error (chain demo_tampered) i = Some current /\
    nth_error (chain demo_tampered) (i - 1) = Some previous /\
    calculate_hash current = Ok recomputed /\
    (forall j c p, (1 <= j < i)%nat ->
       nth_error (chain demo_tampered) j = Some c ->
       nth_error (chain demo_tampered) (j - 1) = Some p ->
       calculate_hash c = Ok (hash c) /\ previous_hash c = hash p) /\
    (([HashCorrupted 1] = [HashCorrupted i] /\ hash current <> recomputed) \/
     ([HashCorrupted 1] = [NotLinked i] /\ hash current = recomputed /\
      previous_hash current <> hash previous)).
Proof.
  apply (is_chain_valid_false demo_tampered [HashCorrupted 1]).
  vm_compute. reflexivity.
Defined.

Lemma check_blocks_genesis (g g' : Block) (rest : list Block) (indices : list nat) :
  hash g' = hash g ->
  (forall i, In i indices -> (1 <= i)%nat) ->
  check_blocks (g' :: rest) indices = check_blocks (g :: rest) indices.
Proof.
  intros Hh. induction indices as [| i l IH]; intros Hi; [ reflexivity | ].
  assert (H1 : (1 <= i)%nat) by (apply Hi; left; reflexivity).
  assert (IH' : check_blocks (g' :: rest) l = check_blocks (g :: rest) l)
    by (apply IH; intros j Hj; apply Hi; right; exact Hj).
  destruct i as [| i]; [ lia | ].
  simpl check_blocks. unfold list_get at 1 3. simpl nth_error.
  destruct (nth_error rest i) as [c |]; [ | reflexivity ].
  simpl. replace (i - 0)%nat with i by lia. unfold list_get.
  destruct i as [| i]; simpl nth_error.
  - simpl. destruct (calculate_hash c) as [h |]; [ | reflexivity ].
    simpl. rewrite Hh, IH'. reflexivity.
  - destruct (nth_error rest i) as [p |]; [ | reflexivity ].
    simpl. destruct (calculate_hash c) as [h |]; [ | reflexivity ].
    simpl. rewrite IH'. reflexivity.
Qed.

(** Validation reads nothing of the first block but its stored hash, and
    nothing of the pending records: the contents of the genesis block
    can be replaced without a change of the verdict or of the output. *)
Lemma is_chain_valid_ignores_genesis (g g' : Block) (rest : list Block)
    (pending pending' : list pyval) :
  hash g' = hash g ->
  is_chain_valid (mkBlockchain (g' :: rest) pending')
  = is_chain_valid (mkBlockchain (g :: rest) pending).
Proof.
  intros Hh. unfold is_chain_valid. simpl.
  apply check_blocks_genesis; [ exact Hh | ].
  intros i Hi. apply in_seq in Hi. lia.
Qed.

(** Validation does not look at the proof of work: when the last block
    of a chain is replaced by a block with the same link that stores its
    recomputed hash, whatever its records and its nonce, the chain stays
    valid. *)
Lemma rehashed_block_accepted (front : list Block) (b b' : Block) (h : string)
    (pending : list pyval) :
  is_chain_valid (mkBlockchain (front ++ [b]) pending) = ([], Done true) ->
  front <> [] ->
  previous_hash b' = previous_hash b ->
  calculate_hash b' = Ok h ->
  is_chain_valid (mkBlockchain (front ++ [set_hash b' h]) pending) = ([], Done true).
Proof.
  intros Hv Hf Hp Hh.
  assert (WL : well_linked (front ++ [b])).
  { apply (is_chain_valid_true (mkBlockchain (front ++ [b]) pending)). eauto. }
  assert (L : (1 <= List.length front)%nat).
  { destruct front; [ contradiction | simpl; lia ]. }
  unfold is_chain_valid. simpl chain.
  apply check_blocks_complete; [ | intros i Hi; apply in_seq in Hi; lia ].
  intros i cur prev Hi Hc Hpv.
  destruct (Nat.lt_ge_cases i (List.length front)) as [Hlt | Hge].
  - rewrite nth_error_app1 in Hc, Hpv by lia.
    apply (WL i cur prev Hi); rewrite nth_error_app1 by lia; assumption.
  - assert (Ei : i = List.length front).
    { assert (i < List.length (front ++ [set_hash b' h]))%nat
        by (apply nth_error_Some; congruence).
      rewrite length_app in H. simpl in H. lia. }
    subst i. rewrite nth_error_app2 in Hc by lia.
    rewrite Nat.sub_diag in Hc. simpl in Hc. inversion Hc; subst cur.
    rewrite nth_error_app1 in Hpv by lia.
    destruct (WL (List.length front) b prev) as [_ Hl]; [ lia | | | ].
    + rewrite nth_error_app2 by lia. rewrite Nat.sub_diag. reflexivity.
    + rewrite nth_error_app1 by lia. exact Hpv.
    + split; [ | simpl; congruence ].
      rewrite calculate_hash_set_hash. simpl. exact Hh.
Qed.

Lemma is_chain_valid_ignores_genesis_witness :
  is_chain_valid (mkBlockchain [demo_genesis_rewritten; Demo.mined1] [Demo.record])
  = is_chain_valid (mkBlockchain [demo_genesis; Demo.mined1] []).
Proof.
  apply (is_chain_valid_ignores_genesis demo_genesis demo_genesis_rewritten
           [Demo.mined1] [] [Demo.record]).
  reflexivity.
Defined.

Lemma rehashed_block_accepted_witness :
  is_chain_valid
    (mkBlockchain ([demo_genesis] ++ [set_hash demo_block1_tampered demo_block1_rehash]) [])
  = ([], Done true).
Proof.
  apply (rehashed_block_accepted [demo_genesis] Demo.mined1 demo_block1_tampered
           demo_block1_rehash []).
  - vm_compute. reflexivity.
  - discriminate.
  - reflexivity.
  - vm_compute. reflexivity.
Defined.

(** ** Invariants of a ledger *)

Lemma reachable_inv (self : Blockchain) :
  reachable self ->
  exists g rest, chain self = g :: rest /\
    index g = 0 /\ digital_ids g = genesis_ids /\ previous_hash g = "0" /\
    nonce g = 0 /\
    Forall (fun b => digital_ids b <> []) rest /\
    (forall i b, nth_error (chain self) i = Some b ->
       index b = Z.of_nat i /\ calculate_hash b = Ok (hash b)).
Proof.
  induction 1 as [now self Hinit | self r _ IH | self self' fuel now d out _ IH Hm].
  - unfold Blockchain_init, create_genesis_block in Hinit.
    apply bind_Ok in Hinit. destruct Hinit as (g & Hg & Hinit).
    inversion Hinit; subst self. simpl chain.
    apply Block_init_Ok in Hg. destruct Hg as (Hi & _ & Hd & Hp & Hn & Hh).
    exists g, []. repeat split; auto.
    + destruct i as [| i]; simpl in H; [ | destruct i; discriminate ].
      inversion H; subst b. exact Hi.
    + destruct i as [| i]; simpl in H; [ | destruct i; discriminate ].
      inversion H; subst b. exact Hh.
  - exact IH.
  - apply mine_pending_ids_Done in Hm.
    destruct Hm as [(_ & -> & _) | (Hne & last & b & Hl & -> & Hi & _ & Hd & _ & _ & Hh & _)];
      [ exact IH | ].
    destruct IH as (g & rest & Hc & H0 & H1 & H2 & H3 & Hrest & Hall).
    simpl chain. rewrite Hc. exists g, (rest ++ [b])%list.
    split; [ reflexivity | ]. repeat split; auto.
    + apply Forall_app. split; [ exact Hrest | ].
      constructor; [ congruence | constructor ].
    + rewrite <- Hc in H.
      apply last_block_nth in Hl. destruct Hl as [Hl Hlen].
      destruct (Nat.lt_ge_cases i (List.length (chain self))) as [Hlt | Hge].
      * rewrite nth_error_app1 in H by lia. apply (Hall i b0 H).
      * assert (i < List.length (chain self ++ [b]))%nat
          by (apply nth_error_Some; congruence).
        rewrite length_app in H4. simpl in H4.
        assert (Ei : i = List.length (chain self)) by lia. subst i.
        rewrite nth_error_app2, Nat.sub_diag in H by lia.
        simpl in H. inversion H; subst b0.
        destruct (Hall _ _ Hl) as [Hil _]. rewrite Hi, Hil. lia.
    + rewrite <- Hc in H.
      destruct (Nat.lt_ge_cases i (List.length (chain self))) as [Hlt | Hge].
      * rewrite nth_error_app1 in H by lia. apply (Hall i b0 H).
      * assert (i < List.length (chain self ++ [b]))%nat
          by (apply nth_error_Some; congruence).
        rewrite length_app in H4. simpl in H4.
        assert (Ei : i = List.length (chain self)) by lia. subst i.
        rewrite nth_error_app2, Nat.sub_diag in H by lia.
        simpl in H. inversion H; subst b0. exact Hh.
Qed.

(** In a ledger that [Blockchain()], [register_id] and
    [mine_pending_ids] produce, the index of a block is its position in
    the chain, and [last_block] returns the block whose index is the
    length of the chain less one. *)
Lemma reachable_indices (self : Blockchain) :
  reachable self ->
  (forall i b, nth_error (chain self) i = Some b -> index b = Z.of_nat i) /\
  exists last, last_block self = Ok last /\
    index last = Z.of_nat (List.length (chain self)) - 1.
Proof.
  intros H. apply reachable_inv in H.
  destruct H as (g & rest & Hc & _ & _ & _ & _ & _ & Hall).
  split; [ intros i b Hb; apply (Hall i b Hb) | ].
  unfold last_block. rewrite Hc. simpl List.length.
  destruct (nth_error (g :: rest) (List.length rest)) as [last |] eqn:E.
  - exists last. unfold list_get. rewrite E. split; [ reflexivity | ].
    rewrite <- Hc in E. destruct (Hall _ _ E) as [-> _]. lia.
  - apply nth_error_None in E. simpl in E. lia.
Qed.

Lemma reachable_indices_witness :
  (forall i b, nth_error (chain Demo.ledger2) i = Some b -> index b = Z.of_nat i) /\
  exists last, last_block Demo.ledger2 = Ok last /\
    index last = Z.of_nat (List.length (chain Demo.ledger2)) - 1.
Proof.
  apply reachable_indices.
  exact (proj2 demo_reachable).
Defined.

(** The first block of such a ledger is the genesis block as
    [create_genesis_block] made it, and every later block holds at least
    one record. *)
Lemma reachable_genesis (self : Blockchain) :
  reachable self ->
  exists g rest, chain self = g :: rest /\
    index g = 0 /\ digital_ids g = genesis_ids /\ previous_hash g = "0" /\
    nonce g = 0 /\
    Forall (fun b => digital_ids b <> []) rest.
Proof.
  intros H. apply reachable_inv in H.
  destruct H as (g & rest & Hc & H0 & H1 & H2 & H3 & Hrest & _).
  exists g, rest. repeat split; assumption.
Qed.

Lemma reachable_genesis_witness :
  exists g rest, chain Demo.ledger2 = g :: rest /\
    index g = 0 /\ digital_ids g = genesis_ids /\ previous_hash g = "0" /\
    nonce g = 0 /\
    Forall (fun b => digital_ids b <> []) rest.
Proof.
  apply reachable_genesis.
  exact (proj2 demo_reachable).
Defined.

(** Every block of such a ledger, the genesis block too, stores the hash
    of its present contents, which is sixty-four lower-case hexadecimal
    digits. *)
Lemma reachable_hashes (self : Blockchain) (b : Block) :
  reachable self -> In b (chain self) ->
  calculate_hash b = Ok (hash b) /\
  String.length (hash b) = 64%nat /\ all_chars hex_lower (hash b) = true.
Proof.
  intros H Hb. apply reachable_inv in H.
  destruct H as (g & rest & _ & _ & _ & _ & _ & _ & Hall).
  apply In_nth_error in Hb. destruct Hb as [i Hi].
  destruct (Hall _ _ Hi) as [_ Hh].
  split; [ exact Hh | ]. apply (calculate_hash_digits b). exact Hh.
Qed.

Lemma reachable_hashes_witness :
  calculate_hash Demo.mined1 = Ok (hash Demo.mined1) /\
  String.length (hash Demo.mined1) = 64%nat /\
  all_chars hex_lower (hash Demo.mined1) = true.
Proof.
  apply (reachable_hashes Demo.ledger2 Demo.mined1).
  - exact (proj2 demo_reachable).
  - right. left. reflexivity.
Defined.

(** ** Registering and mining together *)

Lemma register_all_spec (rs : list pyval) :
  forall self,
    chain (register_all rs self) = chain self /\
    pending_ids (register_all rs self) = (pending_ids self ++ rs)%list.
Proof.
  unfold register_all.
  induction rs as [| r rs IH]; intros self; simpl.
  - rewrite app_nil_r. auto.
  - destruct (IH (register_id r self)) as [Hc Hp]. rewrite Hc, Hp. simpl.
    rewrite <- app_assoc. auto.
Qed.

(** Records registered one after the other and then mined make one new
    block, which holds what was pending before followed by the new
    records in the order of their registration; nothing stays pending. *)
Lemma register_all_then_mine (fuel : nat) (now : pyfloat) (difficulty : Z)
    (rs : list pyval) (self self' : Blockchain) (out : list line) :
  rs <> [] ->
  mine_pending_ids fuel now difficulty (register_all rs self) = (out, Done self') ->
  exists last b,
    last_block self = Ok last /\
    self' = mkBlockchain (chain self ++ [b])%list [] /\
    digital_ids b = (pending_ids self ++ rs)%list /\
    index b = index last + 1 /\ previous_hash b = hash last /\
    out = [MiningBlock (index last + 1)
             (List.length (pending_ids self) + List.length rs);
           BlockMined (hash b)].
Proof.
  intros Hrs H. destruct (register_all_spec rs self) as [Hc Hp].
  apply mine_pending_ids_Done in H.
  destruct H as [(E & _) | (_ & last & b & Hl & -> & Hi & _ & Hd & Hprev & _ & _ & ->)].
  - rewrite Hp in E. apply app_eq_nil in E. destruct E as [_ E]. contradiction.
  - exists last, b. unfold last_block in Hl. rewrite Hc in Hl.
    rewrite Hc, Hp in *. rewrite length_app. repeat split; auto.
Qed.

Lemma register_all_then_mine_witness :
  exists last b,
    last_block Demo.ledger0 = Ok last /\
    Demo.ledger2 = mkBlockchain (chain Demo.ledger0 ++ [b])%list [] /\
    digital_ids b = (pending_ids Demo.ledger0 ++ [Demo.record])%list /\
    index b = index last + 1 /\ previous_hash b = hash last /\
    [MiningBlock 1 1; BlockMined (hash Demo.mined1)]
    = [MiningBlock (index last + 1)
         (List.length (pending_ids Demo.ledger0) + List.length [Demo.record]);
       BlockMined (hash b)].
Proof.
  apply (register_all_then_mine 4 Demo.t1 3 [Demo.record] Demo.ledger0 Demo.ledger2).
  - discriminate.
  - vm_compute. reflexivity.
Defined.

(** A second call of [mine_pending_ids] straight after one that returned
    finds nothing to mine and leaves the ledger as it is. *)
Lemma mine_pending_ids_twice (fuel fuel' : nat) (now now' : pyfloat)
    (difficulty difficulty' : Z) (self self' : Blockchain) (out : list line) :
  mine_pending_ids fuel now difficulty self = (out, Done self') ->
  mine_pending_ids fuel' now' difficulty' self' = ([NoNewIds], Done self').
Proof.
  intros H. apply mine_pending_ids_Done in H.
  destruct H as [(Hp & -> & _) | (_ & last & b & _ & -> & _)].
  - unfold mine_pending_ids. rewrite Hp. reflexivity.
  - reflexivity.
Qed.

Lemma mine_pending_ids_twice_witness :
  mine_pending_ids 0 Demo.t0 5 Demo.ledger2 = ([NoNewIds], Done Demo.ledger2).
Proof.
  apply (mine_pending_ids_twice 4 0 Demo.t1 Demo.t0 3 5 Demo.ledger1 Demo.ledger2
           [MiningBlock 1 1; BlockMined (hash Demo.mined1)]).
  vm_compute. reflexivity.
Defined.

(** ** Records of id_system.py *)

Lemma getitem_setitem_same (d d' v : pyval) (key : string) :
  setitem d key v = Ok d' -> getitem d' key = Ok v.
Proof.
  destruct d; simpl; try discriminate. intros H. inversion H; subst. clear H.
  induction items as [| [k x] items IH]; simpl.
  - rewrite String.eqb_refl. reflexivity.
  - destruct (pykey_eqb k (KStr key)) eqn:E; simpl; rewrite E; [ reflexivity | ].
    exact IH.
Qed.

Lemma generate_pqc_id_Ok (P : SignatureProvider) (e_key e_sign : entropy)
    (now : pyfloat) (user_info digital_id : pyval) (secret_key_hex : string) :
  generate_pqc_id e_key e_sign now user_info = Ok (digital_id, secret_key_hex) ->
  exists data_hash signature,
    data_digest user_info = Ok data_hash /\
    sign e_sign (snd (generate_keypair e_key)) data_hash = Ok signature /\
    secret_key_hex = Hex.hex (snd (generate_keypair e_key)) /\
    digital_id =
      PyDict [ (KStr "id_type", PyStr "E-GOV_PQC_ID");
               (KStr "pqc_scheme", PyStr ML_DSA);
               (KStr "user_data", user_info);
               (KStr "public_key", PyStr (Hex.hex (fst (generate_keypair e_key))));
               (KStr "signature", PyStr (Hex.hex signature));
               (KStr "timestamp", PyFloat now) ].
Proof.
  unfold generate_pqc_id. destruct (generate_keypair e_key) as [pk sk].
  intros H. inv_bind H. inv_bind H. inversion H; subst.
  exists x, x0. auto.
Qed.

(** What verification computes on a generated record whose user data
    were replaced: the provider's verdict on the digest of the new data,
    under the public key and the signature of the record. *)
Lemma verify_replaced_user_data (P : SignatureProvider) (e_key e_sign : entropy)
    (now : pyfloat) (user_info digital_id : pyval) (secret_key_hex : string) :
  generate_pqc_id e_key e_sign now user_info = Ok (digital_id, secret_key_hex) ->
  exists data_hash signature,
    data_digest user_info = Ok data_hash /\
    sign e_sign (snd (generate_keypair e_key)) data_hash = Ok signature /\
    forall new_data tampered_id,
      setitem digital_id "user_data" new_data = Ok tampered_id ->
      verify_body tampered_id =
      (new_hash <- data_digest new_data ;;
       verify (fst (generate_keypair e_key)) new_hash signature).
Proof.
  intros H. apply generate_pqc_id_Ok in H.
  destruct H as (m & sig & Hm & Hs & _ & ->).
  exists m, sig. split; [ exact Hm | split; [ exact Hs | ] ].
  intros u' d' Hset. simpl in Hset. inversion Hset; subst d'. clear Hset.
  unfold verify_body. simpl. rewrite !fromhex_hex. simpl. reflexivity.
Qed.

Lemma verify_replaced_user_data_witness :
  exists data_hash signature,
    data_digest Demo.user_data = Ok data_hash /\
    @sign Demo.provider "" (snd (@generate_keypair Demo.provider "k1")) data_hash
    = Ok signature /\
    forall new_data tampered_id,
      setitem Demo.record "user_data" new_data = Ok tampered_id ->
      @verify_body Demo.provider tampered_id =
      (new_hash <- data_digest new_data ;;
       @verify Demo.provider (fst (@generate_keypair Demo.provider "k1"))
         new_hash signature).
Proof.
  apply (verify_replaced_user_data Demo.provider "k1" "" (mkFloat "1700000001.0")
           Demo.user_data Demo.record "6b31").
  vm_compute. reflexivity.
Defined.

(** The tampering of the test of id_system.py is detected: a generated
    record whose user data were replaced by data with another encoding
    is rejected, when SHA-256 tells the two encodings apart and the
    provider accepts the signature for no other digest. *)
Lemma id_tamper_detected (P : SignatureProvider) (e_key e_sign : entropy)
    (now : pyfloat) (user_info new_data digital_id tampered_id : pyval)
    (secret_key_hex text text' : string) :
  generate_pqc_id e_key e_sign now user_info = Ok (digital_id, secret_key_hex) ->
  setitem digital_id "user_data" new_data = Ok tampered_id ->
  Json.dumps user_info = Ok text ->
  Json.dumps new_data = Ok text' ->
  Sha256.digest text <> Sha256.digest text' ->
  (forall signature message,
     sign e_sign (snd (generate_keypair e_key)) (Sha256.digest text) = Ok signature ->
     message <> Sha256.digest text ->
     verify (fst (generate_keypair e_key)) message signature = Ok false) ->
  verify_pqc_id tampered_id = ([], false).
Proof.
  intros Hg Hset Ht Ht' Hsha Hbind.
  apply generate_pqc_id_Ok in Hg.
  destruct Hg as (m & sig & Hm & Hs & _ & ->).
  simpl in Hset. inversion Hset; subst tampered_id. clear Hset.
  unfold data_digest in Hm. rewrite Ht in Hm. simpl in Hm. inversion Hm; subst m.
  unfold verify_pqc_id, verify_body. simpl. rewrite !fromhex_hex. simpl.
  unfold data_digest. rewrite Ht'. simpl.
  rewrite (Hbind sig (Sha256.digest text')); auto.
Qed.

Lemma id_tamper_detected_witness :
  @verify_pqc_id Demo.provider demo_tampered_id = ([], false).
Proof.
  destruct (Json.dumps Demo.user_data) as [text |] eqn:E1;
    [ | vm_compute in E1; discriminate ].
  destruct (Json.dumps demo_new_data) as [text' |] eqn:E2;
    [ | vm_compute in E2; discriminate ].
  apply (id_tamper_detected Demo.provider "k1" "" (mkFloat "1700000001.0")
           Demo.user_data demo_new_data Demo.record demo_tampered_id "6b31"
           text text').
  - vm_compute. reflexivity.
  - reflexivity.
  - exact E1.
  - exact E2.
  - vm_compute in E1, E2. inversion E1; inversion E2; subst.
    vm_compute. discriminate.
  - intros signature message Hs Hne.
    change (Ok ("k1" ++ Sha256.digest text) = Ok signature) in Hs.
    inversion Hs; subst signature.
    change (Ok (String.eqb ("k1" ++ Sha256.digest text) ("k1" ++ message)) = Ok false).
    f_equal. apply String.eqb_neq. intros E. apply Hne.
    apply append_inv_head in E. symmetry. exact E.
Defined.

(** ** Records that can, or cannot, be encoded *)

Lemma key_lt_raises (a b : pykey) (e : exn) :
  Json.key_lt a b = Raise e -> e = TypeError.
Proof.
  destruct a, b; simpl; try discriminate; intros H; inversion H; reflexivity.
Qed.

Lemma insert_item_raises {A : Type} (x : pykey * A) (l : list (pykey * A)) (e : exn) :
  Json.insert_item x l = Raise e -> e = TypeError.
Proof.
  induction l as [| y l IH]; simpl; [ discriminate | ].
  destruct (Json.key_lt (fst x) (fst y)) as [[] | e'] eqn:E; simpl.
  - discriminate.
  - destruct (Json.insert_item x l); simpl; [ discriminate | ].
    intros H. inversion H; subst. apply IH. reflexivity.
  - intros H. inversion H; subst. eapply key_lt_raises; eauto.
Qed.

Lemma sort_items_raises {A : Type} (l : list (pykey * A)) (e : exn) :
  Json.sort_items l = Raise e -> e = TypeError.
Proof.
  induction l as [| x l IH]; simpl; [ discriminate | ].
  destruct (Json.sort_items l) as [s | e']; simpl.
  - apply insert_item_raises.
  - intros H. inversion H; subst. apply IH. reflexivity.
Qed.

Lemma dumps_raises (v : pyval) : forall e, Json.dumps v = Raise e -> e = TypeError.
Proof.
  induction v using pyval_nested_ind; intros e;
    try (simpl; discriminate); try (destruct b; simpl; discriminate).
  - simpl. intros E. inversion E. reflexivity.
  - rewrite JsonFacts.dumps_PyList.
    induction H as [| x l Hx _ IH]; simpl; [ discriminate | ].
    destruct (Json.dumps x) as [s | e'] eqn:Ex; simpl.
    + destruct (Json.dumps_list l) as [r | e'']; simpl; [ discriminate | ].
      intros E. inversion E; subst. apply IH. reflexivity.
    + intros E. inversion E; subst. apply Hx. reflexivity.
  - rewrite JsonFacts.dumps_PyTuple.
    induction H as [| x l Hx _ IH]; simpl; [ discriminate | ].
    destruct (Json.dumps x) as [s | e'] eqn:Ex; simpl.
    + destruct (Json.dumps_list l) as [r | e'']; simpl; [ discriminate | ].
      intros E. inversion E; subst. apply IH. reflexivity.
    + intros E. inversion E; subst. apply Hx. reflexivity.
  - rewrite JsonFacts.dumps_PyDict.
    destruct (Json.dumps_items items) as [parts | e'] eqn:Ei; simpl.
    + destruct (Json.sort_items parts) as [s | e''] eqn:Es; simpl; [ discriminate | ].
      intros E. inversion E; subst. eapply sort_items_raises; eauto.
    + intros E. inversion E; subst. clear E. revert e Ei.
      induction H as [| [k x] l Hx _ IH]; simpl; [ discriminate | ].
      intros e. destruct (Json.dumps x) as [s | e'] eqn:Ex; simpl.
      * destruct (Json.dumps_items l) as [r | e'']; simpl; [ discriminate | ].
        intros E. inversion E; subst. apply IH. reflexivity.
      * intros E. inversion E; subst. apply Hx. exact Ex.
Qed.

Lemma dumps_list_Ok (l : list pyval) :
  (forall r, In r l -> exists s, Json.dumps r = Ok s) ->
  exists records, Json.dumps_list l = Ok records.
Proof.
  induction l as [| x l IH]; intros H; simpl; [ eauto | ].
  destruct (H x (or_introl eq_refl)) as [s ->]. simpl.
  destruct IH as [r ->]; [ intros y Hy; apply H; right; exact Hy | ].
  simpl. eauto.
Qed.

Lemma dumps_list_Raise (l : list pyval) (r : pyval) (e : exn) :
  In r l -> Json.dumps r = Raise e -> Json.dumps_list l = Raise TypeError.
Proof.
  induction l as [| x l IH]; intros Hin Hr; [ contradiction | ].
  simpl. destruct (Json.dumps x) as [s | e'] eqn:Ex; simpl.
  - destruct Hin as [-> | Hin]; [ congruence | ].
    rewrite (IH Hin Hr). reflexivity.
  - apply dumps_raises in Ex. subst. reflexivity.
Qed.

Lemma Block_init_Raise (now : pyfloat) (i : Z) (ids : list pyval) (prev : string) :
  Json.dumps_list ids = Raise TypeError ->
  Block_init now i ids prev = Raise TypeError.
Proof.
  intros H. unfold Block_init, calculate_hash. rewrite block_string_text.
  simpl digital_ids. rewrite H. reflexivity.
Qed.

Lemma Block_init_defined (now : pyfloat) (i : Z) (ids : list pyval) (prev : string) :
  (exists records, Json.dumps_list ids = Ok records) ->
  exists b, Block_init now i ids prev = Ok b.
Proof.
  intros H. unfold Block_init.
  destruct (proj2 (calculate_hash_defined (mkBlock i now ids prev 0 "")) H) as [h ->].
  simpl. eauto.
Qed.

Lemma mine_loop_no_raise (fuel : nat) (p : string) :
  forall b e, (exists h, calculate_hash b = Ok h) -> mine_loop fuel p b <> Raised e.
Proof.
  induction fuel as [| fuel IH]; intros b e Hb; simpl.
  - destruct (startswith (hash b) p); discriminate.
  - destruct (startswith (hash b) p); [ discriminate | ].
    destruct (mine_step b) as [b1 | e1] eqn:E.
    + apply IH. exists (hash b1). eapply mine_step_hash; eauto.
    + unfold mine_step in E.
      destruct (calculate_hash_set_nonce b (nonce b + 1) Hb) as [h Hh].
      rewrite Hh in E. discriminate.
Qed.



(** A pending record that the encoder refuses stops mining for good:
    the call raises [TypeError] after its first line, the ledger stays
    as it was, and so does every later call, whatever is registered in
    between. *)
Lemma mine_pending_ids_poisoned (fuel : nat) (now : pyfloat) (difficulty : Z)
    (self : Blockchain) (last : Block) (r : pyval) (e : exn) (rs : list pyval) :
  last_block self = Ok last ->
  In r (pending_ids self) ->
  Json.dumps r = Raise e ->
  mine_pending_ids fuel now difficulty (register_all rs self)
  = ([MiningBlock (index last + 1)
        (List.length (pending_ids self) + List.length rs)],
     Raised TypeError).
Proof.
  intros Hl Hin Hr. destruct (register_all_spec rs self) as [Hc Hp].
  unfold mine_pending_ids. rewrite Hp.
  destruct (pending_ids self ++ rs)%list as [| r0 rest] eqn:Ep.
  - apply app_eq_nil in Ep. destruct Ep as [Ep _].
    rewrite Ep in Hin. contradiction.
  - unfold last_block. rewrite Hc. unfold last_block in Hl. rewrite Hl. simpl.
    rewrite Block_init_Raise.
    + simpl. rewrite <- length_app, Ep. reflexivity.
    + rewrite <- Ep. apply (dumps_list_Raise _ r e); [ | exact Hr ].
      apply in_or_app. left. exact Hin.
Qed.

(** A record that [generate_pqc_id] returned is accepted by the encoder,
    so a block that holds it can be hashed. *)
Lemma generated_record_encodable (P : SignatureProvider) (e_key e_sign : entropy)
    (now : pyfloat) (user_info digital_id : pyval) (secret_key_hex : string) :
  generate_pqc_id e_key e_sign now user_info = Ok (digital_id, secret_key_hex) ->
  exists s, Json.dumps digital_id = Ok s.
Proof.
  intros H. apply generate_pqc_id_Ok in H.
  destruct H as (m & sig & Hm & _ & _ & ->).
  unfold data_digest in Hm. inv_bind Hm.
  rewrite JsonFacts.dumps_PyDict. simpl Json.dumps_items. rewrite E. simpl.
  eauto.
Qed.

Lemma generated_record_encodable_witness :
  exists s, Json.dumps Demo.record = Ok s.
Proof.
  apply (generated_record_encodable Demo.provider "k1" "" (mkFloat "1700000001.0")
           Demo.user_data Demo.record "6b31").
  vm_compute. reflexivity.
Defined.

Lemma mine_pending_ids_poisoned_witness :
  mine_pending_ids 5 Demo.t1 3 (register_all [Demo.record] demo_poisoned)
  = ([MiningBlock (index demo_genesis + 1)
        (List.length (pending_ids demo_poisoned) + List.length [Demo.record])],
     Raised TypeError).
Proof.
  apply (mine_pending_ids_poisoned 5 Demo.t1 3 demo_poisoned demo_genesis
           (PyBytes "X") TypeError [Demo.record]).
  - reflexivity.
  - left. reflexivity.
  - reflexivity.
Defined.

(** ** The encoder does not depend on the order of the items of a dict *)

Lemma ascii_compare_refl (a : ascii) : Ascii.compare a a = Eq.
Proof. unfold Ascii.compare. apply N.compare_refl. Qed.

Lemma ascii_compare_trans (a b c : ascii) :
  Ascii.compare a b = Lt -> Ascii.compare b c = Lt -> Ascii.compare a c = Lt.
Proof.
  unfold Ascii.compare. rewrite !N.compare_lt_iff. lia.
Qed.

Lemma string_compare_refl (s : string) : String.compare s s = Eq.
Proof.
  induction s as [| c s IH]; simpl; [ reflexivity | ].
  rewrite ascii_compare_refl. exact IH.
Qed.

Lemma string_compare_trans (a : string) :
  forall b c, String.compare a b = Lt -> String.compare b c = Lt ->
              String.compare a c = Lt.
Proof.
  induction a as [| x a IH]; intros [| y b] [| z c]; simpl; try discriminate; auto.
  destruct (Ascii.compare x y) eqn:Exy; try discriminate.
  - apply Ascii.compare_eq_iff in Exy. subst y.
    destruct (Ascii.compare x z); try discriminate; auto. apply IH.
  - intros _. destruct (Ascii.compare y z) eqn:Eyz; try discriminate.
    + apply Ascii.compare_eq_iff in Eyz. subst z. rewrite Exy. reflexivity.
    + rewrite (ascii_compare_trans _ _ _ Exy Eyz). reflexivity.
Qed.

Lemma key_lt_asym (a b : pykey) :
  Json.key_lt a b = Ok true -> Json.key_lt b a = Ok true -> False.
Proof.
  destruct a as [s | n | x |], b as [t | m | y |]; simpl; try discriminate;
    intros H1 H2; inversion H1 as [E1]; inversion H2 as [E2].
  - unfold String.ltb in E1, E2.
    destruct (String.compare s t) eqn:C1; try discriminate.
    destruct (String.compare t s) eqn:C2; try discriminate.
    pose proof (string_compare_trans _ _ _ C1 C2) as C.
    rewrite string_compare_refl in C. discriminate.
  - lia.
  - lia.
  - lia.
  - lia.
Qed.

Lemma key_lt_total (s t : string) :
  s <> t -> Json.key_lt (KStr s) (KStr t) = Ok false ->
  Json.key_lt (KStr t) (KStr s) = Ok true.
Proof.
  simpl. unfold String.ltb. intros Hne H.
  rewrite (String.compare_antisym t s).
  destruct (String.compare s t) eqn:C; simpl; try discriminate; [ | reflexivity ].
  apply String.compare_eq_iff in C. contradiction.
Qed.

Lemma key_lt_trans (a b c : string) :
  Json.key_lt (KStr a) (KStr b) = Ok true ->
  Json.key_lt (KStr b) (KStr c) = Ok true ->
  Json.key_lt (KStr a) (KStr c) = Ok true.
Proof.
  simpl. unfold String.ltb. intros H1 H2.
  destruct (String.compare a b) eqn:C1; try discriminate.
  destruct (String.compare b c) eqn:C2; try discriminate.
  rewrite (string_compare_trans _ _ _ C1 C2). reflexivity.
Qed.

Lemma insert_item_ascending {A : Type} (x : pykey * A) (l : list (pykey * A)) :
  is_KStr (fst x) = true ->
  forallb is_KStr (map fst l) = true ->
  Forall (fun y => fst y <> fst x) l ->
  ascending l ->
  exists r, Json.insert_item x l = Ok r /\ ascending r.
Proof.
  intros Hx. induction l as [| y l IH]; intros Hk Hd Ha; simpl.
  - eexists. split; [ reflexivity | ]. simpl. auto.
  - simpl in Hk. apply andb_true_iff in Hk. destruct Hk as [Hy Hk].
    inversion Hd as [| ? ? Hne Hd']; subst. destruct Ha as [Hall Ha].
    destruct x as [[a | | |] u]; try discriminate.
    destruct y as [[b | | |] w]; try discriminate.
    simpl fst in *. simpl Json.key_lt.
    destruct (String.ltb a b) eqn:E; simpl.
    + eexists. split; [ reflexivity | ]. simpl. split; [ | auto ].
      constructor; [ unfold key_before; simpl; rewrite E; reflexivity | ].
      rewrite Forall_forall in Hall |- *. intros z Hz.
      specialize (Hall z Hz). unfold key_before in *. simpl fst in *.
      destruct z as [[c | | |] v]; simpl in Hall; try discriminate.
      apply (key_lt_trans a b c); [ simpl; rewrite E; reflexivity | exact Hall ].
    + destruct (IH Hk Hd' Ha) as (r & Hr & Har). rewrite Hr. simpl.
      eexists. split; [ reflexivity | ]. simpl. split; [ | exact Har ].
      apply insert_item_perm in Hr.
      rewrite Forall_forall. intros z Hz.
      apply (Permutation_in _ (Permutation_sym Hr)) in Hz.
      destruct Hz as [<- | Hz].
      * unfold key_before. simpl fst. apply key_lt_total; [ congruence | ].
        simpl. rewrite E. reflexivity.
      * rewrite Forall_forall in Hall. apply Hall. exact Hz.
Qed.

Lemma distinct_keys_head (k : pykey) (ks : list pykey) :
  is_KStr k = true ->
  distinct_keys (k :: ks) = true ->
  Forall (fun k' => k' <> k) ks /\ distinct_keys ks = true.
Proof.
  simpl. intros Hk H. apply andb_true_iff in H. destruct H as [H1 H2].
  split; [ | exact H2 ]. apply negb_true_iff in H1.
  rewrite Forall_forall. intros k' Hin ->.
  assert (existsb (pykey_eqb k) ks = true); [ | congruence ].
  apply existsb_exists. exists k. split; [ exact Hin | ].
  destruct k; try discriminate. simpl. apply String.eqb_refl.
Qed.

Lemma sort_items_ascending {A : Type} (l : list (pykey * A)) :
  forallb is_KStr (map fst l) = true ->
  distinct_keys (map fst l) = true ->
  exists s, Json.sort_items l = Ok s /\ ascending s.
Proof.
  induction l as [| x l IH]; intros Hk Hd; simpl.
  - exists []. simpl. auto.
  - simpl in Hk. apply andb_true_iff in Hk. destruct Hk as [Hx Hk].
    apply distinct_keys_head in Hd; [ | exact Hx ]. destruct Hd as [Hne Hd].
    destruct (IH Hk Hd) as (s & Hs & Ha). rewrite Hs. simpl.
    pose proof (sort_items_perm _ _ Hs) as Hp.
    apply insert_item_ascending; auto.
    + rewrite forallb_forall in Hk |- *. intros k Hin. apply Hk.
      apply in_map_iff in Hin. destruct Hin as (y & <- & Hy).
      apply in_map. apply (Permutation_in _ (Permutation_sym Hp)). exact Hy.
    + rewrite Forall_forall in Hne |- *. intros y Hy. apply Hne.
      apply in_map. apply (Permutation_in _ (Permutation_sym Hp)). exact Hy.
Qed.

Lemma ascending_perm_eq {A : Type} (l : list (pykey * A)) :
  forall l', ascending l -> ascending l' -> Permutation l l' -> l = l'.
Proof.
  induction l as [| x r IH]; intros l' Ha Ha' Hp.
  - apply Permutation_nil in Hp. auto.
  - destruct l' as [| y r'];
      [ apply Permutation_sym, Permutation_nil in Hp; discriminate | ].
    destruct Ha as [Hx Ha], Ha' as [Hy Ha'].
    assert (Exy : x = y).
    { assert (Hin : In x (y :: r')) by (apply (Permutation_in _ Hp); left; reflexivity).
      assert (Hin' : In y (x :: r))
        by (apply (Permutation_in _ (Permutation_sym Hp)); left; reflexivity).
      destruct Hin as [-> | Hin]; [ reflexivity | ].
      destruct Hin' as [-> | Hin']; [ reflexivity | ].
      rewrite Forall_forall in Hx, Hy.
      exfalso. apply (key_lt_asym (fst x) (fst y)); [ apply Hx | apply Hy ]; assumption. }
    subst y. f_equal. apply IH; auto.
    apply (Permutation_cons_inv Hp).
Qed.

Lemma sort_items_canonical {A : Type} (l l' : list (pykey * A)) :
  forallb is_KStr (map fst l) = true ->
  distinct_keys (map fst l) = true ->
  forallb is_KStr (map fst l') = true ->
  distinct_keys (map fst l') = true ->
  Permutation l l' ->
  Json.sort_items l = Json.sort_items l'.
Proof.
  intros Hk Hd Hk' Hd' Hp.
  destruct (sort_items_ascending l Hk Hd) as (s & Hs & Ha).
  destruct (sort_items_ascending l' Hk' Hd') as (s' & Hs' & Ha').
  rewrite Hs, Hs'. f_equal. apply ascending_perm_eq; auto.
  eapply Permutation_trans; [ apply Permutation_sym, (sort_items_perm _ _ Hs) | ].
  eapply Permutation_trans; [ exact Hp | apply (sort_items_perm _ _ Hs') ].
Qed.

Lemma dumps_items_keys (l : list (pykey * pyval)) (parts : list (pykey * string)) :
  Json.dumps_items l = Ok parts -> map fst parts = map fst l.
Proof.
  revert parts. induction l as [| [k x] l IH]; intros parts H; simpl in H.
  - inversion H. reflexivity.
  - inv_bind H. inv_bind H. inversion H; subst. simpl. f_equal. auto.
Qed.

Lemma dumps_items_In (l : list (pykey * pyval)) (parts : list (pykey * string)) :
  Json.dumps_items l = Ok parts ->
  forall k s, In (k, s) parts <-> exists x, In (k, x) l /\ Json.dumps x = Ok s.
Proof.
  revert parts. induction l as [| [k0 x0] l IH]; intros parts H; simpl in H.
  - inversion H. simpl. intros k s. split; [ contradiction | ].
    intros (x & [] & _).
  - inv_bind H. inv_bind H. inversion H; subst. clear H. intros k s.
    specialize (IH _ E0 k s). simpl. split.
    + intros [Hh | Ht].
      * inversion Hh; subst. exists x0. auto.
      * apply IH in Ht. destruct Ht as (y & Hy & Hd). exists y. auto.
    + intros (y & [Hh | Ht] & Hd).
      * inversion Hh; subst. left. congruence.
      * right. apply IH. exists y. auto.
Qed.

Lemma plain_dumps_Ok (v : pyval) :
  plain v = true -> exists s, Json.dumps v = Ok s.
Proof.
  induction v using pyval_nested_ind; intros Hp; simpl in Hp;
    try discriminate; try (simpl; eauto; fail).
  - destruct b; simpl; eauto.
  - rewrite JsonFacts.dumps_PyList.
    destruct (dumps_list_Ok l) as [r ->]; [ | simpl; eauto ].
    intros x Hx. rewrite Forall_forall in H. apply H; [ exact Hx | ].
    rewrite forallb_forall in Hp. apply Hp. exact Hx.
  - rewrite JsonFacts.dumps_PyDict.
    apply andb_true_iff in Hp. destruct Hp as [Hp Hv].
    apply andb_true_iff in Hp. destruct Hp as [Hk Hd].
    assert (Hi : exists parts, Json.dumps_items items = Ok parts).
    { clear Hk Hd. induction H as [| [k x] l Hx _ IH]; simpl; [ eauto | ].
      simpl in Hv. apply andb_true_iff in Hv. destruct Hv as [Hpx Hv].
      simpl in Hx. destruct (Hx Hpx) as [s ->]. simpl.
      destruct (IH Hv) as [r ->]. simpl. eauto. }
    destruct Hi as [parts Hi]. rewrite Hi. simpl.
    pose proof (dumps_items_keys _ _ Hi) as Hkeys.
    destruct (sort_items_ascending parts) as (s & -> & _);
      [ rewrite Hkeys; exact Hk | rewrite Hkeys; exact Hd | ].
    simpl. eauto.
Qed.

Lemma dict_get_Some (items : list (pykey * pyval)) (k : pykey) (y : pyval) :
  dict_get items k = Some y ->
  exists k', In (k', y) items /\ pykey_eqb k' k = true.
Proof.
  induction items as [| [k0 x0] items IH]; simpl; [ discriminate | ].
  destruct (pykey_eqb k0 k) eqn:E.
  - intros H. inversion H; subst. exists k0. auto.
  - intros H. destruct (IH H) as (k' & Hin & Hk). exists k'. auto.
Qed.

Lemma pykey_eqb_KStr (k k' : pykey) :
  is_KStr k = true -> is_KStr k' = true -> pykey_eqb k' k = true -> k' = k.
Proof.
  destruct k, k'; simpl; try discriminate. intros _ _ H.
  apply String.eqb_eq in H. congruence.
Qed.

Lemma distinct_keys_NoDup (ks : list pykey) :
  forallb is_KStr ks = true -> distinct_keys ks = true -> NoDup ks.
Proof.
  induction ks as [| k ks IH]; intros Hk Hd; [ constructor | ].
  simpl in Hk. apply andb_true_iff in Hk. destruct Hk as [Hk Hks].
  apply distinct_keys_head in Hd; [ | exact Hk ]. destruct Hd as [Hne Hd].
  constructor; [ | auto ].
  intros Hin. rewrite Forall_forall in Hne. apply (Hne k Hin). reflexivity.
Qed.

Lemma NoDup_keys {A : Type} (l : list (pykey * A)) :
  NoDup (map fst l) -> NoDup l.
Proof.
  induction l as [| x l IH]; simpl; intros H; [ constructor | ].
  inversion H; subst. constructor; [ | auto ].
  intros Hin. apply H2. apply in_map. exact Hin.
Qed.

Lemma same_items_In (items' l : list (pykey * pyval)) :
  same_items items' l = true ->
  forall k x, In (k, x) l ->
    exists y, dict_get items' k = Some y /\ same_value x y = true.
Proof.
  induction l as [| [k0 x0] l IH]; simpl; intros H k x Hin; [ contradiction | ].
  apply andb_true_iff in H. destruct H as [H1 H2].
  destruct Hin as [Hh | Ht].
  - inversion Hh; subst. destruct (dict_get items' k) as [y |]; [ | discriminate ].
    exists y. auto.
  - apply IH; auto.
Qed.

Lemma plain_PyDict_In (items : list (pykey * pyval)) (k : pykey) (x : pyval) :
  plain (PyDict items) = true -> In (k, x) items ->
  is_KStr k = true /\ plain x = true.
Proof.
  simpl. intros H Hin.
  apply andb_true_iff in H. destruct H as [H Hv].
  apply andb_true_iff in H. destruct H as [Hk _].
  rewrite forallb_forall in Hk, Hv. split.
  - apply Hk. apply (in_map fst _ _ Hin).
  - apply (Hv _ Hin).
Qed.

Lemma plain_PyDict_keys (items : list (pykey * pyval)) :
  plain (PyDict items) = true ->
  forallb is_KStr (map fst items) = true /\ distinct_keys (map fst items) = true.
Proof.
  simpl. intros H.
  apply andb_true_iff in H. destruct H as [H _].
  apply andb_true_iff in H. exact H.
Qed.

(** Two values that differ only in the order of the items of their dicts
    have the same text. *)
Lemma dumps_same_value (v : pyval) :
  forall w, plain v = true -> plain w = true -> same_value v w = true ->
            Json.dumps v = Json.dumps w.
Proof.
  induction v using pyval_nested_ind; intros w Pv Pw Hs;
    destruct w; try discriminate Hs; try discriminate Pv.
  - reflexivity.
  - simpl in Hs. apply Bool.eqb_prop in Hs. subst. reflexivity.
  - simpl in Hs. apply Z.eqb_eq in Hs. subst. reflexivity.
  - simpl in Hs. apply String.eqb_eq in Hs. simpl. unfold Json.floatstr.
    rewrite Hs. reflexivity.
  - simpl in Hs. apply String.eqb_eq in Hs. subst. reflexivity.
  - rewrite same_value_PyList in Hs.
    rewrite !JsonFacts.dumps_PyList.
    assert (E : Json.dumps_list l = Json.dumps_list l0); [ | rewrite E; reflexivity ].
    simpl in Pv, Pw. revert l0 Pw Hs.
    induction H as [| x l Hx _ IH]; intros [| y l0] Pw Hs; simpl in Hs;
      try discriminate; [ reflexivity | ].
    apply andb_true_iff in Hs. destruct Hs as [Hxy Hs].
    simpl in Pv, Pw. apply andb_true_iff in Pv, Pw.
    destruct Pv as [Px Pv], Pw as [Py Pw].
    simpl. rewrite (Hx y Px Py Hxy), (IH Pv l0 Pw Hs). reflexivity.
  - rewrite same_value_PyDict in Hs.
    apply andb_true_iff in Hs. destruct Hs as [Hlen Hs].
    apply Nat.eqb_eq in Hlen.
    destruct (plain_PyDict_keys _ Pv) as [Hk Hd].
    destruct (plain_PyDict_keys _ Pw) as [Hk' Hd'].
    destruct (plain_dumps_Ok _ Pv) as [s Es].
    destruct (plain_dumps_Ok _ Pw) as [s' Es'].
    rewrite JsonFacts.dumps_PyDict in Es, Es' |- *.
    rewrite (JsonFacts.dumps_PyDict items0).
    destruct (Json.dumps_items items) as [parts |] eqn:Ei; [ | discriminate ].
    destruct (Json.dumps_items items0) as [parts' |] eqn:Ei'; [ | discriminate ].
    simpl.
    pose proof (dumps_items_keys _ _ Ei) as Hkeys.
    pose proof (dumps_items_keys _ _ Ei') as Hkeys'.
    assert (Hperm : Permutation parts parts').
    { apply NoDup_Permutation_bis.
      - apply NoDup_keys. rewrite Hkeys. apply distinct_keys_NoDup; assumption.
      - rewrite <- (length_map fst parts'), <- (length_map fst parts).
        rewrite Hkeys, Hkeys', !length_map. lia.
      - intros [k t] Hin.
        apply (dumps_items_In _ _ Ei) in Hin. destruct Hin as (x & Hx & Hdx).
        destruct (same_items_In _ _ Hs k x Hx) as (y & Hy & Hxy).
        apply dict_get_Some in Hy. destruct Hy as (k' & Hin' & Hkk).
        destruct (plain_PyDict_In _ _ _ Pv Hx) as [Kk Px].
        destruct (plain_PyDict_In _ _ _ Pw Hin') as [Kk' Py].
        apply pykey_eqb_KStr in Hkk; auto. subst k'.
        apply (dumps_items_In _ _ Ei'). exists y. split; [ exact Hin' | ].
        rewrite Forall_forall in H. rewrite <- (H (k, x) Hx y Px Py Hxy).
        exact Hdx. }
    rewrite (sort_items_canonical parts parts'); auto;
      rewrite ?Hkeys, ?Hkeys'; assumption.
Qed.

(** Blocks with the same index, timestamp, link and nonce, whose records
    are equal up to the order of the items of their dicts, have the same
    hash: [sort_keys=True] makes the hashed text independent of the
    insertion order. *)
Lemma calculate_hash_same_records (b1 b2 : Block) :
  plain_block b1 = true -> plain_block b2 = true ->
  index b1 = index b2 -> timestamp b1 = timestamp b2 ->
  previous_hash b1 = previous_hash b2 -> nonce b1 = nonce b2 ->
  same_list (digital_ids b1) (digital_ids b2) = true ->
  calculate_hash b1 = calculate_hash b2.
Proof.
  intros P1 P2 Hi Ht Hp Hn Hr. unfold calculate_hash, block_string.
  rewrite (dumps_same_value (block_dict b1) (block_dict b2));
    [ reflexivity | rewrite plain_block_dict; exact P1
    | rewrite plain_block_dict; exact P2 | ].
  unfold block_dict. rewrite same_value_PyDict. simpl.
  rewrite Hi, Ht, Hp, Hn, Z.eqb_refl, Z.eqb_refl, !String.eqb_refl. simpl.
  rewrite andb_true_r.
  change (same_value (PyList (digital_ids b1)) (PyList (digital_ids b2)) = true).
  rewrite same_value_PyList. exact Hr.
Qed.

Lemma calculate_hash_same_records_witness :
  calculate_hash Demo.mined1 = calculate_hash demo_reordered.
Proof.
  apply calculate_hash_same_records; vm_compute; reflexivity.
Defined.

Lemma same_items_keys (items items' : list (pykey * pyval)) :
  plain (PyDict items) = true -> plain (PyDict items') = true ->
  List.length items = List.length items' ->
  same_items items' items = true ->
  forall k, In k (map fst items') -> In k (map fst items).
Proof.
  intros Pv Pw Hlen Hs.
  destruct (plain_PyDict_keys _ Pv) as [Hk Hd].
  destruct (plain_PyDict_keys _ Pw) as [Hk' Hd'].
  apply NoDup_length_incl.
  - apply distinct_keys_NoDup; assumption.
  - rewrite !length_map. lia.
  - intros k Hin. apply in_map_iff in Hin. destruct Hin as ([k0 x] & <- & Hx).
    destruct (same_items_In _ _ Hs k0 x Hx) as (y & Hy & _).
    apply dict_get_Some in Hy. destruct Hy as (k' & Hin' & Hkk).
    destruct (plain_PyDict_In _ _ _ Pv Hx) as [Kk _].
    destruct (plain_PyDict_In _ _ _ Pw Hin') as [Kk' _].
    apply pykey_eqb_KStr in Hkk; auto. subst k'.
    apply (in_map fst _ _ Hin').
Qed.

Lemma getitem_same_value (r1 r2 : pyval) (key : string) :
  plain r1 = true -> plain r2 = true -> same_value r1 r2 = true ->
  match getitem r1 key, getitem r2 key with
  | Ok x, Ok y => plain x = true /\ plain y = true /\ same_value x y = true
  | Raise e, Raise e' => e = e'
  | _, _ => False
  end.
Proof.
  intros P1 P2 Hs.
  destruct r1, r2; try discriminate Hs; try discriminate P1; try reflexivity.
  rewrite same_value_PyDict in Hs.
  apply andb_true_iff in Hs. destruct Hs as [Hlen Hs]. apply Nat.eqb_eq in Hlen.
  destruct (plain_PyDict_keys _ P1) as [Hk Hd].
  destruct (plain_PyDict_keys _ P2) as [Hk' Hd'].
  unfold getitem.
  destruct (dict_get items (KStr key)) as [x |] eqn:E1.
  - apply dict_get_Some in E1. destruct E1 as (k' & Hin & Hkk).
    destruct (plain_PyDict_In _ _ _ P1 Hin) as [Kk Px].
    apply pykey_eqb_KStr in Hkk; auto. subst k'.
    destruct (same_items_In _ _ Hs _ _ Hin) as (y & Hy & Hxy).
    rewrite Hy. apply dict_get_Some in Hy. destruct Hy as (k' & Hin' & _).
    destruct (plain_PyDict_In _ _ _ P2 Hin') as [_ Py]. auto.
  - destruct (dict_get items0 (KStr key)) as [y |] eqn:E2; [ | reflexivity ].
    apply dict_get_Some in E2. destruct E2 as (k' & Hin' & Hkk).
    destruct (plain_PyDict_In _ _ _ P2 Hin') as [Kk' _].
    apply pykey_eqb_KStr in Hkk; auto. subst k'.
    apply (in_map fst) in Hin'. simpl in Hin'.
    apply (same_items_keys items items0 P1 P2 Hlen Hs) in Hin'.
    apply in_map_iff in Hin'. destruct Hin' as ([k x] & Ek & Hx).
    simpl in Ek. subst k.
    rewrite (dict_get_In items (KStr key) x Hk Hd Hx) in E1. discriminate.
Qed.

Lemma bytes_fromhex_same_value (x y : pyval) :
  same_value x y = true -> bytes_fromhex x = bytes_fromhex y.
Proof.
  destruct x, y; intros H; try discriminate H; try reflexivity.
  simpl in H. apply String.eqb_eq in H. subst. reflexivity.
Qed.

(** The verdict and the output of [verify_pqc_id] are the same on two
    records that differ only in the order of the items of their dicts,
    at any depth. *)
Lemma verify_pqc_id_same_value (P : SignatureProvider) (r1 r2 : pyval) :
  plain r1 = true -> plain r2 = true -> same_value r1 r2 = true ->
  verify_pqc_id r1 = verify_pqc_id r2.
Proof.
  intros P1 P2 Hs. unfold verify_pqc_id.
  assert (E : verify_body r1 = verify_body r2); [ | rewrite E; reflexivity ].
  unfold verify_body.
  pose proof (getitem_same_value r1 r2 "public_key" P1 P2 Hs) as Hpk.
  pose proof (getitem_same_value r1 r2 "signature" P1 P2 Hs) as Hsig.
  pose proof (getitem_same_value r1 r2 "user_data" P1 P2 Hs) as Hud.
  destruct (getitem r1 "public_key") as [pk |], (getitem r2 "public_key") as [pk' |];
    try contradiction; simpl; [ | congruence ].
  destruct Hpk as (_ & _ & Hpk). rewrite (bytes_fromhex_same_value _ _ Hpk).
  destruct (bytes_fromhex pk') as [public_key |]; simpl; [ | reflexivity ].
  destruct (getitem r1 "signature") as [sg |], (getitem r2 "signature") as [sg' |];
    try contradiction; simpl; [ | congruence ].
  destruct Hsig as (_ & _ & Hsig). rewrite (bytes_fromhex_same_value _ _ Hsig).
  destruct (bytes_fromhex sg') as [signature |]; simpl; [ | reflexivity ].
  destruct (getitem r1 "user_data") as [ud |], (getitem r2 "user_data") as [ud' |];
    try contradiction; simpl; [ | congruence ].
  destruct Hud as (Pu & Pu' & Hud). unfold data_digest.
  rewrite (dumps_same_value ud ud' Pu Pu' Hud). reflexivity.
Qed.

Lemma verify_pqc_id_same_value_witness :
  Demo.record <> demo_record_reordered /\
  @verify_pqc_id Demo.provider Demo.record
  = @verify_pqc_id Demo.provider demo_record_reordered.
Proof.
  split; [ discriminate | ].
  apply verify_pqc_id_same_value; vm_compute; reflexivity.
Defined.

(** ** The handlers of app.py *)

Lemma app_record_text (user_id purpose : string) (t_data : pyfloat)
    (public_key_hex signature_hex : string) (t_id : pyfloat) :
  Json.dumps (app_record user_id purpose t_data public_key_hex signature_hex t_id)
  = Ok (app_text_before user_id public_key_hex signature_hex t_id
        ++ Json.encode_str purpose ++ app_text_after t_data).
Proof.
  unfold app_record. rewrite JsonFacts.dumps_PyDict.
  cbn [Json.dumps_items bind]. rewrite JsonFacts.dumps_PyDict.
  cbn [Json.dumps_items bind Json.dumps]. cbn.
  unfold app_text_before, app_text_after, Json.member.
  repeat (progress (simpl; rewrite ?append_assoc)). reflexivity.
Qed.

Lemma app_record_encodable (user_id purpose : string) (t_data : pyfloat)
    (public_key_hex signature_hex : string) (t_id : pyfloat) :
  exists s,
    Json.dumps (app_record user_id purpose t_data public_key_hex signature_hex t_id)
    = Ok s.
Proof. rewrite app_record_text. eauto. Qed.

Lemma app_ledger_hashable (self : Blockchain) :
  app_ledger self ->
  forall b, In b (chain self) -> exists h, calculate_hash b = Ok h.
Proof.
  intros (_ & g & rest & Hc & Hg & Hrest) b Hb. rewrite Hc in Hb.
  apply calculate_hash_defined. destruct Hb as [<- | Hb].
  - rewrite Hg. eexists. reflexivity.
  - rewrite Forall_forall in Hrest.
    destruct (Hrest b Hb) as (a & p & t & pk & sg & t' & ->).
    destruct (app_record_encodable a p t pk sg t') as [s Hs].
    exists [s]. cbn [Json.dumps_list]. rewrite Hs. reflexivity.
Qed.

Lemma mine_pending_ids_run (fuel : nat) (now : pyfloat) (difficulty : Z)
    (self : Blockchain) (last : Block) :
  last_block self = Ok last ->
  pending_ids self <> [] ->
  (forall r, In r (pending_ids self) -> exists s, Json.dumps r = Ok s) ->
  exists b,
    Block_init now (index last + 1) (pending_ids self) (hash last) = Ok b /\
    (forall e, mine_loop fuel (str_mul "0" difficulty) b <> Raised e) /\
    mine_pending_ids fuel now difficulty self =
    match mine_loop fuel (str_mul "0" difficulty) b with
    | Done b' =>
        ([MiningBlock (index last + 1) (List.length (pending_ids self));
          BlockMined (hash b')],
         Done (mkBlockchain (chain self ++ [b'])%list []))
    | Raised e =>
        ([MiningBlock (index last + 1) (List.length (pending_ids self))], Raised e)
    | OutOfFuel =>
        ([MiningBlock (index last + 1) (List.length (pending_ids self))], OutOfFuel)
    end.
Proof.
  intros Hl Hne Hp.
  destruct (Block_init_defined now (index last + 1) (pending_ids self) (hash last)
              (dumps_list_Ok _ Hp)) as [b Hb].
  exists b. split; [ exact Hb | ]. split.
  - intros e. apply mine_loop_no_raise. exists (hash b).
    apply Block_init_Ok in Hb. apply Hb.
  - unfold mine_pending_ids.
    destruct (pending_ids self) as [| r rest] eqn:Ep; [ contradiction | ].
    rewrite Hl. simpl. rewrite Hb. simpl. unfold mine_block.
    destruct (mine_loop fuel (str_mul "0" difficulty) b); reflexivity.
Qed.

Lemma tamper_user_data_app (g b1 : Block) (rest : list Block)
    (pending : list pyval) (user_id purpose : string) (t_data : pyfloat)
    (public_key_hex signature_hex : string) (t_id : pyfloat) (value : string) :
  digital_ids b1 = [app_record user_id purpose t_data public_key_hex signature_hex t_id] ->
  tamper_user_data "purpose" (PyStr value) (mkBlockchain (g :: b1 :: rest) pending)
  = Ok (mkBlockchain
          (g :: set_digital_ids b1
                  [app_record user_id value t_data public_key_hex signature_hex t_id]
             :: rest) pending).
Proof.
  intros Hd. unfold tamper_user_data. simpl. rewrite Hd. reflexivity.
Qed.

Lemma generate_app_record (P : SignatureProvider) (e_key e_sign : entropy)
    (t_data t_id : pyfloat) (user_id purpose : string) (pqc_id : pyval)
    (secret_key_hex : string) :
  generate_pqc_id e_key e_sign t_id
    (PyDict [ (KStr "id", PyStr user_id); (KStr "purpose", PyStr purpose);
              (KStr "timestamp", PyFloat t_data) ]) = Ok (pqc_id, secret_key_hex) ->
  exists signature,
    pqc_id = app_record user_id purpose t_data
               (Hex.hex (fst (generate_keypair e_key))) (Hex.hex signature) t_id.
Proof.
  intros H. apply generate_pqc_id_Ok in H.
  destruct H as (m & sg & _ & _ & _ & ->). exists sg. reflexivity.
Qed.

Lemma handle_keeps_app_ledger (P : SignatureProvider) (r : request)
    (self : Blockchain) :
  app_ledger self ->
  App.returned (handle r self) <> OutOfFuel ->
  app_ledger (App.ledger (handle r self)).
Proof.
  intros Ha Hret. pose proof Ha as (Hp & g & rest & Hc & Hg & Hrest).
  destruct r as [| fuel e_key e_sign t_data t_id t_block user_id purpose |]; simpl in *.
  - (* index *)
    unfold App.index, App.run in *.
    destruct (is_chain_valid self) as [out [v | e |]]; exact Ha.
  - (* create_and_mine *)
    unfold App.create_and_mine in *.
    destruct user_id as [[| c u] |]; try exact Ha.
    destruct purpose as [[| d p] |]; try exact Ha.
    destruct (generate_pqc_id e_key e_sign t_id _) as [[pqc_id sk] | e] eqn:Eg;
      [ | exact Ha ].
    apply generate_app_record in Eg. destruct Eg as [sg ->].
    set (record := app_record _ _ _ _ _ _) in *.
    assert (Hl : exists last, last_block (register_id record self) = Ok last).
    { unfold last_block. simpl. rewrite Hc. simpl List.length.
      destruct (nth_error (g :: rest) (List.length rest)) as [last |] eqn:E.
      - exists last. unfold list_get. rewrite E. reflexivity.
      - apply nth_error_None in E. simpl in E. lia. }
    destruct Hl as [last Hl].
    destruct (mine_pending_ids_run fuel t_block 3 (register_id record self) last Hl)
      as (b & Hb & Hnr & Hm).
    { simpl. rewrite Hp. discriminate. }
    { simpl. rewrite Hp. intros r [<- | []]. apply app_record_encodable. }
    rewrite Hm in *. unfold App.run in *.
    destruct (mine_loop fuel (str_mul "0" 3) b) as [b' | e |] eqn:Em; simpl in *.
    + split; [ reflexivity | ].
      exists g, (rest ++ [b'])%list. rewrite Hc. split; [ reflexivity | ].
      split; [ exact Hg | ]. apply Forall_app. split; [ exact Hrest | ].
      constructor; [ | constructor ].
      apply mine_loop_frame in Em. destruct Em as (_ & _ & Hd & _).
      apply Block_init_Ok in Hb. destruct Hb as (_ & _ & Hd' & _).
      unfold app_block. rewrite Hd, Hd'. simpl. rewrite Hp. simpl.
      unfold record. do 6 eexists. reflexivity.
    + exfalso. apply (Hnr e). reflexivity.
    + contradiction.
  - (* tamper_chain *)
    unfold App.tamper_chain in *.
    destruct self as [ch pend]. simpl in Hc, Hp. subst ch pend. simpl chain in *.
    destruct rest as [| b1 rest]; [ exact Ha | ].
    simpl List.length in *.
    change (1 <? S (S (List.length rest)))%nat with true in *. cbv iota in *.
    inversion Hrest as [| ? ? Hb1 Hrest']; subst.
    destruct Hb1 as (a & p & t & pk & sg & t' & Hd).
    rewrite (tamper_user_data_app _ _ _ _ _ _ _ _ _ _ _ Hd). simpl.
    split; [ reflexivity | ].
    exists g, (set_digital_ids b1 [app_record a "HACKED_BY_ATTACKER!" t pk sg t'] :: rest).
    split; [ reflexivity | ]. split; [ exact Hg | ].
    constructor; [ | exact Hrest' ].
    unfold app_block. simpl. do 6 eexists. reflexivity.
Qed.

Lemma app_reachable_inv (P : SignatureProvider) (self : Blockchain) :
  app_reachable self -> app_ledger self.
Proof.
  induction 1 as [now self Hinit | r self _ IH Hret].
  - destruct (Blockchain_init_total now) as (g & Hg & _ & Hd & _).
    rewrite Hg in Hinit. inversion Hinit; subst self.
    split; [ reflexivity | ]. exists g, []. simpl. auto.
  - apply handle_keeps_app_ledger; assumption.
Qed.

(** A form with a missing or empty field changes nothing: the handler
    prints nothing, registers nothing, mines nothing and redirects. *)
Lemma create_and_mine_skipped (P : SignatureProvider) (fuel : nat)
    (e_key e_sign : entropy) (t_data t_id t_block : pyfloat)
    (user_id purpose : option string) (blockchain : Blockchain) :
  user_id = None \/ user_id = Some "" \/ purpose = None \/ purpose = Some "" ->
  App.create_and_mine fuel e_key e_sign t_data t_id t_block user_id purpose blockchain
  = App.mkHandled [] (Done (App.redirect App.url_for_index)) blockchain.
Proof.
  intros [-> | [-> | [-> | ->]]]; unfold App.create_and_mine;
    try reflexivity; destruct user_id as [[| c u] |]; reflexivity.
Qed.

Lemma create_and_mine_skipped_witness :
  @App.create_and_mine Demo.provider 9 "k1" "" Demo.t0 Demo.t0 Demo.t1
    (Some "A") (Some "") Demo.ledger2
  = App.mkHandled [] (Done (App.redirect App.url_for_index)) Demo.ledger2.
Proof.
  apply create_and_mine_skipped. right. right. right. reflexivity.
Defined.

Lemma create_and_mine_returns (P : SignatureProvider) (fuel : nat)
    (e_key e_sign : entropy) (t_data t_id t_block : pyfloat)
    (c d : ascii) (u p : string) (blockchain : Blockchain) (last : Block) :
  provider_correct P ->
  pending_ids blockchain = [] ->
  last_block blockchain = Ok last ->
  App.returned
    (App.create_and_mine fuel e_key e_sign t_data t_id t_block
       (Some (String c u)) (Some (String d p)) blockchain)
  = Done (App.redirect App.url_for_index) \/
  App.returned
    (App.create_and_mine fuel e_key e_sign t_data t_id t_block
       (Some (String c u)) (Some (String d p)) blockchain)
  = OutOfFuel.
Proof.
  intros HP Hp Hl. unfold App.create_and_mine.
  set (user_data := PyDict _).
  assert (Hu : exists text, Json.dumps user_data = Ok text).
  { unfold user_data. rewrite JsonFacts.dumps_PyDict. simpl. eauto. }
  destruct Hu as [text Hu].
  pose proof (HP e_key e_sign (Sha256.digest text)) as HPk.
  assert (Hg : exists sg,
             generate_pqc_id e_key e_sign t_id user_data
             = Ok (app_record (String c u) (String d p) t_data
                     (Hex.hex (fst (generate_keypair e_key))) (Hex.hex sg) t_id,
                   Hex.hex (snd (generate_keypair e_key)))).
  { unfold generate_pqc_id. destruct (generate_keypair e_key) as [pk sk].
    destruct HPk as (sg & Hs & Hv). exists sg.
    unfold data_digest. rewrite Hu. simpl. rewrite Hs. simpl. auto. }
  destruct Hg as (sg & Hg). rewrite Hg.
  set (record := app_record _ _ _ _ _ _).
  assert (Hl' : last_block (register_id record blockchain) = Ok last) by exact Hl.
  destruct (mine_pending_ids_run fuel t_block 3 (register_id record blockchain) last Hl')
    as (b & Hb & Hnr & Hm).
  { simpl. rewrite Hp. discriminate. }
  { simpl. rewrite Hp. intros r [<- | []]. apply app_record_encodable. }
  rewrite Hm. unfold App.run.
  destruct (mine_loop fuel (str_mul "0" 3) b) as [b' | e |] eqn:Em;
    [ left; reflexivity | exfalso; apply (Hnr e); reflexivity | right; reflexivity ].
Qed.

(** A form with both fields filled in, sent to a ledger with nothing
    pending: when the handler returns, it has appended one block, linked
    to the former last block and mined at difficulty 3, that holds one
    record; the record carries the two fields and verifies; nothing is
    pending; and the handler does not raise. *)
Lemma create_and_mine_adds_block (P : SignatureProvider) (fuel : nat)
    (e_key e_sign : entropy) (t_data t_id t_block : pyfloat)
    (c d : ascii) (u p : string) (blockchain : Blockchain) (last : Block) :
  provider_correct P ->
  pending_ids blockchain = [] ->
  last_block blockchain = Ok last ->
  let handled :=
    App.create_and_mine fuel e_key e_sign t_data t_id t_block
      (Some (String c u)) (Some (String d p)) blockchain in
  App.returned handled <> OutOfFuel ->
  exists b record,
    App.returned handled = Done (App.redirect App.url_for_index) /\
    App.ledger handled = mkBlockchain (chain blockchain ++ [b])%list [] /\
    App.printed handled =
      [App.RegisteredNew (String c u);
       App.Ledger (MiningBlock (index last + 1) 1);
       App.Ledger (BlockMined (hash b))] /\
    digital_ids b = [record] /\
    index b = index last + 1 /\ previous_hash b = hash last /\
    timestamp b = t_block /\
    startswith (hash b) "000" = true /\
    calculate_hash b = Ok (hash b) /\
    getitem record "user_data" =
      Ok (PyDict [ (KStr "id", PyStr (String c u));
                   (KStr "purpose", PyStr (String d p));
                   (KStr "timestamp", PyFloat t_data) ]) /\
    verify_pqc_id record = ([], true).
Proof.
  intros HP Hp Hl handled Hret. subst handled. unfold App.create_and_mine in *.
  set (user_data := PyDict _) in *.
  assert (Hu : exists text, Json.dumps user_data = Ok text).
  { unfold user_data. rewrite JsonFacts.dumps_PyDict. simpl. eauto. }
  destruct Hu as [text Hu].
  pose proof (HP e_key e_sign (Sha256.digest text)) as HPk.
  assert (Hg : exists sg,
             generate_pqc_id e_key e_sign t_id user_data
             = Ok (app_record (String c u) (String d p) t_data
                     (Hex.hex (fst (generate_keypair e_key))) (Hex.hex sg) t_id,
                   Hex.hex (snd (generate_keypair e_key))) /\
             verify (fst (generate_keypair e_key)) (Sha256.digest text) sg = Ok true).
  { unfold generate_pqc_id. destruct (generate_keypair e_key) as [pk sk].
    destruct HPk as (sg & Hs & Hv). exists sg.
    unfold data_digest. rewrite Hu. simpl. rewrite Hs. simpl. auto. }
  destruct Hg as (sg & Hg & Hv). rewrite Hg in *.
  set (record := app_record _ _ _ _ _ _) in *.
  assert (Hl' : last_block (register_id record blockchain) = Ok last) by exact Hl.
  destruct (mine_pending_ids_run fuel t_block 3 (register_id record blockchain) last Hl')
    as (b & Hb & Hnr & Hm).
  { simpl. rewrite Hp. discriminate. }
  { simpl. rewrite Hp. intros r [<- | []]. apply app_record_encodable. }
  rewrite Hm in *. unfold App.run in *. simpl pending_ids in *. rewrite Hp in *.
  destruct (mine_loop fuel (str_mul "0" 3) b) as [b' | e |] eqn:Em;
    cbn [App.returned App.ledger App.printed map List.length register_id chain]
      in Hret |- *;
    [ | exfalso; apply (Hnr e); reflexivity | contradiction ].
  pose proof (mine_loop_frame _ _ _ _ Em) as (Hi & Ht & Hd & Hprev).
  pose proof (Block_init_Ok _ _ _ _ _ Hb) as (Hi' & Ht' & Hd' & Hprev' & _ & Hh').
  exists b', record.
  split; [ reflexivity | ]. split; [ reflexivity | ]. split; [ reflexivity | ].
  split; [ rewrite Hd, Hd'; simpl; rewrite ?Hp; reflexivity | ].
  split; [ congruence | ]. split; [ congruence | ]. split; [ congruence | ].
  split; [ apply (mine_loop_prefix _ _ _ _ Em) | ].
  split; [ destruct (mine_loop_hash _ _ _ _ Em) as [-> | H]; assumption | ].
  split; [ reflexivity | ].
  - assert (Hvb : verify_body record = Ok true);
      [ | unfold verify_pqc_id; rewrite Hvb; reflexivity ].
    apply verify_body_true.
    exists (PyStr (Hex.hex (fst (generate_keypair e_key)))), (PyStr (Hex.hex sg)),
      user_data, (fst (generate_keypair e_key)), sg, (Sha256.digest text).
    split; [ reflexivity | ]. split; [ apply fromhex_hex | ].
    split; [ reflexivity | ]. split; [ apply fromhex_hex | ].
    split; [ reflexivity | ].
    split; [ unfold data_digest; rewrite Hu; reflexivity | exact Hv ].
Qed.

Lemma create_and_mine_adds_block_witness :
  exists b record,
    App.returned demo_app_created = Done (App.redirect App.url_for_index) /\
    App.ledger demo_app_created = mkBlockchain (chain Demo.ledger0 ++ [b])%list [] /\
    App.printed demo_app_created =
      [App.RegisteredNew "A";
       App.Ledger (MiningBlock (index demo_genesis + 1) 1);
       App.Ledger (BlockMined (hash b))] /\
    digital_ids b = [record] /\
    index b = index demo_genesis + 1 /\ previous_hash b = hash demo_genesis /\
    timestamp b = mkFloat "1700000732.0" /\
    startswith (hash b) "000" = true /\
    calculate_hash b = Ok (hash b) /\
    getitem record "user_data" =
      Ok (PyDict [ (KStr "id", PyStr "A");
                   (KStr "purpose", PyStr "test");
                   (KStr "timestamp", PyFloat (mkFloat "1700000010.25")) ]) /\
    @verify_pqc_id Demo.provider record = ([], true).
Proof.
  assert (E : @App.create_and_mine Demo.provider 2 "k1" "" (mkFloat "1700000010.25")
                (mkFloat "1700000010.5") (mkFloat "1700000732.0")
                (Some "A") (Some "test") Demo.ledger0 = demo_app_created)
    by (vm_compute; reflexivity).
  rewrite <- E.
  apply (create_and_mine_adds_block Demo.provider 2 "k1" "" (mkFloat "1700000010.25")
           (mkFloat "1700000010.5") (mkFloat "1700000732.0") "A" "t" "" "est"
           Demo.ledger0 demo_genesis demo_provider_correct).
  - reflexivity.
  - reflexivity.
  - rewrite E. discriminate.
Defined.

Lemma demo_app_reachable : @app_reachable Demo.provider demo_app_ledger.
Proof.
  change demo_app_ledger with (App.ledger (handle demo_form Demo.ledger0)).
  apply app_request.
  - apply (app_start Demo.t0). vm_compute. reflexivity.
  - vm_compute. discriminate.
Qed.

(** In every ledger the application can hold nothing is pending, the
    first block is the genesis block, and every later block holds
    exactly one record, a dict whose user data carry an id and a purpose
    that are strings. *)
Lemma app_one_record_per_block (P : SignatureProvider) (self : Blockchain) :
  app_reachable self ->
  pending_ids self = [] /\
  (exists g, nth_error (chain self) 0 = Some g /\ digital_ids g = genesis_ids) /\
  forall i b, nth_error (chain self) (S i) = Some b ->
    exists record user_data user_id purpose,
      digital_ids b = [record] /\
      getitem record "user_data" = Ok user_data /\
      getitem user_data "id" = Ok (PyStr user_id) /\
      getitem user_data "purpose" = Ok (PyStr purpose).
Proof.
  intros H. apply app_reachable_inv in H.
  destruct H as (Hp & g & rest & Hc & Hg & Hrest).
  split; [ exact Hp | ]. rewrite Hc. split; [ exists g; auto | ].
  intros i b Hb. simpl in Hb. apply nth_error_In in Hb.
  rewrite Forall_forall in Hrest.
  destruct (Hrest b Hb) as (a & p & t & pk & sg & t' & Hd).
  exists (app_record a p t pk sg t'),
    (PyDict [ (KStr "id", PyStr a); (KStr "purpose", PyStr p);
              (KStr "timestamp", PyFloat t) ]), a, p.
  repeat split; auto.
Qed.

Lemma app_one_record_per_block_witness :
  pending_ids demo_app_ledger = [] /\
  (exists g, nth_error (chain demo_app_ledger) 0 = Some g /\
             digital_ids g = genesis_ids) /\
  forall i b, nth_error (chain demo_app_ledger) (S i) = Some b ->
    exists record user_data user_id purpose,
      digital_ids b = [record] /\
      getitem record "user_data" = Ok user_data /\
      getitem user_data "id" = Ok (PyStr user_id) /\
      getitem user_data "purpose" = Ok (PyStr purpose).
Proof.
  apply (app_one_record_per_block Demo.provider). exact demo_app_reachable.
Defined.

(** No request makes the code of a handler raise, in any ledger the
    application can hold, when the signature provider is correct: the
    validity check of the page, the handling of the form and the
    demonstration route run without an exception, up to the calls of
    [render_template] and [redirect]. *)
Lemma app_never_raises (P : SignatureProvider) (r : request)
    (self : Blockchain) (e : exn) :
  provider_correct P ->
  app_reachable self ->
  App.returned (handle r self) <> Raised e.
Proof.
  intros HP H. apply app_reachable_inv in H.
  pose proof H as (Hp & g & rest & Hc & Hg & Hrest).
  destruct r as [| fuel e_key e_sign t_data t_id t_block user_id purpose |]; simpl.
  - (* index *)
    unfold App.index, App.run.
    destruct (check_blocks_total (chain self)
                (seq 1 (List.length (chain self) - 1))) as (out & v & Hv).
    + apply app_ledger_hashable. exact H.
    + intros i Hi. apply in_seq in Hi. lia.
    + unfold is_chain_valid. rewrite Hv. discriminate.
  - (* create_and_mine *)
    destruct user_id as [[| c u] |]; try discriminate.
    destruct purpose as [[| d p] |]; try discriminate.
    assert (Hl : exists last, last_block self = Ok last).
    { unfold last_block. rewrite Hc. simpl List.length.
      destruct (nth_error (g :: rest) (List.length rest)) as [last |] eqn:E.
      - exists last. unfold list_get. rewrite E. reflexivity.
      - apply nth_error_None in E. simpl in E. lia. }
    destruct Hl as [last Hl].
    intros Hr.
    destruct (create_and_mine_returns P fuel e_key e_sign t_data t_id t_block
                c d u p self last HP Hp Hl) as [Hd | Ho];
      rewrite Hr in *; discriminate.
  - (* tamper_chain *)
    unfold App.tamper_chain.
    destruct self as [ch pend]. simpl in Hc, Hp. subst ch pend. simpl chain.
    destruct rest as [| b1 rest]; [ discriminate | ].
    simpl List.length.
    change (1 <? S (S (List.length rest)))%nat with true. cbv iota.
    inversion Hrest as [| ? ? Hb1 Hrest']; subst.
    destruct Hb1 as (a & p & t & pk & sg & t' & Hd).
    rewrite (tamper_user_data_app _ _ _ _ _ _ _ _ _ _ _ Hd). discriminate.
Qed.

Lemma app_never_raises_witness :
  App.returned (handle (P := Demo.provider) GetTamperChain demo_app_ledger)
  <> Raised KeyError.
Proof.
  apply app_never_raises; [ exact demo_provider_correct | exact demo_app_reachable ].
Defined.

Lemma dict_set_twice (items : list (pykey * pyval)) (key : string) (v : pyval) :
  dict_set (dict_set items (KStr key) v) (KStr key) v = dict_set items (KStr key) v.
Proof.
  induction items as [| [k x] items IH]; simpl.
  - rewrite String.eqb_refl. reflexivity.
  - destruct (pykey_eqb k (KStr key)) eqn:E; simpl; rewrite E; [ reflexivity | ].
    rewrite IH. reflexivity.
Qed.

Lemma setitem_twice (d d' v : pyval) (key : string) :
  setitem d key v = Ok d' -> setitem d' key v = Ok d'.
Proof.
  destruct d; simpl; try discriminate. intros H. inversion H; subst. simpl.
  rewrite dict_set_twice. reflexivity.
Qed.

Lemma list_set_twice {A : Type} (l : list A) (i : nat) (a : A) (l' : list A) :
  list_set l i a = Ok l' -> list_set l' i a = Ok l'.
Proof.
  revert i l'. induction l as [| x l IH]; intros i l'; simpl; [ destruct i; discriminate | ].
  destruct i as [| i].
  - intros H. inversion H; subst. reflexivity.
  - intros H. inv_bind H. inversion H; subst. simpl.
    rewrite (IH _ _ E). reflexivity.
Qed.

Lemma tamper_user_data_twice (key : string) (value : pyval)
    (self self' : Blockchain) :
  tamper_user_data key value self = Ok self' ->
  tamper_user_data key value self' = Ok self'.
Proof.
  unfold tamper_user_data. intros H.
  apply bind_Ok in H. destruct H as (b1 & Hb1 & H).
  apply bind_Ok in H. destruct H as (r & Hr & H).
  apply bind_Ok in H. destruct H as (ud & Hud & H).
  apply bind_Ok in H. destruct H as (ud' & Hud' & H).
  apply bind_Ok in H. destruct H as (r' & Hr' & H).
  apply bind_Ok in H. destruct H as (ids' & Hids & H).
  apply bind_Ok in H. destruct H as (chain' & Hchain & H).
  inversion H; subst self'. clear H. simpl chain. simpl pending_ids.
  pose proof (list_set_Ok _ _ _ _ Hchain) as (_ & Hn1 & _).
  pose proof (list_set_Ok _ _ _ _ Hids) as (_ & Hn0 & _).
  rewrite (proj2 (list_get_Ok _ _ _) Hn1). simpl.
  rewrite (proj2 (list_get_Ok _ _ _) Hn0). simpl.
  rewrite (getitem_setitem_same _ _ _ _ Hr'). simpl.
  rewrite (setitem_twice _ _ _ _ Hud'). simpl.
  rewrite (setitem_twice _ _ _ _ Hr'). simpl.
  rewrite (list_set_twice _ _ _ _ Hids). simpl.
  replace (set_digital_ids (set_digital_ids b1 ids') ids')
    with (set_digital_ids b1 ids') by reflexivity.
  rewrite (list_set_twice _ _ _ _ Hchain). reflexivity.
Qed.

(** The demonstration route is idempotent on every ledger: a second
    request prints, returns and leaves what the first one did. *)
Lemma tamper_chain_idempotent (blockchain : Blockchain) :
  App.tamper_chain (App.ledger (App.tamper_chain blockchain))
  = App.tamper_chain blockchain.
Proof.
  unfold App.tamper_chain at 2 3.
  destruct (1 <? List.length (chain blockchain))%nat eqn:El; [ | simpl ].
  - destruct (tamper_user_data "purpose" (PyStr "HACKED_BY_ATTACKER!") blockchain)
      as [tampered | e] eqn:Et; simpl.
    + unfold App.tamper_chain.
      rewrite (tamper_user_data_twice _ _ _ _ Et).
      assert (L : List.length (chain tampered) = List.length (chain blockchain)).
      { unfold tamper_user_data in Et.
        repeat (apply bind_Ok in Et; destruct Et as (? & ? & Et)).
        inversion Et; subst. simpl.
        match goal with H : list_set (chain blockchain) _ _ = Ok _ |- _ =>
          apply list_set_Ok in H; destruct H as (H & _) end.
        assumption. }
      rewrite L, El. reflexivity.
    + unfold App.tamper_chain. rewrite El, Et. reflexivity.
  - unfold App.tamper_chain. rewrite El. reflexivity.
Qed.

(** The demonstration of the application: on a ledger that validation
    accepts and whose block 1 holds one record of [create_and_mine] with
    another purpose than the one the route writes, the page requested
    after the route reports the tampering, and the check prints the line
    of block 1, provided SHA-256 tells the two texts of block 1 apart. *)
Lemma tamper_chain_then_index (g b1 : Block) (rest : list Block)
    (user_id purpose : string) (t_data : pyfloat)
    (public_key_hex signature_hex : string) (t_id : pyfloat) :
  let blockchain := mkBlockchain (g :: b1 :: rest) [] in
  let tampered := App.ledger (App.tamper_chain blockchain) in
  digital_ids b1 = [app_record user_id purpose t_data public_key_hex signature_hex t_id] ->
  purpose <> "HACKED_BY_ATTACKER!" ->
  is_chain_valid blockchain = ([], Done true) ->
  (forall t t', block1_string blockchain = Ok t -> block1_string tampered = Ok t' ->
                sha256_distinguishes t t') ->
  App.index tampered
  = App.mkHandled [App.Ledger (HashCorrupted 1)]
      (Done (App.render_template "index.html" (List.rev (chain tampered))
               (S (S (List.length rest))) "CHAIN INVALID - TAMPERING DETECTED!"))
      tampered.
Proof.
  intros blockchain tampered Hd Hne Hvalid Hsha.
  assert (Et : tampered =
               mkBlockchain
                 (g :: set_digital_ids b1
                         [app_record user_id "HACKED_BY_ATTACKER!" t_data
                            public_key_hex signature_hex t_id] :: rest) []).
  { unfold tampered, blockchain, App.tamper_chain. simpl List.length.
    change (1 <? S (S (List.length rest)))%nat with true. cbv iota.
    rewrite (tamper_user_data_app _ _ _ _ _ _ _ _ _ _ _ Hd). reflexivity. }
  set (b1' := set_digital_ids b1 _) in Et.
  assert (WL : well_linked (chain blockchain)) by (apply is_chain_valid_true; eauto).
  destruct (WL 1%nat b1 g) as [Hh _]; [ lia | reflexivity | reflexivity | ].
  set (text := app_text_before user_id public_key_hex signature_hex t_id
               ++ Json.encode_str purpose ++ app_text_after t_data).
  set (text' := app_text_before user_id public_key_hex signature_hex t_id
                ++ Json.encode_str "HACKED_BY_ATTACKER!" ++ app_text_after t_data).
  assert (Hs : block_string b1 = Ok (block_text b1 [text])).
  { rewrite block_string_text, Hd. cbn [Json.dumps_list].
    rewrite app_record_text. reflexivity. }
  assert (Hs' : block_string b1' = Ok (block_text b1' [text'])).
  { rewrite block_string_text. unfold b1'. cbn [digital_ids set_digital_ids Json.dumps_list].
    rewrite app_record_text. reflexivity. }
  assert (Hdiff : block_text b1 [text] <> block_text b1' [text']).
  { apply block_text_first_record; try reflexivity.
    unfold text, text'. intros E. apply append_inv_head in E.
    apply encode_str_inj in E. destruct E as [E _]. contradiction. }
  assert (Hx : sha256_hexdigest (block_text b1 [text])
               <> sha256_hexdigest (block_text b1' [text'])).
  { apply Hsha; [ exact Hs | rewrite Et; exact Hs' | exact Hdiff ]. }
  unfold calculate_hash in Hh. rewrite Hs in Hh. simpl in Hh. inversion Hh as [Hstored].
  assert (Hv : is_chain_valid tampered = ([HashCorrupted 1], Done false)).
  { rewrite Et. unfold is_chain_valid. simpl chain. simpl List.length. simpl seq.
    apply (check_blocks_hash_mismatch _ 1 _ b1' g
             (sha256_hexdigest (block_text b1' [text']))); try reflexivity.
    - unfold calculate_hash. rewrite Hs'. reflexivity.
    - unfold b1'. simpl hash. rewrite <- Hstored. exact Hx. }
  unfold App.index, App.run. rewrite Hv. simpl map.
  rewrite Et. reflexivity.
Qed.

Lemma tamper_chain_then_index_witness :
  App.index demo_app_tampered
  = App.mkHandled [App.Ledger (HashCorrupted 1)]
      (Done (App.render_template "index.html" (List.rev (chain demo_app_tampered))
               2 "CHAIN INVALID - TAMPERING DETECTED!"))
      demo_app_tampered.
Proof.
  apply (tamper_chain_then_index demo_genesis demo_app_block [] "A" "test"
           (mkFloat "1700000010.25") "6b31"
           "6b317973bf04bf36eafbb63234f14ff9a1f2d6131ad3b2946e6f930b1a4fbb70b849"
           (mkFloat "1700000010.5")).
  - reflexivity.
  - discriminate.
  - vm_compute. reflexivity.
  - intros t t' H1 H2 _. vm_compute in H1, H2.
    inversion H1; inversion H2; subst. vm_compute. discriminate.
Defined.
